(** * Well-log utilities: a shallow embedding of [bwli/utils.py]

    The module has two functions over an in-memory pandas table:
    [add_productive_zones], which labels depth samples lying in productive
    intervals, and [combo_plot], which renders a multi-track depth plot.

    Tables are Python objects that the code copies and mutates, so the
    embedding keeps them in a store addressed by references and runs the
    code in a state-and-exception monad.  Floating-point cells are IEEE
    values as specified by [SpecFloat]; every comparison with a NaN is
    false, as in the code. *)

From Stdlib Require Import ZArith String List Bool Lia SpecFloat.
From stdpp Require Import base list strings pretty.

Local Open Scope string_scope.
Local Open Scope Z_scope.
Local Open Scope list_scope.

(** ** Floating-point cells *)

Module Float.

Definition float : Type := spec_float.

Definition nan : float := S754_nan.

(** int64 to float64 conversion (round to nearest even). *)
Definition of_Z (z : Z) : float := binary_normalize 53 1024 z 0 false.

Definition is_nan (x : float) : bool :=
  match x with S754_nan => true | _ => false end.

(** [a <= b] and [a >= b] on doubles. *)
Definition le (a b : float) : bool := SFleb a b.
Definition ge (a b : float) : bool := SFleb b a.

(** [a < b] on doubles. *)
Definition lt (a b : float) : bool := SFltb a b.

End Float.

Abbreviation float := Float.float.

(** A cell of a column: a double (NaN is the missing value) or an int64. *)
Inductive cell : Type :=
  | CFloat (x : float)
  | CInt (n : Z).

Definition cell_float (c : cell) : float :=
  match c with
  | CFloat x => x
  | CInt n => Float.of_Z n
  end.

Definition isna (c : cell) : bool :=
  match c with
  | CFloat x => Float.is_nan x
  | CInt _ => false
  end.

(** ** Tables *)

(** A [Series] is one column together with the row labels. *)
Record Series : Type := mkSeries {
  s_index : list Z;
  s_values : list cell
}.

(** A [DataFrame] is an ordered list of named columns over a shared list of
    row labels. *)
Record DataFrame : Type := mkDataFrame {
  df_index : list Z;
  df_columns : list (string * list cell)
}.

Definition column_names (df : DataFrame) : list string :=
  map fst (df_columns df).

Fixpoint assoc {A : Type} (k : string) (l : list (string * A)) : option A :=
  match l with
  | [] => None
  | (k', v) :: l' => if String.eqb k k' then Some v else assoc k l'
  end.

Definition get_column (df : DataFrame) (name : string) : option (list cell) :=
  assoc name (df_columns df).

(** [col in df.columns] *)
Definition has_column (df : DataFrame) (name : string) : bool :=
  match get_column df name with Some _ => true | None => false end.

(** Columns have unique names and as many cells as the table has rows. *)
Definition wf_frame (df : DataFrame) : Prop :=
  NoDup (column_names df) /\
  Forall (fun c => length (snd c) = length (df_index df)) (df_columns df).

(** Replace the column [name], or append it when the table has none. *)
Fixpoint set_assoc {A : Type} (k : string) (v : A) (l : list (string * A))
  : list (string * A) :=
  match l with
  | [] => [(k, v)]
  | (k', v') :: l' =>
      if String.eqb k k' then (k', v) :: l' else (k', v') :: set_assoc k v l'
  end.

Definition set_column (df : DataFrame) (name : string) (vals : list cell)
  : DataFrame :=
  {| df_index := df_index df;
     df_columns := set_assoc name vals (df_columns df) |}.

(** *** Boolean masks *)

(** [series >= x], [series <= x], [m1 & m2] *)
Definition series_ge (s : Series) (x : float) : list bool :=
  map (fun c => Float.ge (cell_float c) x) (s_values s).

Definition series_le (s : Series) (x : float) : list bool :=
  map (fun c => Float.le (cell_float c) x) (s_values s).

Fixpoint mask_and (m1 m2 : list bool) : list bool :=
  match m1, m2 with
  | b1 :: m1', b2 :: m2' => (b1 && b2) :: mask_and m1' m2'
  | _, _ => []
  end.

(** Keep the entries of [l] whose mask bit is set. *)
Fixpoint select {A : Type} (mask : list bool) (l : list A) : list A :=
  match mask, l with
  | b :: mask', x :: l' => if b then x :: select mask' l' else select mask' l'
  | _, _ => []
  end.

(** [df[mask]]: the rows whose mask bit is set, labels kept. *)
Definition mask_rows (df : DataFrame) (mask : list bool) : DataFrame :=
  {| df_index := select mask (df_index df);
     df_columns :=
       map (fun c => (fst c, select mask (snd c))) (df_columns df) |}.

(** Overwrite by [v] the entries of [l] whose mask bit is set. *)
Fixpoint assign_where {A : Type} (mask : list bool) (v : A) (l : list A)
  : list A :=
  match l with
  | [] => []
  | x :: l' =>
      match mask with
      | b :: mask' => (if b then v else x) :: assign_where mask' v l'
      | [] => l
      end
  end.

(** ** Store, exceptions and the monad *)

Inductive exn : Type :=
  | KeyError (key : string)
  | AttributeError (name : string)
  | IndexError
  | ValueError (msg : string)
  | ReferenceError.

Inductive result (A : Type) : Type :=
  | Ok (a : A)
  | Raise (e : exn).
Arguments Ok {A} a.
Arguments Raise {A} e.

Definition ref : Type := nat.
Bind Scope nat_scope with ref.

(** The store of table objects and the lines printed so far. *)
Record world : Type := mkWorld {
  frames : list DataFrame;
  stdout : list string
}.

Definition M (A : Type) : Type := world -> result A * world.

Definition ret {A : Type} (a : A) : M A := fun w => (Ok a, w).

Definition raise {A : Type} (e : exn) : M A := fun w => (Raise e, w).

Definition bind {A B : Type} (m : M A) (k : A -> M B) : M B :=
  fun w =>
    match m w with
    | (Ok a, w') => k a w'
    | (Raise e, w') => (Raise e, w')
    end.

Notation "x <- m ;; k" := (bind m (fun x => k))
  (at level 100, m at next level, right associativity).
Notation "m ;;; k" := (bind m (fun _ => k))
  (at level 100, right associativity).

(** A Python [for] loop whose body may raise. *)
Fixpoint for_each {A : Type} (l : list A) (body : A -> M unit) : M unit :=
  match l with
  | [] => ret tt
  | x :: l' => body x ;;; for_each l' body
  end.

Definition lift {A : Type} (r : result A) : M A := fun w => (r, w).

(** [print(line)] *)
Definition print (line : string) : M unit :=
  fun w => (Ok tt, {| frames := frames w; stdout := stdout w ++ [line] |}).

(** Reading the object behind a reference. *)
Definition deref (r : ref) : M DataFrame :=
  fun w =>
    match frames w !! r with
    | Some df => (Ok df, w)
    | None => (Raise ReferenceError, w)
    end.

(** Allocating a new table object. *)
Definition alloc (df : DataFrame) : M ref :=
  fun w =>
    (Ok (length (frames w)),
     {| frames := frames w ++ [df]; stdout := stdout w |}).

(** Mutating the object behind a reference in place. *)
Definition store (r : ref) (df : DataFrame) : M unit :=
  fun w =>
    match frames w !! r with
    | Some _ =>
        (Ok tt, {| frames := <[r := df]> (frames w); stdout := stdout w |})
    | None => (Raise ReferenceError, w)
    end.

(** ** pandas operations on table objects *)

(** [df.copy()] *)
Definition df_copy (r : ref) : M ref :=
  df <- deref r ;; alloc df.

(** [df[name]]: the column of that name.  Tables are read by name as pandas
    reads a table whose column names are distinct ([wf_frame]); for a name
    that a table has twice pandas returns both columns, and the model the
    first. *)
Definition df_getitem (r : ref) (name : string) : M Series :=
  df <- deref r ;;
  match get_column df name with
  | Some vals => ret (mkSeries (df_index df) vals)
  | None => raise (KeyError name)
  end.

(** [df.name]: the column of that name, read as [df[name]] is. *)
Definition df_getattr (r : ref) (name : string) : M Series :=
  df <- deref r ;;
  match get_column df name with
  | Some vals => ret (mkSeries (df_index df) vals)
  | None => raise (AttributeError name)
  end.

(** [df[mask]] *)
Definition df_getitem_mask (r : ref) (mask : list bool) : M ref :=
  df <- deref r ;; alloc (mask_rows df mask).

(** [df[name] = v] for a scalar [v] *)
Definition df_setitem_scalar (r : ref) (name : string) (v : cell) : M unit :=
  df <- deref r ;;
  store r (set_column df name (replicate (length (df_index df)) v)).

(** [df.loc[mask, name] = v] for a scalar [v]; a column that does not exist
    is created with missing values first. *)
Definition df_loc_set_mask (r : ref) (mask : list bool) (name : string)
    (v : cell) : M unit :=
  df <- deref r ;;
  let old :=
    match get_column df name with
    | Some vals => vals
    | None => replicate (length (df_index df)) (CFloat Float.nan)
    end in
  store r (set_column df name (assign_where mask v old)).

(** ** The labeler *)

Definition DEPT : string := "DEPT".
Definition hydrocarbon_formation_class : string :=
  "hydrocarbon_formation_class".

(** Lines 212 and 213: one iteration of the loop over the zones. *)
Definition mark_zone (result : ref) (zone : float * float) : M unit :=
  let '(top, base) := zone in
  d1 <- df_getattr result DEPT ;;
  d2 <- df_getattr result DEPT ;;
  let mask := mask_and (series_ge d1 top) (series_le d2 base) in
  df_loc_set_mask result mask hydrocarbon_formation_class (CInt 1).

Definition add_productive_zones (data : ref)
    (productive_zones : list (float * float)) : M ref :=
  result <- df_copy data ;;
  df_setitem_scalar result hydrocarbon_formation_class (CInt 0) ;;;
  for_each productive_zones (mark_zone result) ;;;
  ret result.

(** ** Track and curve configuration

    The configuration is a list of Python dicts.  A field holds [None] when
    the dict has no such key: the code reads some keys with [d[key]], which
    raises [KeyError] on a missing key, and others with [d.get(key, default)]
    or [key in d]. *)

Record CurveConfig : Type := mkCurve {
  column : option string;
  label : option string;
  color : option string;
  linestyle : option string;
  min_val : option float;
  max_val : option float;
  log_scale : option bool;
  invert_axis : option bool;
  position_offset : option Z;
  curve_show_grid : option bool
}.

Record TrackConfig : Type := mkTrack {
  title : option string;
  show_grid : option bool;
  smoothing : option string;
  curves : option (list CurveConfig)
}.

(** [d[key]] *)
Definition dict_item {A : Type} (key : string) (entry : option A) : M A :=
  match entry with
  | Some v => ret v
  | None => raise (KeyError key)
  end.

(** [d.get(key, dflt)] *)
Definition dict_get {A : Type} (entry : option A) (dflt : A) : A :=
  match entry with
  | Some v => v
  | None => dflt
  end.

(** ** The figure

    The plotting backend is modelled by what the code asks of it: every
    call records its arguments in the axes object it is made on.  The
    direction of an axis is kept as the backend keeps it: an axis is
    inverted when its limits are given in descending order, and inverting
    it reverses its direction.

    The backend checks some of the arguments it is given (limits must be
    finite, tick intervals positive, line styles and colours known) and
    raises otherwise; so does the table library when it is asked to write
    floats into a column of integers.  These checks are not part of the
    model, which accepts every argument: the model describes the calls that
    the libraries accept, and what is proved of a figure is proved of the
    calls that return one. *)

Inductive Locator : Type :=
  | AutoLocator
  | MultipleLocator (base : float)
  | LinearLocator (numticks : Z)
  | LogLocator (numticks : Z).

Inductive Scale : Type := LinearScale | LogScale.

Record Line2D : Type := mkLine {
  line_x : list cell;
  line_y : list cell;
  line_style : string;
  line_color : string
}.

(** The horizontal axis of one curve, made by [ax.twiny()]. *)
Record TwinAxes : Type := mkTwin {
  tw_xlim : option (float * float);
  tw_xscale : Scale;
  tw_xinverted : bool;
  tw_spine_offset : Z;
  tw_xlabel : string;
  tw_xlabel_color : string;
  tw_tick_color : string;
  tw_lines : list Line2D;
  tw_major_locator : Locator;
  tw_major_formatter : option string;
  tw_grid : bool;
  tw_axisbelow : bool
}.

(** One track: the axes of a subplot and the twin axes stacked on it. *)
Record Axes : Type := mkAxes {
  ax_ylim : option (float * float);
  ax_yinverted : bool;
  ax_ygrid_minor : bool;
  ax_ygrid_major : bool;
  ax_ymajor : Locator;
  ax_yminor : Locator;
  ax_xaxis_visible : bool;
  ax_ylabel : option string;
  ax_title : option (string * Z);
  ax_twins : list TwinAxes;
  ax_hlines : list float;
  ax_texts : list (float * string)
}.

Record Figure : Type := mkFigure {
  fig_size : Z * float;
  fig_top : float;
  fig_axes : list Axes
}.

Definition new_axes : Axes :=
  {| ax_ylim := None; ax_yinverted := false;
     ax_ygrid_minor := false; ax_ygrid_major := false;
     ax_ymajor := AutoLocator; ax_yminor := AutoLocator;
     ax_xaxis_visible := true; ax_ylabel := None; ax_title := None;
     ax_twins := []; ax_hlines := []; ax_texts := [] |}.

Definition new_twin : TwinAxes :=
  {| tw_xlim := None; tw_xscale := LinearScale; tw_xinverted := false;
     tw_spine_offset := 0; tw_xlabel := EmptyString; tw_xlabel_color := "black";
     tw_tick_color := "black"; tw_lines := [];
     tw_major_locator := AutoLocator; tw_major_formatter := None;
     tw_grid := false; tw_axisbelow := false |}.

(** [plt.subplots(nrows=1, ncols=n, ...)]: the grid rejects a column count
    that is not positive.  With one column the backend hands back the bare
    axes object, which the code wraps in a list at once; the model returns
    the list in both cases. *)
Definition no_columns : string :=
  "Number of columns must be a positive integer, not 0".

Definition subplots (ncols : nat) : result (list Axes) :=
  match ncols with
  | O => Raise (ValueError no_columns)
  | _ => Ok (replicate ncols new_axes)
  end.

(** *** Calls on a track's axes *)

(** The five calls of the depth-ruler loop, lines 80 to 86. *)

(** [ax.set_ylim(lo, hi)]: the axis runs from [lo] to [hi], and is inverted
    when [hi < lo]. *)
Definition set_ylim (ax : Axes) (lo hi : float) : Axes :=
  mkAxes (Some (lo, hi)) (Float.lt hi lo) (ax_ygrid_minor ax)
    (ax_ygrid_major ax) (ax_ymajor ax) (ax_yminor ax) (ax_xaxis_visible ax)
    (ax_ylabel ax) (ax_title ax) (ax_twins ax) (ax_hlines ax) (ax_texts ax).

(** [ax.invert_yaxis()]: the axis runs the other way. *)
Definition invert_yaxis (ax : Axes) : Axes :=
  mkAxes (ax_ylim ax) (negb (ax_yinverted ax)) (ax_ygrid_minor ax)
    (ax_ygrid_major ax) (ax_ymajor ax) (ax_yminor ax) (ax_xaxis_visible ax)
    (ax_ylabel ax) (ax_title ax) (ax_twins ax) (ax_hlines ax) (ax_texts ax).

Definition ygrid_on (ax : Axes) : Axes :=
  mkAxes (ax_ylim ax) (ax_yinverted ax) true true (ax_ymajor ax)
    (ax_yminor ax) (ax_xaxis_visible ax) (ax_ylabel ax) (ax_title ax)
    (ax_twins ax) (ax_hlines ax) (ax_texts ax).

Definition set_ylocators (ax : Axes) (major minor : Locator) : Axes :=
  mkAxes (ax_ylim ax) (ax_yinverted ax) (ax_ygrid_minor ax)
    (ax_ygrid_major ax) major minor (ax_xaxis_visible ax) (ax_ylabel ax)
    (ax_title ax) (ax_twins ax) (ax_hlines ax) (ax_texts ax).

Definition hide_xaxis (ax : Axes) : Axes :=
  mkAxes (ax_ylim ax) (ax_yinverted ax) (ax_ygrid_minor ax)
    (ax_ygrid_major ax) (ax_ymajor ax) (ax_yminor ax) false (ax_ylabel ax)
    (ax_title ax) (ax_twins ax) (ax_hlines ax) (ax_texts ax).

Definition set_ylabel (ax : Axes) (text : string) : Axes :=
  mkAxes (ax_ylim ax) (ax_yinverted ax) (ax_ygrid_minor ax)
    (ax_ygrid_major ax) (ax_ymajor ax) (ax_yminor ax) (ax_xaxis_visible ax)
    (Some text) (ax_title ax) (ax_twins ax) (ax_hlines ax) (ax_texts ax).

Definition set_title (ax : Axes) (text : string) (pad : Z) : Axes :=
  mkAxes (ax_ylim ax) (ax_yinverted ax) (ax_ygrid_minor ax)
    (ax_ygrid_major ax) (ax_ymajor ax) (ax_yminor ax) (ax_xaxis_visible ax)
    (ax_ylabel ax) (Some (text, pad)) (ax_twins ax) (ax_hlines ax)
    (ax_texts ax).

(** The twin axes are kept in the order of their creation. *)
Definition add_twin (ax : Axes) (tw : TwinAxes) : Axes :=
  mkAxes (ax_ylim ax) (ax_yinverted ax) (ax_ygrid_minor ax)
    (ax_ygrid_major ax) (ax_ymajor ax) (ax_yminor ax) (ax_xaxis_visible ax)
    (ax_ylabel ax) (ax_title ax) (ax_twins ax ++ [tw]) (ax_hlines ax)
    (ax_texts ax).

(** [ax.axhline(y=depth, ...)] followed by [ax.text(0.1, depth, name, ...)] *)
Definition add_formation_line (ax : Axes) (depth : float) (name : string)
  : Axes :=
  mkAxes (ax_ylim ax) (ax_yinverted ax) (ax_ygrid_minor ax)
    (ax_ygrid_major ax) (ax_ymajor ax) (ax_yminor ax) (ax_xaxis_visible ax)
    (ax_ylabel ax) (ax_title ax) (ax_twins ax) (ax_hlines ax ++ [depth])
    (ax_texts ax ++ [(depth, name)]).

(** *** Calls on a curve's twin axes *)

(** [twin_ax.set_xlim(lo, hi)]: the axis runs from [lo] to [hi], and is
    inverted when [hi < lo]. *)
Definition set_xlim (tw : TwinAxes) (lo hi : float) : TwinAxes :=
  mkTwin (Some (lo, hi)) (tw_xscale tw) (Float.lt hi lo) (tw_spine_offset tw)
    (tw_xlabel tw) (tw_xlabel_color tw) (tw_tick_color tw) (tw_lines tw)
    (tw_major_locator tw) (tw_major_formatter tw) (tw_grid tw)
    (tw_axisbelow tw).

Definition set_xscale (tw : TwinAxes) (s : Scale) : TwinAxes :=
  mkTwin (tw_xlim tw) s (tw_xinverted tw) (tw_spine_offset tw)
    (tw_xlabel tw) (tw_xlabel_color tw) (tw_tick_color tw) (tw_lines tw)
    (tw_major_locator tw) (tw_major_formatter tw) (tw_grid tw)
    (tw_axisbelow tw).

(** [twin_ax.invert_xaxis()]: the axis runs the other way. *)
Definition invert_xaxis (tw : TwinAxes) : TwinAxes :=
  mkTwin (tw_xlim tw) (tw_xscale tw) (negb (tw_xinverted tw))
    (tw_spine_offset tw) (tw_xlabel tw) (tw_xlabel_color tw)
    (tw_tick_color tw) (tw_lines tw) (tw_major_locator tw)
    (tw_major_formatter tw) (tw_grid tw) (tw_axisbelow tw).

Definition set_spine_position (tw : TwinAxes) (offset : Z) : TwinAxes :=
  mkTwin (tw_xlim tw) (tw_xscale tw) (tw_xinverted tw) offset
    (tw_xlabel tw) (tw_xlabel_color tw) (tw_tick_color tw) (tw_lines tw)
    (tw_major_locator tw) (tw_major_formatter tw) (tw_grid tw)
    (tw_axisbelow tw).

Definition set_xlabel (tw : TwinAxes) (text clr : string) : TwinAxes :=
  mkTwin (tw_xlim tw) (tw_xscale tw) (tw_xinverted tw) (tw_spine_offset tw)
    text clr (tw_tick_color tw) (tw_lines tw)
    (tw_major_locator tw) (tw_major_formatter tw) (tw_grid tw)
    (tw_axisbelow tw).

Definition tick_params (tw : TwinAxes) (clr : string) : TwinAxes :=
  mkTwin (tw_xlim tw) (tw_xscale tw) (tw_xinverted tw) (tw_spine_offset tw)
    (tw_xlabel tw) (tw_xlabel_color tw) clr (tw_lines tw)
    (tw_major_locator tw) (tw_major_formatter tw) (tw_grid tw)
    (tw_axisbelow tw).

Definition plot (tw : TwinAxes) (xs ys : Series) (style clr : string)
  : TwinAxes :=
  mkTwin (tw_xlim tw) (tw_xscale tw) (tw_xinverted tw) (tw_spine_offset tw)
    (tw_xlabel tw) (tw_xlabel_color tw) (tw_tick_color tw)
    (tw_lines tw ++ [mkLine (s_values xs) (s_values ys) style clr])
    (tw_major_locator tw) (tw_major_formatter tw) (tw_grid tw)
    (tw_axisbelow tw).

Definition set_major_locator (tw : TwinAxes) (loc : Locator) : TwinAxes :=
  mkTwin (tw_xlim tw) (tw_xscale tw) (tw_xinverted tw) (tw_spine_offset tw)
    (tw_xlabel tw) (tw_xlabel_color tw) (tw_tick_color tw) (tw_lines tw)
    loc (tw_major_formatter tw) (tw_grid tw) (tw_axisbelow tw).

Definition set_major_formatter (tw : TwinAxes) (fmt : string) : TwinAxes :=
  mkTwin (tw_xlim tw) (tw_xscale tw) (tw_xinverted tw) (tw_spine_offset tw)
    (tw_xlabel tw) (tw_xlabel_color tw) (tw_tick_color tw) (tw_lines tw)
    (tw_major_locator tw) (Some fmt) (tw_grid tw) (tw_axisbelow tw).

Definition grid_on (tw : TwinAxes) : TwinAxes :=
  mkTwin (tw_xlim tw) (tw_xscale tw) (tw_xinverted tw) (tw_spine_offset tw)
    (tw_xlabel tw) (tw_xlabel_color tw) (tw_tick_color tw) (tw_lines tw)
    (tw_major_locator tw) (tw_major_formatter tw) true (tw_axisbelow tw).

Definition set_axisbelow (tw : TwinAxes) (b : bool) : TwinAxes :=
  mkTwin (tw_xlim tw) (tw_xscale tw) (tw_xinverted tw) (tw_spine_offset tw)
    (tw_xlabel tw) (tw_xlabel_color tw) (tw_tick_color tw) (tw_lines tw)
    (tw_major_locator tw) (tw_major_formatter tw) (tw_grid tw) b.

(** ** Label-based assignment *)

(** [series.dropna()]: the non-missing values with their row labels. *)
Fixpoint dropna_pairs (index : list Z) (vals : list cell) : list (Z * cell) :=
  match index, vals with
  | i :: index', c :: vals' =>
      if isna c then dropna_pairs index' vals'
      else (i, c) :: dropna_pairs index' vals'
  | _, _ => []
  end.

Definition dropna (s : Series) : Series :=
  let kept := dropna_pairs (s_index s) (s_values s) in
  mkSeries (map fst kept) (map snd kept).

(** The positions, counted from [pos], of the rows labelled [lbl]. *)
Fixpoint positions_from (pos : nat) (lbl : Z) (index : list Z) : list nat :=
  match index with
  | [] => []
  | i :: index' =>
      if Z.eqb i lbl then pos :: positions_from (S pos) lbl index'
      else positions_from (S pos) lbl index'
  end.

(** The positional indexer of a list of labels: every row carrying a label
    is selected, once for each time the label is asked for. *)
Definition loc_indexer (index : list Z) (labels : list Z) : list nat :=
  flat_map (fun lbl => positions_from 0 lbl index) labels.

(** Positional assignment [vals[positions] = news], one entry at a time. *)
Fixpoint scatter (positions : list nat) (news : list cell) (vals : list cell)
  : list cell :=
  match positions, news with
  | p :: positions', v :: news' => scatter positions' news' (<[p := v]> vals)
  | _, _ => vals
  end.

Definition length_mismatch : string :=
  "cannot set using a list-like indexer with a different length than the value".

(** [df.loc[labels, name] = news] for a list of labels taken from the index
    of [df]: the values must be as many as the rows selected. *)
Definition df_loc_set_labels (r : ref) (labels : list Z) (name : string)
    (news : list cell) : M unit :=
  df <- deref r ;;
  match get_column df name with
  | None => raise (KeyError name)
  | Some vals =>
      let positions := loc_indexer (df_index df) labels in
      if Nat.eqb (length positions) (length news)
      then store r (set_column df name (scatter positions news vals))
      else raise (ValueError length_mismatch)
  end.

(** ** A reference Savitzky-Golay filter

    [combo_plot] takes the filter as a parameter.  The examples run it with
    the closed form of the window-5, order-3 filter in binary64 arithmetic:
    [(-3 x[i-2] + 12 x[i-1] + 17 x[i] + 12 x[i+1] - 3 x[i+2]) / 35], the
    signal being extended by its end values (mode "nearest"). *)

Module SavgolRef.

Definition fadd (a b : float) : float := SFadd 53 1024 a b.
Definition fmul (a b : float) : float := SFmul 53 1024 a b.
Definition fdiv (a b : float) : float := SFdiv 53 1024 a b.

Definition coefficients : list Z := [-3; 12; 17; 12; -3].

(** The sample at offset [k - 2] of [i], clamped to the ends of [xs]. *)
Definition sample (xs : list float) (i : nat) (k : nat) : float :=
  let j := (Z.of_nat i + Z.of_nat k - 2)%Z in
  let j := Z.max 0 (Z.min (Z.of_nat (length xs) - 1) j) in
  nth (Z.to_nat j) xs Float.nan.

Definition smooth_at (xs : list float) (i : nat) : float :=
  let terms :=
    imap (fun k c => fmul (Float.of_Z c) (sample xs i k)) coefficients in
  fdiv (fold_left fadd terms (Float.of_Z 0)) (Float.of_Z 35).

Definition savgol_filter (xs : list float) (window_length polyorder : Z)
    (mode : string) : list float :=
  imap (fun i _ => smooth_at xs i) xs.

End SavgolRef.

(** ** The renderer *)

Section Renderer.

(** [scipy.signal.savgol_filter(x, window_length, polyorder, mode)] *)
Variable savgol_filter : list float -> Z -> Z -> string -> list float.

(** Lines 97 to 103: smoothing the column of one curve in place. *)
Definition smooth_curve (logs : ref) (curve_info : CurveConfig) : M unit :=
  col <- dict_item "column" (column curve_info) ;;
  df <- deref logs ;;
  if has_column df col then
    s <- df_getitem logs col ;;
    let valid_data := dropna s in
    if Nat.ltb 5 (length (s_values valid_data)) then
      let smoothed :=
        savgol_filter (map cell_float (s_values valid_data)) 5 3 "nearest" in
      df_loc_set_labels logs (s_index valid_data) col (map CFloat smoothed)
    else ret tt
  else ret tt.

(** Lines 92 to 103: the smoothing pass over one track. *)
Definition smooth_track (logs : ref) (track_info : TrackConfig) : M unit :=
  let should_smooth :=
    String.eqb (dict_get (smoothing track_info) "no") "yes" in
  if should_smooth then
    cs <- dict_item "curves" (curves track_info) ;;
    for_each cs (smooth_curve logs)
  else ret tt.

(** A [for] loop that threads the object it updates. *)
Fixpoint fold_each {A S : Type} (l : list A) (body : S -> A -> M S) (s : S)
  : M S :=
  match l with
  | [] => ret s
  | x :: l' => s' <- body s x ;; fold_each l' body s'
  end.

Definition warning (col : string) : string :=
  "Warning: Column '" +:+ col +:+ "' not found in DataFrame. Skipping.".

(** Lines 127 to 172: the twin axes of a curve whose column exists. *)
Definition draw_curve (curve_info : CurveConfig) (col : string)
    (xs ys : Series) (track_show_grid : bool) (num_vertical_gridlines : Z)
  : TwinAxes :=
  let twin_ax := new_twin in
  let twin_ax :=
    match min_val curve_info, max_val curve_info with
    | Some lo, Some hi => set_xlim twin_ax lo hi
    | _, _ => twin_ax
    end in
  let is_log_scale := dict_get (log_scale curve_info) false in
  let twin_ax :=
    if is_log_scale then set_xscale twin_ax LogScale else twin_ax in
  let twin_ax :=
    if dict_get (invert_axis curve_info) false
    then invert_xaxis twin_ax else twin_ax in
  let offset := dict_get (position_offset curve_info) 0 in
  let twin_ax := set_spine_position twin_ax offset in
  let twin_ax :=
    set_xlabel twin_ax (dict_get (label curve_info) col)
      (dict_get (color curve_info) "black") in
  let twin_ax := tick_params twin_ax (dict_get (color curve_info) "black") in
  let twin_ax :=
    plot twin_ax xs ys (dict_get (linestyle curve_info) "-")
      (dict_get (color curve_info) "black") in
  let show_grid := dict_get (curve_show_grid curve_info) track_show_grid in
  if show_grid then
    let locator :=
      if is_log_scale then LogLocator num_vertical_gridlines
      else LinearLocator num_vertical_gridlines in
    let twin_ax := set_major_locator twin_ax locator in
    let twin_ax := set_major_formatter twin_ax "%.3g" in
    let twin_ax := grid_on twin_ax in
    set_axisbelow twin_ax true
  else twin_ax.

(** Lines 119 to 172: one iteration of the curve loop. *)
Definition plot_curve (logs : ref) (depth_column : string)
    (track_show_grid : bool) (num_vertical_gridlines : Z)
    (ax : Axes) (curve_info : CurveConfig) : M Axes :=
  col <- dict_item "column" (column curve_info) ;;
  df <- deref logs ;;
  if negb (has_column df col) then
    print (warning col) ;;; ret ax
  else
    xs <- df_getitem logs col ;;
    ys <- df_getitem logs depth_column ;;
    ret (add_twin ax
           (draw_curve curve_info col xs ys track_show_grid
              num_vertical_gridlines)).

(** [max(l) if l else 0] *)
Definition max_or_zero (l : list Z) : Z :=
  match l with
  | [] => 0
  | x :: l' => fold_left Z.max l' x
  end.

(** [axes[i]] *)
Definition list_item {A : Type} (l : list A) (i : nat) : M A :=
  match l !! i with
  | Some x => ret x
  | None => raise IndexError
  end.

(** Lines 106 to 172: one iteration of the track loop. *)
Definition plot_track (logs : ref) (depth_column : string)
    (num_vertical_gridlines : Z) (axes : list Axes)
    (entry : nat * TrackConfig) : M (list Axes) :=
  let '(track_idx, track_info) := entry in
  ax <- list_item axes track_idx ;;
  let cs := dict_get (curves track_info) [] in
  let max_offset :=
    max_or_zero (map (fun c => dict_get (position_offset c) 0) cs) in
  let ax :=
    set_title ax
      (dict_get (title track_info) ("Track " +:+ pretty (track_idx + 1)%nat))
      (max_offset + 60) in
  let track_show_grid := dict_get (show_grid track_info) true in
  ax <- fold_each cs
          (plot_curve logs depth_column track_show_grid
             num_vertical_gridlines) ax ;;
  ret (<[track_idx := ax]> axes).

(** Lines 79 to 86: the depth ruler of one track. *)
Definition depth_ruler (top_depth bottom_depth : float)
    (major_ticks_interval minor_ticks_interval : float) (ax : Axes) : Axes :=
  let ax := set_ylim ax top_depth bottom_depth in
  let ax := invert_yaxis ax in
  let ax := ygrid_on ax in
  let ax :=
    set_ylocators ax (MultipleLocator major_ticks_interval)
      (MultipleLocator minor_ticks_interval) in
  hide_xaxis ax.

(** Lines 178 to 185: one formation on one track. *)
Definition draw_formation (top_depth bottom_depth : float) (ax : Axes)
    (item : string * float) : Axes :=
  let '(formation_name, depth) := item in
  if Float.ge depth top_depth && Float.le depth bottom_depth
  then add_formation_line ax depth formation_name
  else ax.

Definition enumerate {A : Type} (l : list A) : list (nat * A) :=
  imap (fun i x => (i, x)) l.

Definition combo_plot (data : ref) (tracks_config : list TrackConfig)
    (depth_column : string) (top_depth bottom_depth : float)
    (figure_height : float) (subplot_adjust_top : float)
    (major_ticks_interval minor_ticks_interval : float)
    (num_vertical_gridlines : Z)
    (formation : option (list (string * float))) : M Figure :=
  d1 <- df_getitem data depth_column ;;
  d2 <- df_getitem data depth_column ;;
  let mask := mask_and (series_ge d1 top_depth) (series_le d2 bottom_depth) in
  selected <- df_getitem_mask data mask ;;
  logs <- df_copy selected ;;
  let num_tracks := length tracks_config in
  axes <- lift (subplots num_tracks) ;;
  let axes :=
    map (depth_ruler top_depth bottom_depth major_ticks_interval
           minor_ticks_interval) axes in
  ax0 <- list_item axes 0 ;;
  let axes := <[0%nat := set_ylabel ax0 "Depth"]> axes in
  for_each tracks_config (smooth_track logs) ;;;
  axes <- fold_each (enumerate tracks_config)
            (plot_track logs depth_column num_vertical_gridlines) axes ;;
  let axes :=
    match formation with
    | Some items =>
        map (fun ax =>
               fold_left (draw_formation top_depth bottom_depth) items ax)
          axes
    | None => axes
    end in
  ret (mkFigure (4 * Z.of_nat num_tracks, figure_height) subplot_adjust_top
         axes).

End Renderer.

(** * Specification-level definitions *)

(** ** Loops as functions on the table they update *)

(** The effect of a command on one table object: its outcome and the table
    it leaves behind. *)
Definition frame_fun : Type := DataFrame -> result unit * DataFrame.

Definition update_frame (w : world) (r : ref) (df : DataFrame) : world :=
  {| frames := <[r := df]> (frames w); stdout := stdout w |}.

(** [m] touches nothing but the table behind [r], on which it acts as [f]. *)
Definition runs_on (r : ref) (m : M unit) (f : frame_fun) : Prop :=
  forall df w,
    frames w !! r = Some df ->
    m w = (fst (f df), update_frame w r (snd (f df))).

Fixpoint frame_loop {A : Type} (f : A -> frame_fun) (l : list A) : frame_fun :=
  fun df =>
    match l with
    | [] => (Ok tt, df)
    | x :: l' =>
        match f x df with
        | (Ok _, df') => frame_loop f l' df'
        | (Raise e, df') => (Raise e, df')
        end
    end.

(** ** Loops that read the working table and print *)

Definition printed (w : world) (out : list string) : world :=
  {| frames := frames w; stdout := stdout w ++ out |}.

(** [m] only reads the table [df] behind [r]; it returns [fst p] and prints
    the lines [snd p]. *)
Definition reads_on {S : Type} (r : ref) (df : DataFrame) (m : M S)
    (p : result S * list string) : Prop :=
  forall w, frames w !! r = Some df -> m w = (fst p, printed w (snd p)).

Fixpoint fold_on {A S : Type} (f : S -> A -> result S * list string)
    (l : list A) (s : S) : result S * list string :=
  match l with
  | [] => (Ok s, [])
  | x :: l' =>
      match f s x with
      | (Ok s', out) =>
          let '(r, out') := fold_on f l' s' in (r, out ++ out')
      | (Raise e, out) => (Raise e, out)
      end
  end.

(** ** The labeler on tables *)

(** The rows of [depths] that lie in a closed depth range. *)
Definition range_mask (depths : list cell) (range : float * float)
  : list bool :=
  mask_and (map (fun c => Float.ge (cell_float c) (fst range)) depths)
           (map (fun c => Float.le (cell_float c) (snd range)) depths).

(** One iteration of the loop of [add_productive_zones] on the table that
    [result] refers to. *)
Definition label_zone_on (zone : float * float) : frame_fun :=
  fun df =>
    match get_column df DEPT with
    | None => (Raise (AttributeError DEPT), df)
    | Some depths =>
        let old :=
          match get_column df hydrocarbon_formation_class with
          | Some vals => vals
          | None => replicate (length (df_index df)) (CFloat Float.nan)
          end in
        (Ok tt,
         set_column df hydrocarbon_formation_class
           (assign_where (range_mask depths zone) (CInt 1) old))
    end.

(** The whole loop: the outcome and the table it leaves behind. *)
Definition label_zones (zones : list (float * float)) : frame_fun :=
  frame_loop label_zone_on zones.

Definition zeros (df : DataFrame) : list cell :=
  replicate (length (df_index df)) (CInt 0).

(** [top <= depth <= base] on doubles. *)
Definition in_zone (d : cell) (zone : float * float) : bool :=
  Float.ge (cell_float d) (fst zone) && Float.le (cell_float d) (snd zone).

(** The class of a row: 1 when its depth lies in some zone, else 0. *)
Definition zone_class (zones : list (float * float)) (d : cell) : cell :=
  CInt (if existsb (in_zone d) zones then 1 else 0).

(** The result the specification asks of the labeler, for a class column
    called [name]: the input table with one more column, which holds the
    class of every row. *)
Definition labelled_as_specified (name : string)
    (zones : list (float * float)) (df df' : DataFrame) : Prop :=
  df_index df' = df_index df /\
  column_names df' = column_names df ++ [name] /\
  (forall c, c <> name -> get_column df' c = get_column df c) /\
  exists depths,
    get_column df DEPT = Some depths /\
    get_column df' name = Some (map (zone_class zones) depths).

Definition labeler_meets (name : string) (w : world) (data : ref)
    (zones : list (float * float)) : Prop :=
  exists df r w' df',
    frames w !! data = Some df /\
    add_productive_zones data zones w = (Ok r, w') /\
    frames w' !! r = Some df' /\
    labelled_as_specified name zones df df'.

(** The labeler, run on the table behind [data] with the zones [zones],
    returns a table whose class column is [classes]. *)
Definition labels (w : world) (data : ref) (zones : list (float * float))
    (classes : list cell) : Prop :=
  exists r w' df',
    add_productive_zones data zones w = (Ok r, w') /\
    frames w' !! r = Some df' /\
    get_column df' hydrocarbon_formation_class = Some classes.

(** ** Smoothing on the working table *)

Section SmoothingOnFrames.

Variable savgol_filter : list float -> Z -> Z -> string -> list float.

(** One smoothing pass over the values of a column: the non-missing values
    go through the filter, and the table is updated at their labels. *)
Definition smooth_column (index : list Z) (vals : list cell)
  : result (list cell) :=
  let valid_data := dropna (mkSeries index vals) in
  if Nat.ltb 5 (length (s_values valid_data)) then
    let smoothed :=
      map CFloat
        (savgol_filter (map cell_float (s_values valid_data)) 5 3 "nearest") in
    let positions := loc_indexer index (s_index valid_data) in
    if Nat.eqb (length positions) (length smoothed)
    then Ok (scatter positions smoothed vals)
    else Raise (ValueError length_mismatch)
  else Ok vals.

Definition smooth_curve_on (curve_info : CurveConfig) : frame_fun :=
  fun df =>
    match column curve_info with
    | None => (Raise (KeyError "column"), df)
    | Some col =>
        match get_column df col with
        | None => (Ok tt, df)
        | Some vals =>
            match smooth_column (df_index df) vals with
            | Ok vals' => (Ok tt, set_column df col vals')
            | Raise e => (Raise e, df)
            end
        end
    end.

Definition smooth_track_on (track_info : TrackConfig) : frame_fun :=
  fun df =>
    if String.eqb (dict_get (smoothing track_info) "no") "yes" then
      match curves track_info with
      | None => (Raise (KeyError "curves"), df)
      | Some cs => frame_loop smooth_curve_on cs df
      end
    else (Ok tt, df).

End SmoothingOnFrames.

(** ** Plotting on the working table *)

(** One iteration of the curve loop on the working table [df]. *)
Definition plot_curve_on (df : DataFrame) (depth_column : string)
    (track_show_grid : bool) (num_vertical_gridlines : Z)
    (ax : Axes) (curve_info : CurveConfig) : result Axes * list string :=
  match column curve_info with
  | None => (Raise (KeyError "column"), [])
  | Some col =>
      match get_column df col with
      | None => (Ok ax, [warning col])
      | Some xs =>
          match get_column df depth_column with
          | None => (Raise (KeyError depth_column), [])
          | Some ys =>
              (Ok (add_twin ax
                     (draw_curve curve_info col
                        (mkSeries (df_index df) xs)
                        (mkSeries (df_index df) ys)
                        track_show_grid num_vertical_gridlines)), [])
          end
      end
  end.

(** The title line of a track, lines 108 to 113. *)
Definition titled (ax : Axes) (track_idx : nat) (track_info : TrackConfig)
  : Axes :=
  let cs := dict_get (curves track_info) [] in
  set_title ax
    (dict_get (title track_info) ("Track " +:+ pretty (track_idx + 1)%nat))
    (max_or_zero (map (fun c => dict_get (position_offset c) 0) cs) + 60).

(** One iteration of the track loop on the working table [df]. *)
Definition plot_track_on (df : DataFrame) (depth_column : string)
    (num_vertical_gridlines : Z) (axes : list Axes)
    (entry : nat * TrackConfig) : result (list Axes) * list string :=
  let '(track_idx, track_info) := entry in
  match axes !! track_idx with
  | None => (Raise IndexError, [])
  | Some ax =>
      match
        fold_on
          (plot_curve_on df depth_column
             (dict_get (show_grid track_info) true) num_vertical_gridlines)
          (dict_get (curves track_info) [])
          (titled ax track_idx track_info)
      with
      | (Ok ax', out) => (Ok (<[track_idx := ax']> axes), out)
      | (Raise e, out) => (Raise e, out)
      end
  end.

(** ** The renderer as a function of the store *)

Section RendererOnFrames.

Variable savgol_filter : list float -> Z -> Z -> string -> list float.

(** The formation overlay, lines 175 to 185. *)
Definition with_formations (formation : option (list (string * float)))
    (top_depth bottom_depth : float) (axes : list Axes) : list Axes :=
  match formation with
  | Some items =>
      map (fun ax => fold_left (draw_formation top_depth bottom_depth) items ax)
        axes
  | None => axes
  end.

(** Everything after the smoothing pass, on the working table [logs]. *)
Definition render_on (tracks_config : list TrackConfig)
    (depth_column : string) (top_depth bottom_depth : float)
    (figure_height : float) (subplot_adjust_top : float)
    (major_ticks_interval minor_ticks_interval : float)
    (num_vertical_gridlines : Z)
    (formation : option (list (string * float))) (axes : list Axes)
    (logs : DataFrame) : result Figure * list string :=
  match
    fold_on (plot_track_on logs depth_column num_vertical_gridlines)
      (enumerate tracks_config) axes
  with
  | (Ok axes', out) =>
      (Ok (mkFigure (4 * Z.of_nat (length tracks_config), figure_height)
             subplot_adjust_top
             (with_formations formation top_depth bottom_depth axes')), out)
  | (Raise e, out) => (Raise e, out)
  end.

(** The working table of a call: the rows of [df] in the depth range. *)
Definition working_rows (df : DataFrame) (depths : list cell)
    (top_depth bottom_depth : float) : DataFrame :=
  mask_rows df (range_mask depths (top_depth, bottom_depth)).

Definition combo_plot_on (data : ref) (tracks_config : list TrackConfig)
    (depth_column : string) (top_depth bottom_depth : float)
    (figure_height : float) (subplot_adjust_top : float)
    (major_ticks_interval minor_ticks_interval : float)
    (num_vertical_gridlines : Z)
    (formation : option (list (string * float))) (w : world)
  : result Figure * world :=
  match frames w !! data with
  | None => (Raise ReferenceError, w)
  | Some df =>
      match get_column df depth_column with
      | None => (Raise (KeyError depth_column), w)
      | Some depths =>
          let selected := working_rows df depths top_depth bottom_depth in
          let logs := S (length (frames w)) in
          let w1 :=
            {| frames := frames w ++ [selected; selected];
               stdout := stdout w |} in
          match subplots (length tracks_config) with
          | Raise e => (Raise e, w1)
          | Ok axes =>
              let axes :=
                map (depth_ruler top_depth bottom_depth major_ticks_interval
                       minor_ticks_interval) axes in
              match axes !! 0%nat with
              | None => (Raise IndexError, w1)
              | Some ax0 =>
                  let axes := <[0%nat := set_ylabel ax0 "Depth"]> axes in
                  match
                    frame_loop (smooth_track_on savgol_filter) tracks_config
                      selected
                  with
                  | (Raise e, logs') => (Raise e, update_frame w1 logs logs')
                  | (Ok _, logs') =>
                      let p :=
                        render_on tracks_config depth_column top_depth
                          bottom_depth figure_height subplot_adjust_top
                          major_ticks_interval minor_ticks_interval
                          num_vertical_gridlines formation axes logs' in
                      (fst p, printed (update_frame w1 logs logs') (snd p))
                  end
              end
          end
      end
  end.

End RendererOnFrames.

(** ** What a track shows *)

(** A curve is drawn when its column exists in the table. *)
Definition drawn (df : DataFrame) (curve_info : CurveConfig) : bool :=
  match column curve_info with
  | Some col => has_column df col
  | None => false
  end.

(** The warnings printed for the curves of a track, in order. *)
Definition missing_warnings (df : DataFrame) (cs : list CurveConfig)
  : list string :=
  flat_map
    (fun c =>
       match column c with
       | Some col => if has_column df col then [] else [warning col]
       | None => []
       end) cs.

(** [tw] is the twin axes that the code builds for [curve_info] from the
    table [logs]. *)
Definition is_twin_of (logs : DataFrame) (depth_column : string)
    (track_show_grid : bool) (num_vertical_gridlines : Z)
    (curve_info : CurveConfig) (tw : TwinAxes) : Prop :=
  exists col xs ys,
    column curve_info = Some col /\
    get_column logs col = Some xs /\
    get_column logs depth_column = Some ys /\
    tw = draw_curve curve_info col (mkSeries (df_index logs) xs)
           (mkSeries (df_index logs) ys) track_show_grid
           num_vertical_gridlines.

(** The track [ax'] is [ax] with the title of [track_info] and one twin axes
    for each drawn curve, in the order of the curves. *)
Definition is_track_of (logs : DataFrame) (depth_column : string)
    (num_vertical_gridlines : Z) (track_idx : nat) (track_info : TrackConfig)
    (ax ax' : Axes) : Prop :=
  exists tws,
    ax' = fold_left add_twin tws (titled ax track_idx track_info) /\
    Forall2
      (is_twin_of logs depth_column (dict_get (show_grid track_info) true)
         num_vertical_gridlines)
      (List.filter (drawn logs) (dict_get (curves track_info) [])) tws.

(** Two tables with the same row labels and the same column names. *)
Definition same_shape (df df' : DataFrame) : Prop :=
  df_index df' = df_index df /\ column_names df' = column_names df.

(** The gridline count the specification asks of every rendered curve: a
    major locator of [n] positions, evenly spaced on a linear scale and
    logarithmically spaced on a log scale, with the grid drawn. *)
Definition fixed_gridlines (n : Z) (tw : TwinAxes) : Prop :=
  tw_grid tw = true /\
  tw_major_locator tw
  = match tw_xscale tw with
    | LinearScale => LinearLocator n
    | LogScale => LogLocator n
    end.

(** ** Configurations that carry the keys the code indexes *)



(** ** Configurations without the curves that are skipped *)

(** The curve is not one that the renderer skips: its column exists, or it
    has no [column] entry at all. *)
Definition present (df : DataFrame) (curve_info : CurveConfig) : bool :=
  match column curve_info with
  | Some col => has_column df col
  | None => true
  end.

(** The track without the curves whose column the table lacks. *)
Definition without_missing (df : DataFrame) (track_info : TrackConfig)
  : TrackConfig :=
  {| title := title track_info;
     show_grid := show_grid track_info;
     smoothing := smoothing track_info;
     curves := option_map (List.filter (present df)) (curves track_info) |}.


(** The result is the exception of a subscript out of range. *)
Definition is_index_error {A : Type} (r : result A) : bool :=
  match r with
  | Raise IndexError => true
  | _ => false
  end.

(** ** What one smoothing pass computes *)

(** The non-missing values of a column, in row order. *)
Definition valid_values (vals : list cell) : list cell :=
  List.filter (fun c => negb (isna c)) vals.

(** The column [vals] with its non-missing values replaced, in row order, by
    the values of [news]; the missing values stay where they are. *)
Fixpoint merge_valid (vals news : list cell) : list cell :=
  match vals with
  | [] => []
  | c :: vals' =>
      if isna c then c :: merge_valid vals' news
      else
        match news with
        | v :: news' => v :: merge_valid vals' news'
        | [] => c :: merge_valid vals' []
        end
  end.

(** The positions, counted from [pos], of the non-missing values. *)
Fixpoint valid_positions (pos : nat) (vals : list cell) : list nat :=
  match vals with
  | [] => []
  | c :: vals' =>
      if isna c then valid_positions (S pos) vals'
      else pos :: valid_positions (S pos) vals'
  end.

(** Every column has one cell for each row label. *)
Definition aligned (df : DataFrame) : Prop :=
  Forall (fun c => length (snd c) = length (df_index df)) (df_columns df).

(** The curve reads the column [name]. *)
Definition refers_to (name : string) (curve_info : CurveConfig) : bool :=
  match column curve_info with
  | Some col => String.eqb col name
  | None => false
  end.

(** The curves that the smoothing pass visits, in the order of the visits:
    those of the tracks whose [smoothing] is "yes". *)
Definition smoothed_curves (tracks : list TrackConfig) : list CurveConfig :=
  flat_map
    (fun t =>
       if String.eqb (dict_get (smoothing t) "no") "yes"
       then dict_get (curves t) [] else [])
    tracks.

(** How many times the smoothing pass visits the column [name]. *)
Definition smoothing_passes (tracks : list TrackConfig) (name : string) : nat :=
  length (List.filter (refers_to name) (smoothed_curves tracks)).

(** The filter returns as many values as it is given. *)
Definition length_preserving
    (f : list float -> Z -> Z -> string -> list float) : Prop :=
  forall xs w p m, length (f xs w p m) = length xs.

Section SmoothedValues.

Variable savgol_filter : list float -> Z -> Z -> string -> list float.

(** One visit of a column: when more than five values are not missing, they
    go through the filter as one run and come back to their rows; otherwise
    the column is left as it is. *)
Definition smoothed_values (vals : list cell) : list cell :=
  let valid := valid_values vals in
  if Nat.ltb 5 (length valid) then
    merge_valid vals
      (map CFloat (savgol_filter (map cell_float valid) 5 3 "nearest"))
  else vals.

End SmoothedValues.

(** ** The parts of a finished track *)

(** The axes of track [track_idx] after the depth-ruler loop and the
    labelling of the leftmost track, lines 79 to 89. *)
Definition ruled (top_depth bottom_depth : float)
    (major_ticks_interval minor_ticks_interval : float) (track_idx : nat)
  : Axes :=
  let ax :=
    depth_ruler top_depth bottom_depth major_ticks_interval
      minor_ticks_interval new_axes in
  match track_idx with
  | O => set_ylabel ax "Depth"
  | S _ => ax
  end.

(** The formation overlay on one track. *)
Definition formations_on (formation : option (list (string * float)))
    (top_depth bottom_depth : float) (ax : Axes) : Axes :=
  match formation with
  | Some items => fold_left (draw_formation top_depth bottom_depth) items ax
  | None => ax
  end.

(** The formations whose depth lies in the depth range, in the order of the
    dictionary. *)
Definition formations_shown (formation : option (list (string * float)))
    (top_depth bottom_depth : float) : list (string * float) :=
  match formation with
  | Some items =>
      List.filter
        (fun item =>
           Float.ge (snd item) top_depth && Float.le (snd item) bottom_depth)
        items
  | None => []
  end.

(** What the depth-ruler loop and the labelling of the leftmost track set on
    an axes: the depth limits, the inversion, the two grids, the two
    locators, the visibility of the horizontal axis and the label. *)
Definition ruler_of (ax : Axes)
  : option (float * float) * bool * bool * bool * Locator * Locator * bool
    * option string :=
  (ax_ylim ax, ax_yinverted ax, ax_ygrid_minor ax, ax_ygrid_major ax,
   ax_ymajor ax, ax_yminor ax, ax_xaxis_visible ax, ax_ylabel ax).

(** The spine offsets of the curves of a track, skipped curves included. *)
Definition offsets (track_info : TrackConfig) : list Z :=
  map (fun c => dict_get (position_offset c) 0)
    (dict_get (curves track_info) []).



(** Some curve of the track has no [column] entry. *)
Definition lacks_column (track_info : TrackConfig) : Prop :=
  Exists (fun c => column c = None) (dict_get (curves track_info) []).


(** The track is not smoothed: its [smoothing] entry is absent or is not the
    string "yes". *)
Definition unsmoothed (track_info : TrackConfig) : Prop :=
  dict_get (smoothing track_info) "no" <> "yes".

(** ** Example inputs *)

Module Examples.

Definition num (z : Z) : cell := CFloat (Float.of_Z z).

(** The table of the specification's example, with a gamma-ray log that has
    a missing sample. *)
Definition well : DataFrame :=
  {| df_index := [0; 1; 2; 3; 4];
     df_columns :=
       [("DEPT", [num 3690; num 3700; num 3750; num 3999; num 4010]);
        ("GR", [num 80; num 95; CFloat Float.nan; num 60; num 72])] |}.

Definition zones : list (float * float) :=
  [(Float.of_Z 3700, Float.of_Z 4000)].

(** The same samples, already labelled by an earlier run. *)
Definition labelled_well : DataFrame :=
  set_column well hydrocarbon_formation_class
    [CInt 0; CInt 1; CInt 1; CInt 1; CInt 0].

(** A table whose depth column goes by another name. *)
Definition well_depth : DataFrame :=
  {| df_index := [0; 1; 2];
     df_columns := [("DEPTH", [num 3690; num 3700; num 3750])] |}.

(** A table whose depth log has a missing sample. *)
Definition gappy_well : DataFrame :=
  {| df_index := [0; 1; 2];
     df_columns := [("DEPT", [num 3700; CFloat Float.nan; num 3750])] |}.

Definition world_of (df : DataFrame) : world :=
  {| frames := [df]; stdout := [] |}.

(** Eight samples in the depth range, one gamma-ray sample missing. *)
Definition deep_well : DataFrame :=
  {| df_index := [10; 11; 12; 13; 14; 15; 16; 17];
     df_columns :=
       [("DEPT",
         map num [3700; 3710; 3720; 3730; 3740; 3750; 3760; 3770]);
        ("GR",
         [num 80; num 95; CFloat Float.nan; num 60; num 72; num 88; num 91;
          num 70])] |}.

(** A gamma-ray curve with a lower scale bound only and its grid off. *)
Definition gamma_ray : CurveConfig :=
  {| column := Some "GR"; label := None; color := Some "green";
     linestyle := None; min_val := Some (Float.of_Z 0); max_val := None;
     log_scale := None; invert_axis := None; position_offset := None;
     curve_show_grid := Some false |}.

(** A density curve; the example table has no such column. *)
Definition density : CurveConfig :=
  {| column := Some "RHOB"; label := None; color := None; linestyle := None;
     min_val := None; max_val := None; log_scale := None;
     invert_axis := None; position_offset := None; curve_show_grid := None |}.

(** The gamma-ray log again, on a bounded logarithmic scale. *)
Definition gamma_ray_log : CurveConfig :=
  {| column := Some "GR"; label := Some "GR (log)"; color := None;
     linestyle := Some "--"; min_val := Some (Float.of_Z 1);
     max_val := Some (Float.of_Z 1000); log_scale := Some true;
     invert_axis := None; position_offset := Some 40;
     curve_show_grid := None |}.

Definition logs_track : TrackConfig :=
  {| title := Some "Logs"; show_grid := None; smoothing := None;
     curves := Some [gamma_ray; density; gamma_ray_log] |}.

(** A track that smooths the gamma-ray log and draws it twice. *)
Definition smooth_track : TrackConfig :=
  {| title := Some "Smoothed"; show_grid := Some true;
     smoothing := Some "yes"; curves := Some [gamma_ray; gamma_ray_log] |}.

(** A track none of whose columns exists. *)
Definition lost_track : TrackConfig :=
  {| title := None; show_grid := None; smoothing := Some "yes";
     curves := Some [density] |}.

Definition render (tracks_config : list TrackConfig) (w : world)
  : result Figure * world :=
  combo_plot SavgolRef.savgol_filter 0 tracks_config "DEPT"
    (Float.of_Z 3700) (Float.of_Z 4000) (Float.of_Z 10) (Float.of_Z 1)
    (Float.of_Z 100) (Float.of_Z 10) 5 None w.

Definition blank : Figure :=
  {| fig_size := (0, Float.of_Z 0); fig_top := Float.of_Z 0; fig_axes := [] |}.

Definition figure_of (run : result Figure * world) : Figure :=
  match fst run with
  | Ok fig => fig
  | Raise _ => blank
  end.

Definition logs_run : result Figure * world :=
  render [logs_track] (world_of well).

Definition lost_run : result Figure * world :=
  render [logs_track; lost_track] (world_of well).

Definition smooth_run : result Figure * world :=
  render [smooth_track] (world_of deep_well).

(** A track without a title and without curves. *)
Definition bare_track : TrackConfig :=
  {| title := None; show_grid := None; smoothing := None; curves := None |}.

(** Three formation tops, the second one below the depth range. *)
Definition tops : list (string * float) :=
  [("LL-35-TOP", Float.of_Z 3700); ("LL-36-TOP", Float.of_Z 4100);
   ("LL-35-BOTTOM", Float.of_Z 4000)].

Definition tops_run : result Figure * world :=
  combo_plot SavgolRef.savgol_filter 0 [logs_track; bare_track] "DEPT"
    (Float.of_Z 3700) (Float.of_Z 4000) (Float.of_Z 10) (Float.of_Z 1)
    (Float.of_Z 100) (Float.of_Z 10) 5 (Some tops) (world_of well).

(** A track that asks for smoothing and has no [curves] entry. *)
Definition keyless_track : TrackConfig :=
  {| title := Some "Empty"; show_grid := None; smoothing := Some "yes";
     curves := None |}.


(** The class of each sample, drawn as a curve. *)
Definition class_curve : CurveConfig :=
  {| column := Some "hydrocarbon_formation_class"; label := Some "Pay";
     color := Some "red"; linestyle := None; min_val := Some (Float.of_Z 0);
     max_val := Some (Float.of_Z 1); log_scale := None; invert_axis := None;
     position_offset := None; curve_show_grid := Some false |}.

Definition pay_track : TrackConfig :=
  {| title := Some "Pay"; show_grid := None; smoothing := None;
     curves := Some [gamma_ray; class_curve] |}.

(** Labelling the example table, then drawing the labelled table. *)
Definition labelled_run : result ref * world :=
  add_productive_zones 0 zones (world_of well).

Definition pay_run : result Figure * world :=
  combo_plot SavgolRef.savgol_filter 1 [smooth_track; pay_track] DEPT
    (Float.of_Z 3700) (Float.of_Z 4005) (Float.of_Z 10) (Float.of_Z 1)
    (Float.of_Z 100) (Float.of_Z 10) 5 None (snd labelled_run).

(** A call whose depth bounds are swapped. *)
Definition reversed_run : result Figure * world :=
  combo_plot SavgolRef.savgol_filter 0 [smooth_track; logs_track] "DEPT"
    (Float.of_Z 4000) (Float.of_Z 3700) (Float.of_Z 10) (Float.of_Z 1)
    (Float.of_Z 100) (Float.of_Z 10) 5 (Some tops) (world_of deep_well).

(** A resistivity curve on a scale given from high to low, and the same
    curve with its axis inverted on top of that. *)
Definition descending : CurveConfig :=
  {| column := Some "GR"; label := None; color := None; linestyle := None;
     min_val := Some (Float.of_Z 150); max_val := Some (Float.of_Z 0);
     log_scale := None; invert_axis := None; position_offset := None;
     curve_show_grid := None |}.

Definition descending_inverted : CurveConfig :=
  {| column := Some "GR"; label := None; color := None; linestyle := None;
     min_val := Some (Float.of_Z 150); max_val := Some (Float.of_Z 0);
     log_scale := None; invert_axis := Some true; position_offset := Some 40;
     curve_show_grid := None |}.

Definition scales_track : TrackConfig :=
  {| title := None; show_grid := None; smoothing := None;
     curves := Some [gamma_ray; descending; descending_inverted] |}.

Definition scales_run : result Figure * world :=
  render [scales_track] (world_of well).

End Examples.

(** * Properties *)

(** ** Association lists and columns *)

Lemma assoc_set_assoc_eq {A : Type} (k : string) (v : A) l :
  assoc k (set_assoc k v l) = Some v.
Proof.
  induction l as [|[k' v'] l IH]; simpl.
  - by rewrite String.eqb_refl.
  - destruct (String.eqb k k') eqn:E; simpl; rewrite E; [done | apply IH].
Qed.

Lemma assoc_set_assoc_ne {A : Type} (k k' : string) (v : A) l :
  k' <> k -> assoc k' (set_assoc k v l) = assoc k' l.
Proof.
  intros Hne. induction l as [|[k0 v0] l IH]; simpl.
  - destruct (String.eqb_spec k' k); [done | reflexivity].
  - destruct (String.eqb_spec k k0) as [->|]; simpl.
    + destruct (String.eqb_spec k' k0); [done | reflexivity].
    + destruct (String.eqb k' k0); [reflexivity | apply IH].
Qed.

Lemma set_assoc_twice {A : Type} (k : string) (v v' : A) l :
  set_assoc k v' (set_assoc k v l) = set_assoc k v' l.
Proof.
  induction l as [|[k0 v0] l IH]; simpl.
  - by rewrite String.eqb_refl.
  - destruct (String.eqb k k0) eqn:E; simpl; rewrite E; [done | by rewrite IH].
Qed.

Lemma set_assoc_id {A : Type} (k : string) (v : A) l :
  assoc k l = Some v -> set_assoc k v l = l.
Proof.
  induction l as [|[k' v'] l IH]; simpl; [done|].
  destruct (String.eqb k k'); [by injection 1 as -> | intros; f_equal; auto].
Qed.

Lemma assoc_None_notin {A : Type} (k : string) (l : list (string * A)) :
  assoc k l = None <-> k ∉ map fst l.
Proof.
  induction l as [|[k0 v0] l IH]; simpl.
  - split; [intros _; apply not_elem_of_nil | done].
  - rewrite not_elem_of_cons. destruct (String.eqb_spec k k0) as [->|Hne].
    + split; [done | intros [? _]; done].
    + rewrite IH. tauto.
Qed.

Lemma map_fst_set_assoc {A : Type} (k : string) (v : A) l :
  map fst (set_assoc k v l)
  = if assoc k l is Some _ then map fst l else map fst l ++ [k].
Proof.
  induction l as [|[k0 v0] l IH]; simpl; [done|].
  destruct (String.eqb k k0) eqn:E; simpl; [done|].
  rewrite IH. by destruct (assoc k l).
Qed.

Lemma assoc_map_values {A B : Type} (g : A -> B) k (l : list (string * A)) :
  assoc k (map (fun c => (fst c, g (snd c))) l) = option_map g (assoc k l).
Proof.
  induction l as [|[k' v] l IH]; simpl; [done|].
  by destruct (String.eqb k k').
Qed.

Lemma get_set_column_eq df name vals :
  get_column (set_column df name vals) name = Some vals.
Proof. apply assoc_set_assoc_eq. Qed.

Lemma get_set_column_ne df name name' vals :
  name' <> name ->
  get_column (set_column df name vals) name' = get_column df name'.
Proof. apply assoc_set_assoc_ne. Qed.

Lemma set_column_twice df name vals vals' :
  set_column (set_column df name vals) name vals' = set_column df name vals'.
Proof. unfold set_column. simpl. by rewrite set_assoc_twice. Qed.

Lemma set_column_id df name vals :
  get_column df name = Some vals -> set_column df name vals = df.
Proof.
  intros H. unfold set_column. rewrite set_assoc_id by done. by destruct df.
Qed.

Lemma column_names_set_column df name vals :
  column_names (set_column df name vals)
  = if has_column df name then column_names df
    else column_names df ++ [name].
Proof.
  unfold column_names, has_column, get_column, set_column. simpl.
  rewrite map_fst_set_assoc. by destruct (assoc name (df_columns df)).
Qed.

Lemma wf_column_length df name vals :
  wf_frame df -> get_column df name = Some vals ->
  length vals = length (df_index df).
Proof.
  intros [_ Hlen]. unfold get_column. revert Hlen.
  induction (df_columns df) as [|[k v] l IH]; simpl; [done|].
  intros Hall. apply Forall_cons in Hall as [Hv Hl].
  destruct (String.eqb name k); [injection 1 as <-; exact Hv | by apply IH].
Qed.

Lemma aligned_column_length df name vals :
  aligned df -> get_column df name = Some vals ->
  length vals = length (df_index df).
Proof.
  unfold aligned, get_column.
  induction (df_columns df) as [|[k v] l IH]; simpl; [done|].
  intros Hall. apply Forall_cons in Hall as [Hv Hl].
  destruct (String.eqb name k); [injection 1 as <-; exact Hv | by apply IH].
Qed.

Lemma aligned_set_column df name vals :
  aligned df -> length vals = length (df_index df) ->
  aligned (set_column df name vals).
Proof.
  unfold aligned, set_column. cbn [df_index df_columns]. intros Hall Hlen.
  induction (df_columns df) as [|[k v] l IH]; simpl.
  - by repeat constructor.
  - apply Forall_cons in Hall as [Hv Hl].
    destruct (String.eqb name k); constructor; auto.
Qed.

(** ** Row selection *)


Lemma mask_rows_column df mask name :
  get_column (mask_rows df mask) name
  = option_map (select mask) (get_column df name).
Proof. unfold get_column, mask_rows. simpl. apply assoc_map_values. Qed.

Lemma mask_rows_has_column df mask name :
  has_column (mask_rows df mask) name = has_column df name.
Proof.
  unfold has_column. rewrite mask_rows_column.
  by destruct (get_column df name).
Qed.

Lemma select_length_eq {A B : Type} mask : forall (l1 : list A) (l2 : list B),
  length l1 = length l2 ->
  length (select mask l1) = length (select mask l2).
Proof.
  induction mask as [|b mask IH]; intros [|x l1] [|y l2] Hlen; try done.
  simpl in *. destruct b; simpl; rewrite (IH l1 l2) by lia; done.
Qed.

Lemma select_sublist {A : Type} mask : forall l : list A,
  select mask l `sublist_of` l.
Proof.
  induction mask as [|b mask IH]; intros [|x l]; simpl; try done.
  - apply sublist_nil_l.
  - destruct b; [by apply sublist_skip | by apply sublist_cons].
Qed.

Lemma aligned_mask_rows df mask : aligned df -> aligned (mask_rows df mask).
Proof.
  unfold aligned, mask_rows. cbn [df_index df_columns]. intros Hall.
  apply Forall_fmap. eapply Forall_impl; [exact Hall|].
  intros [k v] Hv. cbn [snd fst] in *. by apply select_length_eq.
Qed.

Lemma NoDup_mask_rows df mask :
  NoDup (df_index df) -> NoDup (df_index (mask_rows df mask)).
Proof.
  intros Hnd. eapply sublist_NoDup; [exact Hnd|]. apply select_sublist.
Qed.

Lemma range_mask_in_zone depths zone :
  range_mask depths zone = map (fun d => in_zone d zone) depths.
Proof.
  unfold range_mask, in_zone. induction depths as [|d depths IH]; simpl;
    [done | by rewrite IH].
Qed.

(** ** Tables of the same shape *)

Lemma same_shape_refl df : same_shape df df.
Proof. by split. Qed.

Lemma same_shape_trans df1 df2 df3 :
  same_shape df1 df2 -> same_shape df2 df3 -> same_shape df1 df3.
Proof. intros [? ?] [? ?]. split; congruence. Qed.

Lemma same_shape_has_column df df' name :
  same_shape df df' -> has_column df' name = has_column df name.
Proof.
  intros [_ Hnames]. unfold has_column, get_column.
  destruct (assoc name (df_columns df')) eqn:H1;
    destruct (assoc name (df_columns df)) eqn:H2; try done.
  - apply assoc_None_notin in H2. fold (column_names df) in H2.
    rewrite <- Hnames in H2. apply assoc_None_notin in H2. congruence.
  - apply assoc_None_notin in H1. fold (column_names df') in H1.
    rewrite Hnames in H1. apply assoc_None_notin in H1. congruence.
Qed.

Lemma same_shape_set_column df name vals vals' :
  get_column df name = Some vals ->
  same_shape df (set_column df name vals').
Proof.
  intros H. split; [done|]. rewrite column_names_set_column.
  unfold has_column. by rewrite H.
Qed.

(** ** Running the monad *)

Lemma bind_Ok {A B : Type} (m : M A) (k : A -> M B) w a w1 :
  m w = (Ok a, w1) -> bind m k w = k a w1.
Proof. unfold bind. by intros ->. Qed.

Lemma deref_Some r df w : frames w !! r = Some df -> deref r w = (Ok df, w).
Proof. unfold deref. by intros ->. Qed.

Lemma store_Some r df df' w :
  frames w !! r = Some df ->
  store r df' w
  = (Ok tt, {| frames := <[r := df']> (frames w); stdout := stdout w |}).
Proof. unfold store. by intros ->. Qed.

Lemma insert_snoc {A : Type} (l : list A) (x y : A) :
  <[length l := y]> (l ++ [x]) = l ++ [y].
Proof. rewrite insert_app_r_alt by lia. by rewrite Nat.sub_diag. Qed.

Lemma lookup_snoc {A : Type} (l : list A) (x : A) :
  (l ++ [x]) !! length l = Some x.
Proof. rewrite lookup_app_r by lia. by rewrite Nat.sub_diag. Qed.

Lemma df_getattr_run r name df w :
  frames w !! r = Some df ->
  df_getattr r name w
  = match get_column df name with
    | Some vals => (Ok (mkSeries (df_index df) vals), w)
    | None => (Raise (AttributeError name), w)
    end.
Proof.
  intros Hr. unfold df_getattr, bind. rewrite (deref_Some _ _ _ Hr).
  by destruct (get_column df name).
Qed.

Lemma df_getitem_run r name df w :
  frames w !! r = Some df ->
  df_getitem r name w
  = match get_column df name with
    | Some vals => (Ok (mkSeries (df_index df) vals), w)
    | None => (Raise (KeyError name), w)
    end.
Proof.
  intros Hr. unfold df_getitem, bind. rewrite (deref_Some _ _ _ Hr).
  by destruct (get_column df name).
Qed.

Lemma df_loc_set_mask_run r mask name v df w :
  frames w !! r = Some df ->
  df_loc_set_mask r mask name v w
  = (Ok tt,
     {| frames :=
          <[r := set_column df name
                   (assign_where mask v
                      match get_column df name with
                      | Some vals => vals
                      | None =>
                          replicate (length (df_index df)) (CFloat Float.nan)
                      end)]> (frames w);
        stdout := stdout w |}).
Proof.
  intros Hr. unfold df_loc_set_mask, bind. rewrite (deref_Some _ _ _ Hr).
  by rewrite (store_Some _ _ _ _ Hr).
Qed.

Lemma df_setitem_scalar_run r name v df w :
  frames w !! r = Some df ->
  df_setitem_scalar r name v w
  = (Ok tt,
     {| frames :=
          <[r := set_column df name (replicate (length (df_index df)) v)]>
            (frames w);
        stdout := stdout w |}).
Proof.
  intros Hr. unfold df_setitem_scalar, bind. rewrite (deref_Some _ _ _ Hr).
  by rewrite (store_Some _ _ _ _ Hr).
Qed.

Lemma df_copy_run r df w :
  frames w !! r = Some df ->
  df_copy r w
  = (Ok (length (frames w)),
     {| frames := frames w ++ [df]; stdout := stdout w |}).
Proof.
  intros Hr. unfold df_copy, bind. by rewrite (deref_Some _ _ _ Hr).
Qed.

Lemma df_loc_set_labels_run r labels name news df w :
  frames w !! r = Some df ->
  df_loc_set_labels r labels name news w
  = match get_column df name with
    | None => (Raise (KeyError name), w)
    | Some vals =>
        let positions := loc_indexer (df_index df) labels in
        if Nat.eqb (length positions) (length news)
        then (Ok tt, update_frame w r
                       (set_column df name (scatter positions news vals)))
        else (Raise (ValueError length_mismatch), w)
    end.
Proof.
  intros Hr. unfold df_loc_set_labels, bind. rewrite (deref_Some _ _ _ Hr).
  destruct (get_column df name) as [vals|]; [|done].
  cbn zeta. destruct (Nat.eqb _ _); [|done].
  by rewrite (store_Some _ _ _ _ Hr).
Qed.

(** ** Loops *)

Lemma update_frame_id w r df :
  frames w !! r = Some df -> update_frame w r df = w.
Proof.
  intros Hr. unfold update_frame. rewrite list_insert_id by done.
  by destruct w.
Qed.

Lemma update_frame_twice w r df df' :
  update_frame (update_frame w r df) r df' = update_frame w r df'.
Proof. unfold update_frame. simpl. by rewrite list_insert_insert_eq. Qed.

Lemma update_frame_lookup w r df df' :
  frames w !! r = Some df -> frames (update_frame w r df') !! r = Some df'.
Proof.
  intros Hr. simpl. apply list_lookup_insert_eq. by eapply lookup_lt_Some.
Qed.

Lemma update_second w a b c :
  update_frame {| frames := frames w ++ [a; b]; stdout := stdout w |}
    (S (length (frames w))) c
  = {| frames := frames w ++ [a; c]; stdout := stdout w |}.
Proof.
  unfold update_frame. cbn [frames stdout]. f_equal.
  rewrite insert_app_r_alt by lia.
  by replace (S (length (frames w)) - length (frames w))%nat with 1%nat by lia.
Qed.

Lemma for_each_runs_on {A : Type} (r : ref) (body : A -> M unit)
    (f : A -> frame_fun) (l : list A) :
  (forall x, runs_on r (body x) (f x)) ->
  runs_on r (for_each l body) (frame_loop f l).
Proof.
  intros Hbody. induction l as [|x l IH]; intros df w Hr.
  - simpl. unfold ret. by rewrite (update_frame_id _ _ _ Hr).
  - cbn [for_each frame_loop]. unfold bind at 1. rewrite (Hbody x df w Hr).
    destruct (f x df) as [[[]|e] df']; cbn [fst snd]; [|done].
    rewrite (IH df') by (by eapply update_frame_lookup).
    by rewrite update_frame_twice.
Qed.

Lemma frame_loop_invariant {A : Type} (P : DataFrame -> Prop)
    (f : A -> frame_fun) (l : list A) :
  (forall x df, P df -> P (snd (f x df))) ->
  forall df, P df -> P (snd (frame_loop f l df)).
Proof.
  intros Hstep. induction l as [|x l IH]; intros df HP; [done|].
  cbn [frame_loop]. specialize (Hstep x df HP).
  destruct (f x df) as [[[]|e] df']; cbn [snd] in *; [by apply IH | done].
Qed.

Lemma printed_nil w : printed w [] = w.
Proof. unfold printed. rewrite app_nil_r. by destruct w. Qed.

Lemma printed_app w out out' :
  printed (printed w out) out' = printed w (out ++ out').
Proof. unfold printed. simpl. by rewrite app_assoc. Qed.

Lemma fold_each_reads {A S : Type} (r : ref) (df : DataFrame)
    (body : S -> A -> M S) (f : S -> A -> result S * list string) :
  (forall s x, reads_on r df (body s x) (f s x)) ->
  forall l s, reads_on r df (fold_each l body s) (fold_on f l s).
Proof.
  intros Hbody. induction l as [|x l IH]; intros s w Hr.
  - simpl. unfold ret. by rewrite printed_nil.
  - cbn [fold_each fold_on]. unfold bind. rewrite (Hbody s x w Hr).
    destruct (f s x) as [[s'|e] out]; cbn [fst snd]; [|done].
    rewrite (IH s' (printed w out) Hr).
    destruct (fold_on f l s') as [r' out']. cbn [fst snd].
    by rewrite printed_app.
Qed.

(** ** The labeler as a function on tables *)

Lemma mark_zone_runs r zone :
  runs_on r (mark_zone r zone) (label_zone_on zone).
Proof.
  intros df w Hr. destruct zone as [top base].
  unfold mark_zone, label_zone_on, bind.
  rewrite (df_getattr_run _ _ _ _ Hr).
  destruct (get_column df DEPT) as [depths|] eqn:Hd.
  - rewrite (df_getattr_run _ _ _ _ Hr), Hd.
    by rewrite (df_loc_set_mask_run _ _ _ _ _ _ Hr).
  - cbn [fst snd]. by rewrite (update_frame_id _ _ _ Hr).
Qed.

(** The labeler copies the table, resets the class column and runs the loop
    on the copy. *)
Lemma add_productive_zones_run data zones df w :
  frames w !! data = Some df ->
  add_productive_zones data zones w
  = let out :=
      label_zones zones (set_column df hydrocarbon_formation_class (zeros df))
    in
    (match fst out with
     | Ok _ => Ok (length (frames w))
     | Raise e => Raise e
     end,
     {| frames := frames w ++ [snd out]; stdout := stdout w |}).
Proof.
  intros Hr. unfold add_productive_zones.
  rewrite (bind_Ok _ _ _ _ _ (df_copy_run _ _ _ Hr)).
  pose proof (lookup_snoc (frames w) df) as Hnew.
  unfold bind.
  rewrite (df_setitem_scalar_run _ _ _ df) by exact Hnew.
  rewrite (for_each_runs_on _ _ label_zone_on zones (mark_zone_runs _)
             (set_column df hydrocarbon_formation_class (zeros df))).
  - unfold update_frame. cbn [frames stdout].
    rewrite list_insert_insert_eq, insert_snoc. fold (label_zones zones).
    by destruct (label_zones zones _) as [[[]|e] df'].
  - cbn [frames]. apply list_lookup_insert_eq. by eapply lookup_lt_Some.
Qed.

(** ** What the labeler computes *)

Lemma assign_where_class zs zone depths :
  assign_where (range_mask depths zone) (CInt 1) (map (zone_class zs) depths)
  = map (zone_class (zs ++ [zone])) depths.
Proof.
  rewrite range_mask_in_zone. induction depths as [|d depths IH]; simpl;
    [done|].
  rewrite IH. f_equal. unfold zone_class.
  rewrite existsb_app. simpl. rewrite orb_false_r.
  destruct (in_zone d zone); [by rewrite orb_true_r | by rewrite orb_false_r].
Qed.

Lemma DEPT_ne_class : DEPT <> hydrocarbon_formation_class.
Proof. discriminate. Qed.

(** On a table with a depth column the loop never raises, and it leaves the
    class of every row in the class column. *)
Lemma label_zones_class df depths zones : forall zs,
  get_column df DEPT = Some depths ->
  label_zones zones
    (set_column df hydrocarbon_formation_class (map (zone_class zs) depths))
  = (Ok tt,
     set_column df hydrocarbon_formation_class
       (map (zone_class (zs ++ zones)) depths)).
Proof.
  unfold label_zones. induction zones as [|zone zones IH]; intros zs Hd.
  - simpl. by rewrite app_nil_r.
  - cbn [frame_loop]. unfold label_zone_on at 1.
    rewrite get_set_column_ne by apply DEPT_ne_class. rewrite Hd.
    rewrite get_set_column_eq, set_column_twice, assign_where_class.
    rewrite (IH (zs ++ [zone]) Hd). by rewrite <- app_assoc.
Qed.

Lemma zeros_class df depths :
  length depths = length (df_index df) ->
  zeros df = map (zone_class []) depths.
Proof.
  unfold zeros. intros <-. induction depths as [|d depths IH]; simpl;
    [done | by rewrite IH].
Qed.

(** Whatever the table, the loop only rewrites the class column of the
    table it started from. *)
Lemma label_zones_shape df zones : forall col,
  exists col',
    snd (label_zones zones (set_column df hydrocarbon_formation_class col))
    = set_column df hydrocarbon_formation_class col'.
Proof.
  unfold label_zones. induction zones as [|zone zones IH]; intros col.
  - by exists col.
  - cbn [frame_loop]. unfold label_zone_on at 1.
    destruct (get_column (set_column df _ col) DEPT) as [depths|].
    + rewrite set_column_twice. apply IH.
    + by exists col.
Qed.

(** The functional behaviour of the labeler on a well-formed table with a
    depth column. *)
Lemma add_productive_zones_spec data zones df depths w :
  frames w !! data = Some df ->
  get_column df DEPT = Some depths ->
  length depths = length (df_index df) ->
  add_productive_zones data zones w
  = (Ok (length (frames w)),
     {| frames :=
          frames w ++
          [set_column df hydrocarbon_formation_class
             (map (zone_class zones) depths)];
        stdout := stdout w |}).
Proof.
  intros Hr Hd Hlen. rewrite (add_productive_zones_run _ _ _ _ Hr).
  rewrite (zeros_class _ _ Hlen), (label_zones_class _ _ _ _ Hd). done.
Qed.

Lemma ge_nan x : Float.ge Float.nan x = false.
Proof. by destruct x as [[]|[]| |[]]. Qed.

Lemma in_zone_na d zone : isna d = true -> in_zone d zone = false.
Proof.
  destruct d as [[]|]; try discriminate. intros _.
  unfold in_zone. simpl. by rewrite ge_nan.
Qed.

Lemma zone_class_na zones d : isna d = true -> zone_class zones d = CInt 0.
Proof.
  intros Hna. unfold zone_class.
  induction zones as [|zone zones IH]; simpl; [done|].
  rewrite (in_zone_na _ _ Hna). simpl. exact IH.
Qed.

(** ** The renderer as a function of the store *)

Section SmoothingRuns.

Variable savgol_filter : list float -> Z -> Z -> string -> list float.

Lemma smooth_curve_runs logs curve_info :
  runs_on logs (smooth_curve savgol_filter logs curve_info)
    (smooth_curve_on savgol_filter curve_info).
Proof.
  intros df w Hr. unfold smooth_curve, smooth_curve_on.
  destruct (column curve_info) as [col|]; cbn [dict_item].
  2: { cbn [fst snd]. by rewrite (update_frame_id _ _ _ Hr). }
  unfold bind at 1. unfold ret at 1. unfold bind at 1.
  rewrite (deref_Some _ _ _ Hr). unfold has_column.
  destruct (get_column df col) as [vals|] eqn:Hcol; cbn [fst snd].
  2: { unfold ret. by rewrite (update_frame_id _ _ _ Hr). }
  unfold bind at 1. rewrite (df_getitem_run _ _ _ _ Hr), Hcol.
  unfold smooth_column. cbn [s_index s_values].
  destruct (Nat.ltb 5 _); cbn [fst snd].
  2: { unfold ret.
       by rewrite (set_column_id _ _ _ Hcol), (update_frame_id _ _ _ Hr). }
  rewrite (df_loc_set_labels_run _ _ _ _ _ _ Hr), Hcol. cbn zeta.
  destruct (Nat.eqb _ _); cbn [fst snd]; [done|].
  by rewrite (update_frame_id _ _ _ Hr).
Qed.

Lemma smooth_track_runs logs track_info :
  runs_on logs (smooth_track savgol_filter logs track_info)
    (smooth_track_on savgol_filter track_info).
Proof.
  intros df w Hr. unfold smooth_track, smooth_track_on.
  destruct (String.eqb _ _).
  - destruct (curves track_info) as [cs|]; cbn [dict_item].
    + unfold bind, ret at 1.
      by apply for_each_runs_on; [apply smooth_curve_runs|].
    + cbn [fst snd]. by rewrite (update_frame_id _ _ _ Hr).
  - unfold ret. cbn [fst snd]. by rewrite (update_frame_id _ _ _ Hr).
Qed.

Lemma smoothing_runs logs tracks :
  runs_on logs (for_each tracks (smooth_track savgol_filter logs))
    (frame_loop (smooth_track_on savgol_filter) tracks).
Proof. apply for_each_runs_on, smooth_track_runs. Qed.

End SmoothingRuns.

Lemma plot_curve_reads logs df depth_column g n ax curve_info :
  reads_on logs df (plot_curve logs depth_column g n ax curve_info)
    (plot_curve_on df depth_column g n ax curve_info).
Proof.
  intros w Hr. unfold plot_curve, plot_curve_on.
  destruct (column curve_info) as [col|]; cbn [dict_item].
  2: { cbn [fst snd]. by rewrite printed_nil. }
  unfold bind at 1. unfold ret at 1. unfold bind at 1.
  rewrite (deref_Some _ _ _ Hr). unfold has_column.
  destruct (get_column df col) as [xs|] eqn:Hcol; cbn [negb fst snd].
  2: { done. }
  unfold bind at 1. rewrite (df_getitem_run _ _ _ _ Hr), Hcol.
  unfold bind at 1. rewrite (df_getitem_run _ _ _ _ Hr).
  destruct (get_column df depth_column) as [ys|]; cbn [fst snd];
    by rewrite printed_nil.
Qed.

Lemma plot_track_reads logs df depth_column n axes entry :
  reads_on logs df (plot_track logs depth_column n axes entry)
    (plot_track_on df depth_column n axes entry).
Proof.
  intros w Hr. destruct entry as [track_idx track_info].
  unfold plot_track, plot_track_on, list_item.
  destruct (axes !! track_idx) as [ax|]; cbn [fst snd].
  2: { unfold bind, raise. by rewrite printed_nil. }
  unfold bind at 1. unfold ret at 1. unfold bind at 1.
  rewrite (fold_each_reads logs df _
             (plot_curve_on df depth_column
                (dict_get (show_grid track_info) true) n)
             (fun s x => plot_curve_reads _ _ _ _ _ s x) _ _ w Hr).
  fold (titled ax track_idx track_info).
  by destruct (fold_on _ _ _) as [[ax'|e] out].
Qed.

Lemma plotting_reads logs df depth_column n tracks axes :
  reads_on logs df
    (fold_each tracks (plot_track logs depth_column n) axes)
    (fold_on (plot_track_on df depth_column n) tracks axes).
Proof. apply fold_each_reads. intros. apply plot_track_reads. Qed.

Lemma combo_plot_run sg data tracks depth_column top bottom height adjust
    major minor n formation w :
  combo_plot sg data tracks depth_column top bottom height adjust major minor
    n formation w
  = combo_plot_on sg data tracks depth_column top bottom height adjust major
      minor n formation w.
Proof.
  unfold combo_plot, combo_plot_on.
  destruct (frames w !! data) as [df|] eqn:Hdata.
  2: { unfold bind, df_getitem, bind, deref. by rewrite Hdata. }
  unfold bind at 1. rewrite (df_getitem_run _ _ _ _ Hdata).
  destruct (get_column df depth_column) as [depths|] eqn:Hdepth; [|done].
  unfold bind at 1. rewrite (df_getitem_run _ _ _ _ Hdata), Hdepth.
  unfold bind at 1. unfold df_getitem_mask at 1. unfold bind at 1.
  rewrite (deref_Some _ _ _ Hdata). unfold alloc at 1.
  cbn [s_values series_ge series_le].
  fold (range_mask depths (top, bottom)).
  fold (working_rows df depths top bottom).
  set (selected := working_rows df depths top bottom).
  unfold bind at 1.
  rewrite (df_copy_run _ selected) by apply lookup_snoc.
  cbn [frames stdout]. rewrite length_app, <- app_assoc. cbn [length app].
  replace (length (frames w) + 1)%nat with (S (length (frames w))) by lia.
  set (w1 := {| frames := frames w ++ [selected; selected];
                stdout := stdout w |}).
  assert (Hlogs : frames w1 !! S (length (frames w)) = Some selected).
  { subst w1. cbn [frames].
    rewrite lookup_app_r by lia.
    by replace (S (length (frames w)) - length (frames w))%nat with 1%nat
      by lia. }
  unfold bind at 1. unfold lift at 1.
  destruct (subplots (length tracks)) as [axes|e]; [|done].
  unfold bind at 1. unfold list_item at 1.
  destruct (map _ axes !! 0%nat) as [ax0|]; [|done].
  unfold ret at 1. unfold bind at 1.
  match goal with
  | |- context [for_each tracks _ ?x] => change x with w1
  end.
  rewrite (smoothing_runs sg _ tracks selected w1 Hlogs).
  destruct (frame_loop (smooth_track_on sg) tracks selected)
    as [[[]|e] logs']; cbn [fst snd]; [|done].
  unfold bind at 1.
  rewrite (plotting_reads _ logs' depth_column n (enumerate tracks) _
             (update_frame w1 (S (length (frames w))) logs')
             (update_frame_lookup _ _ _ _ Hlogs)).
  unfold render_on.
  by destruct (fold_on _ _ _) as [[axes'|e] out].
Qed.

(** ** The shape of the working table *)

Section SmoothingShape.

Variable savgol_filter : list float -> Z -> Z -> string -> list float.

Lemma smooth_curve_same_shape df0 curve_info df :
  same_shape df0 df ->
  same_shape df0 (snd (smooth_curve_on savgol_filter curve_info df)).
Proof.
  intros Hshape. unfold smooth_curve_on.
  destruct (column curve_info) as [col|]; [|done].
  destruct (get_column df col) as [vals|] eqn:Hcol; [|done].
  destruct (smooth_column _ _ _) as [vals'|e]; [|done].
  cbn [snd]. eapply same_shape_trans; [exact Hshape|].
  by eapply same_shape_set_column.
Qed.

Lemma smooth_track_same_shape df0 track_info df :
  same_shape df0 df ->
  same_shape df0 (snd (smooth_track_on savgol_filter track_info df)).
Proof.
  intros Hshape. unfold smooth_track_on.
  destruct (String.eqb _ _); [|done].
  destruct (curves track_info) as [cs|]; [|done].
  apply (frame_loop_invariant (same_shape df0)); [|done].
  intros c df'. apply smooth_curve_same_shape.
Qed.

Lemma smoothing_same_shape tracks df :
  same_shape df (snd (frame_loop (smooth_track_on savgol_filter) tracks df)).
Proof.
  apply (frame_loop_invariant (same_shape df)); [|apply same_shape_refl].
  intros t df'. apply smooth_track_same_shape.
Qed.

End SmoothingShape.

Lemma drawn_same_shape df df' c :
  same_shape df df' -> drawn df' c = drawn df c.
Proof.
  intros Hshape. unfold drawn. destruct (column c); [|done].
  by apply same_shape_has_column.
Qed.

Lemma missing_warnings_same_shape df df' cs :
  same_shape df df' -> missing_warnings df' cs = missing_warnings df cs.
Proof.
  intros Hshape. unfold missing_warnings.
  induction cs as [|c cs IH]; simpl; [done|]. rewrite IH.
  destruct (column c); [|done]. by rewrite (same_shape_has_column _ _ _ Hshape).
Qed.

Lemma drawn_working_rows df depths top bottom c :
  drawn (working_rows df depths top bottom) c = drawn df c.
Proof.
  unfold drawn. destruct (column c); [|done]. apply mask_rows_has_column.
Qed.

Section WorkingTable.

Variable savgol_filter : list float -> Z -> Z -> string -> list float.

(** The smoothed working table has the columns of the caller's table. *)
Lemma drawn_logs df depths top bottom tracks c :
  drawn
    (snd (frame_loop (smooth_track_on savgol_filter) tracks
            (working_rows df depths top bottom))) c
  = drawn df c.
Proof.
  rewrite (drawn_same_shape _ _ _ (smoothing_same_shape _ _ _)).
  apply drawn_working_rows.
Qed.

Lemma has_column_logs df depths top bottom tracks name :
  has_column
    (snd (frame_loop (smooth_track_on savgol_filter) tracks
            (working_rows df depths top bottom))) name
  = has_column df name.
Proof.
  rewrite (same_shape_has_column _ _ _ (smoothing_same_shape _ _ _)).
  apply mask_rows_has_column.
Qed.

End WorkingTable.

(** ** The twin axes of a curve *)

Lemma draw_curve_xlim c col xs ys g n :
  tw_xlim (draw_curve c col xs ys g n)
  = match min_val c, max_val c with
    | Some lo, Some hi => Some (lo, hi)
    | _, _ => None
    end.
Proof.
  unfold draw_curve.
  destruct (min_val c), (max_val c), (dict_get (log_scale c) false),
    (dict_get (invert_axis c) false), (dict_get (curve_show_grid c) g);
    reflexivity.
Qed.

Lemma draw_curve_xscale c col xs ys g n :
  tw_xscale (draw_curve c col xs ys g n)
  = if dict_get (log_scale c) false then LogScale else LinearScale.
Proof.
  unfold draw_curve.
  destruct (min_val c), (max_val c), (dict_get (log_scale c) false),
    (dict_get (invert_axis c) false), (dict_get (curve_show_grid c) g);
    reflexivity.
Qed.

Lemma draw_curve_grid c col xs ys g n :
  tw_grid (draw_curve c col xs ys g n) = dict_get (curve_show_grid c) g.
Proof.
  unfold draw_curve.
  destruct (min_val c), (max_val c), (dict_get (log_scale c) false),
    (dict_get (invert_axis c) false), (dict_get (curve_show_grid c) g);
    reflexivity.
Qed.

Lemma draw_curve_locator c col xs ys g n :
  tw_major_locator (draw_curve c col xs ys g n)
  = if dict_get (curve_show_grid c) g then
      if dict_get (log_scale c) false then LogLocator n else LinearLocator n
    else AutoLocator.
Proof.
  unfold draw_curve.
  destruct (min_val c), (max_val c), (dict_get (log_scale c) false),
    (dict_get (invert_axis c) false), (dict_get (curve_show_grid c) g);
    reflexivity.
Qed.

Lemma draw_curve_lines c col xs ys g n :
  tw_lines (draw_curve c col xs ys g n)
  = [mkLine (s_values xs) (s_values ys) (dict_get (linestyle c) "-")
       (dict_get (color c) "black")].
Proof.
  unfold draw_curve.
  destruct (min_val c), (max_val c), (dict_get (log_scale c) false),
    (dict_get (invert_axis c) false), (dict_get (curve_show_grid c) g);
    reflexivity.
Qed.


(** ** What a track shows *)

Lemma ax_twins_fold_add_twin tws ax :
  ax_twins (fold_left add_twin tws ax) = ax_twins ax ++ tws.
Proof.
  revert ax. induction tws as [|tw tws IH]; intros ax; simpl.
  - by rewrite app_nil_r.
  - rewrite IH. simpl. by rewrite <- app_assoc.
Qed.

Lemma plot_curves_Ok df depth_column g n cs : forall ax ax' out,
  fold_on (plot_curve_on df depth_column g n) cs ax = (Ok ax', out) ->
  out = missing_warnings df cs /\
  exists tws,
    ax' = fold_left add_twin tws ax /\
    Forall2 (is_twin_of df depth_column g n) (List.filter (drawn df) cs) tws.
Proof.
  induction cs as [|c cs IH]; intros ax ax' out Hrun.
  - injection Hrun as <- <-. split; [done|]. exists []. by split.
  - cbn [fold_on] in Hrun.
    destruct (plot_curve_on df depth_column g n ax c) as [[ax0|e] out0]
      eqn:Hstep; [|discriminate].
    destruct (fold_on _ cs ax0) as [[ax1|e] out1] eqn:Hrest; [|discriminate].
    injection Hrun as <- <-.
    destruct (IH _ _ _ Hrest) as [-> (tws & -> & Htws)].
    cbn [missing_warnings flat_map List.filter]. unfold drawn at 1.
    unfold plot_curve_on in Hstep.
    destruct (column c) as [col|] eqn:Hcol; [|discriminate].
    unfold has_column.
    destruct (get_column df col) as [xs|] eqn:Hxs.
    + destruct (get_column df depth_column) as [ys|] eqn:Hys; [|discriminate].
      injection Hstep as <- <-.
      split; [done|]. eexists (_ :: tws). split; [reflexivity|].
      constructor; [|exact Htws]. by exists col, xs, ys.
    + injection Hstep as <- <-. split; [done|]. by exists tws.
Qed.

Lemma plot_track_Ok df depth_column n axes track_idx track_info axes' out :
  plot_track_on df depth_column n axes (track_idx, track_info)
  = (Ok axes', out) ->
  out = missing_warnings df (dict_get (curves track_info) []) /\
  exists ax ax',
    axes !! track_idx = Some ax /\
    axes' = <[track_idx := ax']> axes /\
    is_track_of df depth_column n track_idx track_info ax ax'.
Proof.
  unfold plot_track_on. intros Hrun.
  destruct (axes !! track_idx) as [ax|]; [|discriminate].
  destruct (fold_on _ _ _) as [[ax'|e] out'] eqn:Hcs; [|discriminate].
  injection Hrun as <- <-.
  destruct (plot_curves_Ok _ _ _ _ _ _ _ _ Hcs) as [-> (tws & -> & Htws)].
  split; [done|]. eexists ax, _. split; [done|]. split; [done|].
  by exists tws.
Qed.

(** The track loop draws track [k + i] of the figure from entry [i] of the
    configuration and leaves the other tracks alone. *)
Lemma plot_tracks_Ok df depth_column n tracks : forall k axes axes' out,
  fold_on (plot_track_on df depth_column n)
    (imap (fun i x => ((k + i)%nat, x)) tracks) axes = (Ok axes', out) ->
  out = flat_map (fun t => missing_warnings df (dict_get (curves t) [])) tracks
  /\ length axes' = length axes
  /\ (forall j, (j < k)%nat -> axes' !! j = axes !! j)
  /\ forall i t,
       tracks !! i = Some t ->
       exists ax ax',
         axes !! (k + i)%nat = Some ax /\
         axes' !! (k + i)%nat = Some ax' /\
         is_track_of df depth_column n (k + i) t ax ax'.
Proof.
  induction tracks as [|t0 tracks IH]; intros k axes axes' out Hrun.
  - injection Hrun as <- <-. split; [done|]. split; [done|]. split; [done|].
    intros i t Hi. by rewrite lookup_nil in Hi.
  - cbn [imap fold_on] in Hrun.
    destruct (plot_track_on _ _ _ axes _) as [[axes1|e] out1] eqn:Hstep;
      [|discriminate].
    destruct (fold_on _ _ axes1) as [[axes2|e] out2] eqn:Hrest;
      [|discriminate].
    injection Hrun as <- <-.
    apply plot_track_Ok in Hstep
      as [-> (ax & ax' & Hax & -> & Htrack)].
    rewrite (imap_ext _ (fun i x => ((S k + i)%nat, x))) in Hrest
      by (intros; simpl; f_equal; lia).
    apply IH in Hrest as (-> & Hlen & Hbelow & Hrest).
    rewrite length_insert in Hlen.
    split; [done|]. split; [done|]. split.
    { intros j Hj. rewrite Hbelow by lia.
      apply list_lookup_insert_ne. lia. }
    intros [|i] t Hi.
    + injection Hi as <-. exists ax, ax'. split; [done|]. split; [|done].
      rewrite Hbelow by lia.
      apply list_lookup_insert_eq. by eapply lookup_lt_Some.
    + destruct (Hrest i t Hi) as (ax1 & ax1' & Hax1 & Hax1' & Htrack1).
      replace (k + S i)%nat with (S k + i)%nat by lia.
      exists ax1, ax1'. split; [|done].
      rewrite list_lookup_insert_ne in Hax1 by lia. done.
Qed.


(** ** A call that completes *)

Lemma ax_twins_draw_formation top bottom items : forall ax,
  ax_twins (fold_left (draw_formation top bottom) items ax) = ax_twins ax.
Proof.
  induction items as [|[name depth] items IH]; intros ax; [done|].
  cbn [fold_left]. rewrite IH. unfold draw_formation.
  by destruct (_ && _).
Qed.

Lemma with_formations_lookup formation top bottom axes i ax :
  axes !! i = Some ax ->
  exists ax',
    with_formations formation top bottom axes !! i = Some ax' /\
    ax_twins ax' = ax_twins ax.
Proof.
  intros Hi. unfold with_formations. destruct formation as [items|].
  - eexists. rewrite list_lookup_fmap, Hi. split; [reflexivity|].
    apply ax_twins_draw_formation.
  - by exists ax.
Qed.

Lemma with_formations_length formation top bottom axes :
  length (with_formations formation top bottom axes) = length axes.
Proof.
  unfold with_formations. destruct formation; [apply length_map | done].
Qed.

Lemma first_axes_no_twins top bottom major minor k ax0 i ax :
  (<[0%nat := set_ylabel ax0 "Depth"]>
     (map (depth_ruler top bottom major minor) (replicate k new_axes))) !! i
  = Some ax ->
  ax_twins ax0 = [] -> ax_twins ax = [].
Proof.
  intros Hi H0. destruct i as [|i].
  - destruct k; [done|]. simpl in Hi. by injection Hi as <-.
  - rewrite list_lookup_insert_ne in Hi by lia.
    rewrite list_lookup_fmap in Hi.
    destruct (replicate k new_axes !! S i) as [a|] eqn:Ha; [|done].
    apply lookup_replicate_1 in Ha as [-> _]. by injection Hi as <-.
Qed.

Lemma combo_plot_Ok sg data tracks depth_column top bottom height adjust
    major minor n formation w fig w' :
  combo_plot sg data tracks depth_column top bottom height adjust major minor
    n formation w = (Ok fig, w') ->
  exists df depths logs',
    frames w !! data = Some df /\
    get_column df depth_column = Some depths /\
    tracks <> [] /\
    frame_loop (smooth_track_on sg) tracks
      (working_rows df depths top bottom) = (Ok tt, logs') /\
    frames w' = frames w ++ [working_rows df depths top bottom; logs'] /\
    stdout w'
    = stdout w ++
      flat_map (fun t => missing_warnings logs' (dict_get (curves t) []))
        tracks /\
    length (fig_axes fig) = length tracks /\
    forall i t,
      tracks !! i = Some t ->
      exists ax,
        fig_axes fig !! i = Some ax /\
        Forall2
          (is_twin_of logs' depth_column (dict_get (show_grid t) true) n)
          (List.filter (drawn logs') (dict_get (curves t) []))
          (ax_twins ax).
Proof.
  rewrite combo_plot_run. unfold combo_plot_on. intros Hrun.
  destruct (frames w !! data) as [df|] eqn:Hdata; [|discriminate].
  destruct (get_column df depth_column) as [depths|] eqn:Hdepth;
    [|discriminate].
  destruct tracks as [|t0 tracks']; [discriminate|].
  set (tracks := t0 :: tracks') in *.
  change (subplots (length tracks))
    with (Ok (A := list Axes) (replicate (length tracks) new_axes)) in Hrun.
  cbn iota in Hrun.
  set (sel := working_rows df depths top bottom) in *.
  destruct (map _ (replicate (length tracks) new_axes) !! 0%nat) as [ax0|]
    eqn:Hax0; [|discriminate].
  destruct (frame_loop (smooth_track_on sg) tracks sel) as [[[]|e] logs']
    eqn:Hsmooth; [|discriminate].
  unfold render_on in Hrun.
  destruct (fold_on _ (enumerate tracks) _) as [[axes'|e] out] eqn:Hplot;
    [|discriminate].
  cbn [fst snd] in Hrun. injection Hrun as <- <-.
  apply (plot_tracks_Ok _ _ _ _ 0%nat) in Hplot
    as (-> & Hlen & _ & Htracks).
  rewrite length_insert, length_map, length_replicate in Hlen.
  exists df, depths, logs'.
  split; [done|]. split; [done|]. split; [by subst tracks|]. split; [done|].
  rewrite update_second. cbn [frames stdout printed fig_axes].
  split; [done|]. split; [done|].
  rewrite with_formations_length. split; [done|].
  intros i t Hi. destruct (Htracks i t Hi) as (ax & ax' & Hax & Hax' & Htrack).
  cbn [Nat.add] in Hax, Hax', Htrack.
  destruct (with_formations_lookup formation top bottom _ _ _ Hax')
    as (ax'' & Hax'' & Htw).
  exists ax''. split; [done|]. rewrite Htw.
  destruct Htrack as (tws & -> & Htws).
  rewrite ax_twins_fold_add_twin.
  assert (Hnil : ax_twins (titled ax i t) = []).
  { unfold titled. cbn [ax_twins set_title].
    eapply first_axes_no_twins; [exact Hax|].
    rewrite list_lookup_fmap in Hax0.
    destruct (replicate (length tracks) new_axes !! 0%nat) as [a|] eqn:Ha;
      [|done].
    apply lookup_replicate_1 in Ha as [-> _]. by injection Hax0 as <-. }
  by rewrite Hnil.
Qed.

Lemma combo_plot_shows sg data tracks depth_column top bottom height adjust
    major minor n formation w df fig w' :
  frames w !! data = Some df ->
  combo_plot sg data tracks depth_column top bottom height adjust major minor
    n formation w = (Ok fig, w') ->
  exists depths logs',
    get_column df depth_column = Some depths /\
    tracks <> [] /\
    logs'
    = snd (frame_loop (smooth_track_on sg) tracks
             (working_rows df depths top bottom)) /\
    frames w' = frames w ++ [working_rows df depths top bottom; logs'] /\
    stdout w'
    = stdout w ++
      flat_map (fun t => missing_warnings df (dict_get (curves t) [])) tracks
    /\
    length (fig_axes fig) = length tracks /\
    forall i t,
      tracks !! i = Some t ->
      exists ax,
        fig_axes fig !! i = Some ax /\
        Forall2
          (is_twin_of logs' depth_column (dict_get (show_grid t) true) n)
          (List.filter (drawn df) (dict_get (curves t) []))
          (ax_twins ax).
Proof.
  intros Hdata Hrun.
  destruct (combo_plot_Ok _ _ _ _ _ _ _ _ _ _ _ _ _ _ _ Hrun)
    as (df' & depths & logs' & Hdata' & Hdepth & Hne & Hsmooth & Hframes
        & Hout & Hlen & Htracks).
  rewrite Hdata in Hdata'. injection Hdata' as <-.
  assert (Hlogs : logs'
    = snd (frame_loop (smooth_track_on sg) tracks
             (working_rows df depths top bottom))) by (by rewrite Hsmooth).
  assert (Hshape : same_shape (working_rows df depths top bottom) logs').
  { rewrite Hlogs. apply smoothing_same_shape. }
  exists depths, logs'.
  split; [done|]. split; [done|]. split; [done|]. split; [done|].
  split; [|split; [done|]].
  - rewrite Hout. f_equal. apply flat_map_ext. intros t.
    rewrite (missing_warnings_same_shape _ _ _ Hshape).
    unfold missing_warnings. apply flat_map_ext. intros c.
    destruct (column c); [|done].
    unfold working_rows. by rewrite mask_rows_has_column.
  - intros i t Hi. destruct (Htracks i t Hi) as (ax & Hax & Htw).
    exists ax. split; [done|].
    rewrite (List.filter_ext (drawn logs') (drawn df)) in Htw
      by (intros c; rewrite Hlogs; apply drawn_logs).
    exact Htw.
Qed.

(** ** Assignment at the labels of the non-missing values *)

Lemma dropna_values index vals :
  length index = length vals ->
  map snd (dropna_pairs index vals) = valid_values vals.
Proof.
  revert vals. induction index as [|i index IH]; intros [|c vals] Hlen;
    try done.
  simpl in *. destruct (isna c); simpl; rewrite IH by lia; done.
Qed.

Lemma positions_from_notin pos lbl index :
  lbl ∉ index -> positions_from pos lbl index = [].
Proof.
  revert pos. induction index as [|i index IH]; intros pos Hnotin; [done|].
  apply not_elem_of_cons in Hnotin as [Hne Hnotin]. simpl.
  destruct (Z.eqb_spec i lbl); [congruence | by apply IH].
Qed.

Lemma dropna_labels_in index vals :
  forall lbl, lbl ∈ map fst (dropna_pairs index vals) -> lbl ∈ index.
Proof.
  revert vals. induction index as [|i index IH]; intros [|c vals] lbl;
    simpl; try (intros H; by apply elem_of_nil in H).
  destruct (isna c); simpl.
  - intros H. apply elem_of_cons. right. by eapply IH.
  - intros H. apply elem_of_cons in H as [->|H]; apply elem_of_cons;
      [by left | right; by eapply IH].
Qed.

Lemma flat_map_positions_shift pos i index labels :
  i ∉ labels ->
  flat_map (fun lbl => positions_from pos lbl (i :: index)) labels
  = flat_map (fun lbl => positions_from (S pos) lbl index) labels.
Proof.
  induction labels as [|l labels IH]; intros Hnotin; [done|].
  apply not_elem_of_cons in Hnotin as [Hne Hnotin].
  cbn [flat_map]. rewrite IH by done. f_equal.
  cbn [positions_from]. by destruct (Z.eqb_spec i l).
Qed.

(** With unique row labels, the labels of the non-missing values select
    exactly the rows of those values, in row order. *)
Lemma indexer_valid_positions index : forall vals pos,
  NoDup index ->
  length index = length vals ->
  flat_map (fun lbl => positions_from pos lbl index)
    (map fst (dropna_pairs index vals))
  = valid_positions pos vals.
Proof.
  induction index as [|i index IH]; intros [|c vals] pos Hnd Hlen; try done.
  apply NoDup_cons in Hnd as [Hi Hnd]. simpl in Hlen.
  assert (Hnotin : i ∉ map fst (dropna_pairs index vals)).
  { intros Hin. apply Hi. by eapply dropna_labels_in. }
  cbn [dropna_pairs valid_positions]. destruct (isna c).
  - rewrite (flat_map_positions_shift pos i index _ Hnotin).
    apply IH; [done | lia].
  - cbn [map fst flat_map].
    rewrite (flat_map_positions_shift pos i index _ Hnotin).
    cbn [positions_from]. rewrite Z.eqb_refl.
    rewrite (positions_from_notin _ _ _ Hi). cbn [app]. f_equal.
    apply IH; [done | lia].
Qed.

Lemma elem_of_positions_from index : forall pos lbl p,
  p ∈ positions_from pos lbl index <->
  (pos <= p)%nat /\ index !! (p - pos)%nat = Some lbl.
Proof.
  induction index as [|i index IH]; intros pos lbl p; cbn [positions_from].
  - split; [intros H; by apply elem_of_nil in H | by intros [_ ?]].
  - assert (Hrest : p ∈ positions_from (S pos) lbl index <->
                    (pos < p)%nat /\ (i :: index) !! (p - pos)%nat = Some lbl).
    { rewrite IH. split.
      - intros [Hle Hp]. split; [lia|].
        by replace (p - pos)%nat with (S (p - S pos)) by lia.
      - intros [Hlt Hp]. split; [lia|].
        by replace (p - pos)%nat with (S (p - S pos)) in Hp by lia. }
    destruct (Z.eqb_spec i lbl) as [->|Hne].
    + rewrite elem_of_cons, Hrest. split.
      * intros [->|[Hlt Hp]]; [|split; [lia | done]].
        split; [lia|]. by rewrite Nat.sub_diag.
      * intros [Hle Hp]. destruct (decide (p = pos)) as [->|Hnp];
          [by left | right; split; [lia | done]].
    + rewrite Hrest. split.
      * intros [Hlt Hp]. split; [lia | done].
      * intros [Hle Hp]. split; [|done].
        destruct (decide (p = pos)) as [->|Hnp]; [|lia].
        rewrite Nat.sub_diag in Hp. simpl in Hp. congruence.
Qed.

(** The label of each non-missing value sits at the position of the value. *)
Lemma dropna_labels_positions index : forall vals pos,
  length index = length vals ->
  Forall2 (fun lbl p => (pos <= p)%nat /\ index !! (p - pos)%nat = Some lbl)
    (map fst (dropna_pairs index vals)) (valid_positions pos vals).
Proof.
  induction index as [|i index IH]; intros [|c vals] pos Hlen; try done.
  simpl in Hlen. cbn [dropna_pairs valid_positions].
  assert (Hshift : Forall2
            (fun lbl p =>
               (pos <= p)%nat /\ (i :: index) !! (p - pos)%nat = Some lbl)
            (map fst (dropna_pairs index vals))
            (valid_positions (S pos) vals)).
  { eapply Forall2_impl; [apply (IH vals (S pos)); lia|].
    intros lbl p [Hle Hp]. split; [lia|].
    by replace (p - pos)%nat with (S (p - S pos)) by lia. }
  destruct (isna c); [done|].
  cbn [map fst]. constructor; [|done].
  split; [lia|]. by rewrite Nat.sub_diag.
Qed.

Lemma flat_map_singletons {A B : Type} (f : A -> list B) (l : list A) :
  Forall (fun x => (1 <= length (f x))%nat) l ->
  length (flat_map f l) = length l ->
  Forall (fun x => length (f x) = 1%nat) l.
Proof.
  induction l as [|x l IH]; intros Hge Hlen; [constructor|].
  apply Forall_cons in Hge as [Hx Hl]. cbn [flat_map length] in Hlen.
  rewrite length_app in Hlen.
  assert (Hrest : (length l <= length (flat_map f l))%nat).
  { clear -Hl. induction l as [|y l IH]; [done|].
    apply Forall_cons in Hl as [Hy Hl]. cbn [flat_map length].
    rewrite length_app. specialize (IH Hl). lia. }
  constructor; [lia|]. apply IH; [done | lia].
Qed.

(** When the labels of the non-missing values select as many rows as there
    are such values, they select the rows of those values, in row order. *)
Lemma indexer_of_length index vals pos :
  length index = length vals ->
  length (flat_map (fun lbl => positions_from pos lbl index)
            (map fst (dropna_pairs index vals)))
  = length (map fst (dropna_pairs index vals)) ->
  flat_map (fun lbl => positions_from pos lbl index)
    (map fst (dropna_pairs index vals))
  = valid_positions pos vals.
Proof.
  intros Hlen Hcount.
  pose proof (dropna_labels_positions index vals pos Hlen) as Hat.
  assert (Hone : Forall
            (fun lbl => length (positions_from pos lbl index) = 1%nat)
            (map fst (dropna_pairs index vals))).
  { apply flat_map_singletons; [|done].
    clear Hcount. induction Hat as [|lbl p labels ps Hp _ IH]; constructor;
      [|done].
    apply elem_of_positions_from in Hp.
    destruct (positions_from pos lbl index);
      [by apply elem_of_nil in Hp | simpl; lia]. }
  clear Hcount. revert Hone.
  induction Hat as [|lbl p labels ps Hp _ IH]; intros Hone; [done|].
  apply Forall_cons in Hone as [Hlbl Hone]. cbn [flat_map].
  rewrite (IH Hone). apply elem_of_positions_from in Hp.
  destruct (positions_from pos lbl index) as [|q [|q' qs]]; try done.
  apply list_elem_of_singleton in Hp as ->. done.
Qed.

(** Assigning at the positions of the non-missing values keeps every value
    at its row. *)
Lemma scatter_merge vals : forall pre news,
  scatter (valid_positions (length pre) vals) news (pre ++ vals)
  = pre ++ merge_valid vals news.
Proof.
  induction vals as [|c vals IH]; intros pre news.
  - simpl. by destruct news.
  - cbn [valid_positions merge_valid]. destruct (isna c).
    + specialize (IH (pre ++ [c]) news).
      rewrite length_app, Nat.add_1_r, <- !app_assoc in IH. exact IH.
    + destruct news as [|v news].
      * cbn [scatter].
        specialize (IH (pre ++ [c]) []).
        rewrite <- !app_assoc in IH. cbn [app] in IH. rewrite <- IH.
        by destruct (valid_positions _ _).
      * cbn [scatter].
        rewrite insert_app_r_alt, Nat.sub_diag by lia. cbn [insert list_insert].
        specialize (IH (pre ++ [v]) news).
        rewrite length_app, Nat.add_1_r, <- !app_assoc in IH. exact IH.
Qed.

Lemma merge_valid_length vals news :
  length (merge_valid vals news) = length vals.
Proof.
  revert news. induction vals as [|c vals IH]; intros news; [done|].
  simpl. destruct (isna c); [simpl; by rewrite IH|].
  destruct news; simpl; by rewrite IH.
Qed.

(** ** The values that smoothing leaves in the working table *)

Section SmoothedValuesLemmas.

Variable savgol_filter : list float -> Z -> Z -> string -> list float.

Lemma smooth_column_values index vals vals' :
  NoDup index \/ length_preserving savgol_filter ->
  length index = length vals ->
  smooth_column savgol_filter index vals = Ok vals' ->
  vals' = smoothed_values savgol_filter vals.
Proof.
  intros Hcase Hlen. unfold smooth_column, smoothed_values, dropna, loc_indexer.
  cbn [s_index s_values].
  destruct (Nat.eqb _ _) eqn:Hcount.
  - apply Nat.eqb_eq in Hcount.
    assert (Hpos :
      flat_map (fun lbl => positions_from 0 lbl index)
        (map fst (dropna_pairs index vals))
      = valid_positions 0 vals).
    { destruct Hcase as [Hnd|Hsg].
      - by apply indexer_valid_positions.
      - apply indexer_of_length; [done|]. unfold length_preserving in Hsg.
        by rewrite Hcount, !length_map, Hsg, !length_map. }
    rewrite Hpos, (dropna_values _ _ Hlen).
    destruct (Nat.ltb 5 _); injection 1 as <-; [|done].
    apply (scatter_merge vals []).
  - rewrite (dropna_values _ _ Hlen).
    destruct (Nat.ltb 5 _); [discriminate | by injection 1 as <-].
Qed.

Lemma smoothed_values_length vals :
  length (smoothed_values savgol_filter vals) = length vals.
Proof.
  unfold smoothed_values. destruct (Nat.ltb 5 _); [|done].
  apply merge_valid_length.
Qed.

(** One visit of the smoothing pass, when it does not raise. *)
Lemma smooth_curve_values c df df' :
  NoDup (df_index df) \/ length_preserving savgol_filter ->
  aligned df ->
  smooth_curve_on savgol_filter c df = (Ok tt, df') ->
  df_index df' = df_index df /\
  aligned df' /\
  forall name vals,
    get_column df name = Some vals ->
    get_column df' name
    = Some (if refers_to name c then smoothed_values savgol_filter vals
            else vals).
Proof.
  intros Hnd Hal. unfold smooth_curve_on, refers_to.
  destruct (column c) as [col|]; [|discriminate].
  destruct (get_column df col) as [cvals|] eqn:Hcol.
  - destruct (smooth_column _ _ _) as [cvals'|e] eqn:Hsm; [|discriminate].
    injection 1 as <-.
    pose proof (aligned_column_length _ _ _ Hal Hcol) as Hlen.
    apply smooth_column_values in Hsm as ->; [|done|done].
    split; [done|]. split.
    { apply aligned_set_column; [done|]. by rewrite smoothed_values_length. }
    intros name vals Hname. destruct (String.eqb_spec col name) as [->|Hne].
    + rewrite get_set_column_eq. congruence.
    + by rewrite get_set_column_ne.
  - injection 1 as <-. split; [done|]. split; [done|].
    intros name vals Hname. destruct (String.eqb_spec col name) as [->|Hne];
      [congruence | done].
Qed.

Lemma smooth_curves_values cs : forall df df',
  NoDup (df_index df) \/ length_preserving savgol_filter ->
  aligned df ->
  frame_loop (smooth_curve_on savgol_filter) cs df = (Ok tt, df') ->
  df_index df' = df_index df /\
  aligned df' /\
  forall name vals,
    get_column df name = Some vals ->
    get_column df' name
    = Some (Nat.iter (length (List.filter (refers_to name) cs))
              (smoothed_values savgol_filter) vals).
Proof.
  induction cs as [|c cs IH]; intros df df' Hnd Hal Hrun.
  - injection Hrun as <-. by repeat split.
  - cbn [frame_loop] in Hrun.
    destruct (smooth_curve_on savgol_filter c df) as [[[]|e] df1] eqn:Hstep;
      [|discriminate].
    apply smooth_curve_values in Hstep as (Hidx1 & Hal1 & Hvals1); [|done..].
    apply IH in Hrun as (Hidx & Hal' & Hvals); [|by rewrite Hidx1|done].
    split; [congruence|]. split; [done|].
    intros name vals Hname.
    rewrite (Hvals name _ (Hvals1 name vals Hname)).
    cbn [List.filter]. destruct (refers_to name c); [|done].
    cbn [length]. by rewrite Nat.iter_succ_r.
Qed.

Lemma smooth_track_values t df df' :
  NoDup (df_index df) \/ length_preserving savgol_filter ->
  aligned df ->
  smooth_track_on savgol_filter t df = (Ok tt, df') ->
  df_index df' = df_index df /\
  aligned df' /\
  forall name vals,
    get_column df name = Some vals ->
    get_column df' name
    = Some (Nat.iter (smoothing_passes [t] name)
              (smoothed_values savgol_filter) vals).
Proof.
  intros Hnd Hal. unfold smooth_track_on, smoothing_passes, smoothed_curves.
  cbn [flat_map]. rewrite app_nil_r.
  destruct (String.eqb _ _).
  - destruct (curves t) as [cs|]; [|discriminate].
    by apply smooth_curves_values.
  - injection 1 as <-. by repeat split.
Qed.

(** The whole smoothing pass, when it does not raise: every column has gone
    through one visit for each smoothed curve that reads it. *)
Lemma smoothing_values tracks : forall df df',
  NoDup (df_index df) \/ length_preserving savgol_filter ->
  aligned df ->
  frame_loop (smooth_track_on savgol_filter) tracks df = (Ok tt, df') ->
  df_index df' = df_index df /\
  aligned df' /\
  forall name vals,
    get_column df name = Some vals ->
    get_column df' name
    = Some (Nat.iter (smoothing_passes tracks name)
              (smoothed_values savgol_filter) vals).
Proof.
  induction tracks as [|t tracks IH]; intros df df' Hnd Hal Hrun.
  - injection Hrun as <-. by repeat split.
  - cbn [frame_loop] in Hrun.
    destruct (smooth_track_on savgol_filter t df) as [[[]|e] df1] eqn:Hstep;
      [|discriminate].
    apply smooth_track_values in Hstep as (Hidx1 & Hal1 & Hvals1); [|done..].
    apply IH in Hrun as (Hidx & Hal' & Hvals); [|by rewrite Hidx1|done].
    split; [congruence|]. split; [done|].
    intros name vals Hname.
    rewrite (Hvals name _ (Hvals1 name vals Hname)).
    unfold smoothing_passes, smoothed_curves. cbn [flat_map].
    rewrite app_nil_r, List.filter_app, length_app, Nat.add_comm.
    by rewrite Nat.iter_add.
Qed.

End SmoothedValuesLemmas.

(** ** A plotting pass that completes *)



(** ** The keys of a call that completes *)

Lemma smoothing_keyed sg tracks : forall df df',
  frame_loop (smooth_track_on sg) tracks df = (Ok tt, df') ->
  Forall
    (fun t => dict_get (smoothing t) "no" = "yes" -> curves t <> None)
    tracks.
Proof.
  induction tracks as [|t tracks IH]; intros df df' Hrun; [done|].
  cbn [frame_loop] in Hrun.
  destruct (smooth_track_on sg t df) as [[[]|e] df1] eqn:Hstep;
    [|discriminate].
  constructor; [|by eapply IH].
  intros Hyes. unfold smooth_track_on in Hstep. rewrite Hyes in Hstep.
  cbn in Hstep. by destruct (curves t).
Qed.

Lemma plot_curves_keyed df depth_column g n cs : forall ax ax' out,
  fold_on (plot_curve_on df depth_column g n) cs ax = (Ok ax', out) ->
  Forall (fun c => column c <> None) cs.
Proof.
  induction cs as [|c cs IH]; intros ax ax' out Hrun; [done|].
  cbn [fold_on] in Hrun.
  destruct (plot_curve_on df depth_column g n ax c) as [[ax0|e] out0]
    eqn:Hstep; [|discriminate].
  destruct (fold_on _ cs ax0) as [[ax1|e] out1] eqn:Hrest; [|discriminate].
  constructor; [|by eapply IH].
  unfold plot_curve_on in Hstep. by destruct (column c).
Qed.

Lemma plot_tracks_keyed df depth_column n tracks : forall k axes axes' out,
  fold_on (plot_track_on df depth_column n)
    (imap (fun i x => ((k + i)%nat, x)) tracks) axes = (Ok axes', out) ->
  Forall
    (fun t => Forall (fun c => column c <> None) (dict_get (curves t) []))
    tracks.
Proof.
  induction tracks as [|t tracks IH]; intros k axes axes' out Hrun; [done|].
  cbn [imap fold_on] in Hrun.
  destruct (plot_track_on _ _ _ axes _) as [[axes1|e] out1] eqn:Hstep;
    [|discriminate].
  destruct (fold_on _ _ axes1) as [[axes2|e] out2] eqn:Hrest;
    [|discriminate].
  constructor.
  - unfold plot_track_on in Hstep.
    destruct (axes !! (k + 0)%nat) as [ax|]; [|discriminate].
    destruct (fold_on _ _ (titled _ _ _)) as [[ax'|e] out'] eqn:Hcs;
      [|discriminate].
    by eapply plot_curves_keyed.
  - rewrite (imap_ext _ (fun i x => ((S k + i)%nat, x))) in Hrest
      by (intros; simpl; f_equal; lia).
    by eapply IH.
Qed.

(** ** The stages of a call *)

Lemma ruled_lookup top bottom major minor k i ax0 :
  map (depth_ruler top bottom major minor) (replicate k new_axes) !! 0%nat
  = Some ax0 ->
  (i < k)%nat ->
  <[0%nat := set_ylabel ax0 "Depth"]>
    (map (depth_ruler top bottom major minor) (replicate k new_axes)) !! i
  = Some (ruled top bottom major minor i).
Proof.
  intros H0 Hi. destruct i as [|i].
  - destruct k as [|k]; [lia|]. cbn [replicate map] in *.
    by injection H0 as <-.
  - rewrite list_lookup_insert_ne by lia.
    by rewrite list_lookup_fmap, lookup_replicate_2.
Qed.

(** A call on a table with the depth column and with at least one track:
    the outcome of the smoothing pass decides between an error and the
    figure. *)
Lemma combo_plot_tracks sg data tracks depth_column top bottom height adjust
    major minor n formation w df depths :
  frames w !! data = Some df ->
  get_column df depth_column = Some depths ->
  tracks <> [] ->
  combo_plot sg data tracks depth_column top bottom height adjust major minor
    n formation w
  = let selected := working_rows df depths top bottom in
    let axes :=
      imap (fun i _ => ruled top bottom major minor i) tracks in
    match frame_loop (smooth_track_on sg) tracks selected with
    | (Raise e, logs') =>
        (Raise e,
         {| frames := frames w ++ [selected; logs']; stdout := stdout w |})
    | (Ok _, logs') =>
        let p :=
          render_on tracks depth_column top bottom height adjust major minor
            n formation axes logs' in
        (fst p,
         {| frames := frames w ++ [selected; logs'];
            stdout := stdout w ++ snd p |})
    end.
Proof.
  intros Hdata Hdepth Hne. rewrite combo_plot_run. unfold combo_plot_on.
  rewrite Hdata, Hdepth. cbn zeta.
  destruct tracks as [|t0 tracks']; [done|].
  set (tracks := t0 :: tracks') in *.
  change (subplots (length tracks))
    with (Ok (A := list Axes) (replicate (length tracks) new_axes)).
  cbn iota.
  assert (Haxes :
    <[0%nat := set_ylabel (depth_ruler top bottom major minor new_axes)
                 "Depth"]>
      (map (depth_ruler top bottom major minor)
         (replicate (length tracks) new_axes))
    = imap (fun i _ => ruled top bottom major minor i) tracks).
  { apply list_eq. intros i. rewrite list_lookup_imap.
    destruct (tracks !! i) as [t|] eqn:Hi.
    - erewrite ruled_lookup; [done | done | by eapply lookup_lt_Some].
    - rewrite lookup_ge_None_2; [done|].
      rewrite length_insert, length_map, length_replicate.
      by apply lookup_ge_None_1. }
  replace (map (depth_ruler top bottom major minor)
             (replicate (length tracks) new_axes) !! 0%nat)
    with (Some (depth_ruler top bottom major minor new_axes)) by done.
  rewrite Haxes.
  destruct (frame_loop (smooth_track_on sg) tracks _) as [[[]|e] logs'];
    by rewrite update_second.
Qed.

(** ** The errors of the plotting pass *)

Lemma plot_curves_errors df depth_column ys g n cs : forall ax e out,
  get_column df depth_column = Some ys ->
  fold_on (plot_curve_on df depth_column g n) cs ax = (Raise e, out) ->
  e = KeyError "column" /\ Exists (fun c => column c = None) cs.
Proof.
  induction cs as [|c cs IH]; intros ax e out Hys Hrun; [discriminate|].
  cbn [fold_on] in Hrun.
  destruct (plot_curve_on df depth_column g n ax c) as [[ax0|e0] out0]
    eqn:Hstep.
  - destruct (fold_on _ cs ax0) as [[ax1|e1] out1] eqn:Hrest;
      [discriminate|].
    injection Hrun as <- _.
    destruct (IH _ _ _ Hys Hrest) as [-> Hcs]. split; [done|].
    by apply Exists_cons_tl.
  - injection Hrun as <- _. unfold plot_curve_on in Hstep. rewrite Hys in Hstep.
    destruct (column c) as [col|] eqn:Hcol.
    + by destruct (get_column df col).
    + injection Hstep as <- _. split; [done|]. by apply Exists_cons_hd.
Qed.

Lemma plot_tracks_errors df depth_column ys n tracks : forall k axes e out,
  get_column df depth_column = Some ys ->
  (k + length tracks <= length axes)%nat ->
  fold_on (plot_track_on df depth_column n)
    (imap (fun i x => ((k + i)%nat, x)) tracks) axes = (Raise e, out) ->
  e = KeyError "column" /\ Exists lacks_column tracks.
Proof.
  induction tracks as [|t tracks IH]; intros k axes e out Hys Hlen Hrun;
    [discriminate|].
  cbn [length] in Hlen. cbn [imap fold_on] in Hrun.
  rewrite Nat.add_0_r in Hrun.
  destruct (plot_track_on df depth_column n axes (k, t)) as [[axes1|e1] out1]
    eqn:Hstep.
  - destruct (fold_on _ _ axes1) as [[axes2|e2] out2] eqn:Hrest;
      [discriminate|].
    injection Hrun as <- _.
    rewrite (imap_ext _ (fun i x => ((S k + i)%nat, x))) in Hrest
      by (intros; simpl; f_equal; lia).
    apply plot_track_Ok in Hstep as (_ & ax & ax' & _ & -> & _).
    apply IH in Hrest as [-> Hts]; [|done|rewrite length_insert; lia].
    split; [done|]. by apply Exists_cons_tl.
  - injection Hrun as <- _. unfold plot_track_on in Hstep.
    destruct (lookup_lt_is_Some_2 axes k) as [ax Hax]; [lia|].
    rewrite Hax in Hstep.
    destruct (fold_on _ _ (titled ax k t)) as [[ax'|e2] out2] eqn:Hcs;
      [discriminate|].
    injection Hstep as <- _.
    apply (plot_curves_errors _ _ ys) in Hcs as [-> Hcs]; [|done].
    split; [done|]. by apply Exists_cons_hd.
Qed.

(** ** Curves that are skipped *)


Section SkippedCurves.

Variable savgol_filter : list float -> Z -> Z -> string -> list float.




End SkippedCurves.



Section Skipping.

Variable savgol_filter : list float -> Z -> Z -> string -> list float.


End Skipping.

(** ** The example inputs *)

Lemma savgol_ref_length : length_preserving SavgolRef.savgol_filter.
Proof. intros xs w p m. apply length_imap. Qed.

Lemma wf_deep_well : wf_frame Examples.deep_well.
Proof.
  split; [by apply (bool_decide_unpack _) | by repeat constructor].
Qed.

Lemma wf_well : wf_frame Examples.well.
Proof.
  split; [by apply (bool_decide_unpack _) | by repeat constructor].
Qed.

Lemma wf_gappy_well : wf_frame Examples.gappy_well.
Proof.
  split; [by apply (bool_decide_unpack _) | by repeat constructor].
Qed.

(** * The labeler *)

(** C1, as the specification states it, fails on the code.  On the
    specification's own example the output has no column called
    [formation_class] (the code calls it [hydrocarbon_formation_class]); on a
    table that already carries the class column the output has no additional
    column; and on a table without a column called [DEPT] the code raises. *)
Lemma labeler_not_as_specified :
  ~ labeler_meets "formation_class" (Examples.world_of Examples.well) 0
      Examples.zones /\
  ~ labeler_meets hydrocarbon_formation_class
      (Examples.world_of Examples.labelled_well) 0 Examples.zones /\
  fst (add_productive_zones 0 Examples.zones
         (Examples.world_of Examples.well_depth))
  = Raise (AttributeError "DEPT").
Proof.
  split; [|split].
  - intros (df & r & w' & df' & Hdf & Hrun & Hr & _ & Hnames & _).
    vm_compute in Hdf. injection Hdf as <-.
    vm_compute in Hrun. injection Hrun as <- <-.
    vm_compute in Hr. injection Hr as <-.
    vm_compute in Hnames. discriminate.
  - intros (df & r & w' & df' & Hdf & Hrun & Hr & _ & Hnames & _).
    vm_compute in Hdf. injection Hdf as <-.
    vm_compute in Hrun. injection Hrun as <- <-.
    vm_compute in Hr. injection Hr as <-.
    vm_compute in Hnames. discriminate.
  - by vm_compute.
Qed.

(** C1, amended: on every well-formed table with a [DEPT] column the labeler
    returns a new table with the rows and columns of the input and the
    integer column [hydrocarbon_formation_class] (appended when the input
    has none, overwritten otherwise), which holds 1 for every row whose
    depth lies in some zone and 0 for every other row. *)
Theorem add_productive_zones_labels w data zones df depths :
  frames w !! data = Some df ->
  wf_frame df ->
  get_column df DEPT = Some depths ->
  exists df',
    add_productive_zones data zones w
    = (Ok (length (frames w)),
       {| frames := frames w ++ [df']; stdout := stdout w |}) /\
    df_index df' = df_index df /\
    column_names df'
    = (if has_column df hydrocarbon_formation_class then column_names df
       else column_names df ++ [hydrocarbon_formation_class]) /\
    (forall c,
       c <> hydrocarbon_formation_class ->
       get_column df' c = get_column df c) /\
    get_column df' hydrocarbon_formation_class
    = Some (map (zone_class zones) depths).
Proof.
  intros Hr Hwf Hd.
  exists (set_column df hydrocarbon_formation_class
            (map (zone_class zones) depths)).
  split; [|split; [|split; [|split]]].
  - apply add_productive_zones_spec; [done | done |].
    by eapply wf_column_length.
  - done.
  - apply column_names_set_column.
  - intros c Hc. by apply get_set_column_ne.
  - apply get_set_column_eq.
Qed.

Lemma add_productive_zones_labels_witness :
  exists df',
    add_productive_zones 0 Examples.zones (Examples.world_of Examples.well)
    = (Ok 1%nat,
       {| frames := [Examples.well; df']; stdout := [] |}) /\
    df_index df' = [0; 1; 2; 3; 4] /\
    column_names df' = ["DEPT"; "GR"; "hydrocarbon_formation_class"] /\
    (forall c,
       c <> hydrocarbon_formation_class ->
       get_column df' c = get_column Examples.well c) /\
    get_column df' hydrocarbon_formation_class
    = Some [CInt 0; CInt 1; CInt 1; CInt 1; CInt 0].
Proof.
  apply (add_productive_zones_labels (Examples.world_of Examples.well) 0
           Examples.zones Examples.well
           [Examples.num 3690; Examples.num 3700; Examples.num 3750;
            Examples.num 3999; Examples.num 4010]).
  - reflexivity.
  - exact wf_well.
  - reflexivity.
Defined.

(** C8: labelling the output of the labeler again, with the same zones,
    returns a table equal to that output; in particular the class column is
    the same. *)
Theorem add_productive_zones_idempotent w data zones r1 w1 :
  add_productive_zones data zones w = (Ok r1, w1) ->
  exists df1 r2 w2 df2,
    frames w1 !! r1 = Some df1 /\
    add_productive_zones r1 zones w1 = (Ok r2, w2) /\
    frames w2 !! r2 = Some df2 /\
    get_column df2 hydrocarbon_formation_class
    = get_column df1 hydrocarbon_formation_class /\
    df2 = df1.
Proof.
  intros Hrun.
  destruct (frames w !! data) as [df|] eqn:Hdf.
  2: { unfold add_productive_zones, df_copy, bind, deref in Hrun.
       rewrite Hdf in Hrun. discriminate. }
  rewrite (add_productive_zones_run _ _ _ _ Hdf) in Hrun.
  destruct (label_zones zones
              (set_column df hydrocarbon_formation_class (zeros df)))
    as [out df1] eqn:Hout.
  cbn [fst snd] in Hrun. destruct out as [[]|e]; [|discriminate].
  injection Hrun as <- <-.
  assert (Hr1 : (frames w ++ [df1]) !! length (frames w) = Some df1)
    by apply lookup_snoc.
  destruct (label_zones_shape df zones (zeros df)) as [col Hshape].
  rewrite Hout in Hshape. cbn [snd] in Hshape.
  assert (Hagain :
    set_column df1 hydrocarbon_formation_class (zeros df1)
    = set_column df hydrocarbon_formation_class (zeros df)).
  { rewrite Hshape, set_column_twice. done. }
  exists df1, (length (frames w ++ [df1])),
    {| frames := (frames w ++ [df1]) ++ [df1]; stdout := stdout w |}, df1.
  split; [exact Hr1|]. split; [|split; [|done]].
  - rewrite (add_productive_zones_run _ _ df1) by exact Hr1.
    cbn [frames stdout]. rewrite Hagain, Hout. done.
  - cbn [frames]. apply lookup_snoc.
Qed.

Lemma add_productive_zones_idempotent_witness :
  exists df1 r2 w2 df2,
    frames
      {| frames := [Examples.well; Examples.labelled_well]; stdout := [] |}
      !! 1%nat = Some df1 /\
    add_productive_zones 1 Examples.zones
      {| frames := [Examples.well; Examples.labelled_well]; stdout := [] |}
    = (Ok r2, w2) /\
    frames w2 !! r2 = Some df2 /\
    get_column df2 hydrocarbon_formation_class
    = get_column df1 hydrocarbon_formation_class /\
    df2 = df1.
Proof.
  apply (add_productive_zones_idempotent (Examples.world_of Examples.well) 0
           Examples.zones).
  vm_compute. reflexivity.
Defined.

(** C10: a row whose depth is missing gets class 0, whatever the zones. *)
Theorem add_productive_zones_missing_depth w data zones df depths i d :
  frames w !! data = Some df ->
  wf_frame df ->
  get_column df DEPT = Some depths ->
  depths !! i = Some d ->
  isna d = true ->
  exists r w' df' classes,
    add_productive_zones data zones w = (Ok r, w') /\
    frames w' !! r = Some df' /\
    get_column df' hydrocarbon_formation_class = Some classes /\
    classes !! i = Some (CInt 0).
Proof.
  intros Hr Hwf Hd Hi Hna.
  eexists _, _, _, _. split; [|split; [|split]].
  - apply add_productive_zones_spec; [done | done |].
    by eapply wf_column_length.
  - cbn [frames]. apply lookup_snoc.
  - apply get_set_column_eq.
  - rewrite list_lookup_fmap, Hi. simpl. by rewrite zone_class_na.
Qed.

Lemma add_productive_zones_missing_depth_witness :
  exists r w' df' classes,
    add_productive_zones 0
      [(Float.of_Z 0, Float.of_Z 9000); (Float.nan, Float.nan)]
      (Examples.world_of Examples.gappy_well) = (Ok r, w') /\
    frames w' !! r = Some df' /\
    get_column df' hydrocarbon_formation_class = Some classes /\
    classes !! 1%nat = Some (CInt 0).
Proof.
  apply (add_productive_zones_missing_depth
           (Examples.world_of Examples.gappy_well) 0
           [(Float.of_Z 0, Float.of_Z 9000); (Float.nan, Float.nan)]
           Examples.gappy_well
           [Examples.num 3700; CFloat Float.nan; Examples.num 3750]
           1 (CFloat Float.nan)).
  - reflexivity.
  - exact wf_gappy_well.
  - reflexivity.
  - reflexivity.
  - reflexivity.
Defined.

(** * The renderer *)

Section ScaleBounds.

Variable savgol_filter : list float -> Z -> Z -> string -> list float.

(** C9: the scale bounds of a curve are applied only when the curve
    configuration has both [min_val] and [max_val]; with one of them
    missing no limit is set on the horizontal axis of the curve. *)
Theorem scale_bounds_need_both_keys data tracks depth_column top bottom
    height adjust major minor n formation w df fig w' :
  frames w !! data = Some df ->
  combo_plot savgol_filter data tracks depth_column top bottom height adjust
    major minor n formation w = (Ok fig, w') ->
  forall i t,
    tracks !! i = Some t ->
    exists ax,
      fig_axes fig !! i = Some ax /\
      Forall2
        (fun c tw =>
           tw_xlim tw
           = match min_val c, max_val c with
             | Some lo, Some hi => Some (lo, hi)
             | _, _ => None
             end)
        (List.filter (drawn df) (dict_get (curves t) [])) (ax_twins ax).
Proof.
  intros Hdata Hrun i t Hi.
  destruct (combo_plot_shows _ _ _ _ _ _ _ _ _ _ _ _ _ _ _ _ Hdata Hrun)
    as (depths & logs' & _ & _ & _ & _ & _ & _ & Htracks).
  destruct (Htracks i t Hi) as (ax & Hax & Htw).
  exists ax. split; [done|].
  eapply Forall2_impl; [exact Htw|].
  intros c tw (col & xs & ys & _ & _ & _ & ->). apply draw_curve_xlim.
Qed.

End ScaleBounds.

Lemma scale_bounds_need_both_keys_witness :
  exists ax,
    fig_axes
      (Examples.figure_of Examples.logs_run)
      !! 0%nat = Some ax /\
    Forall2
      (fun c tw =>
         tw_xlim tw
         = match min_val c, max_val c with
           | Some lo, Some hi => Some (lo, hi)
           | _, _ => None
           end)
      [Examples.gamma_ray; Examples.gamma_ray_log] (ax_twins ax).
Proof.
  apply (scale_bounds_need_both_keys SavgolRef.savgol_filter 0
           [Examples.logs_track] "DEPT" (Float.of_Z 3700) (Float.of_Z 4000)
           (Float.of_Z 10) (Float.of_Z 1) (Float.of_Z 100) (Float.of_Z 10) 5
           None (Examples.world_of Examples.well) Examples.well
           (Examples.figure_of Examples.logs_run)
           (snd Examples.logs_run))
    with (i := 0%nat) (t := Examples.logs_track).
  - reflexivity.
  - vm_compute. reflexivity.
  - reflexivity.
Defined.

(** C2, as the specification states it, fails on the code: a curve whose
    grid is switched off is rendered without vertical gridlines and keeps
    the default locator of its axis. *)
Lemma gridlines_not_fixed :
  fst Examples.logs_run
  = Ok (Examples.figure_of Examples.logs_run) /\
  ~ Forall (fun ax => Forall (fixed_gridlines 5) (ax_twins ax))
      (fig_axes
         (Examples.figure_of Examples.logs_run)).
Proof.
  split; [by vm_compute|].
  intros H. vm_compute in H.
  apply Forall_cons in H as [H _]. apply Forall_cons in H as [[Hgrid _] _].
  discriminate.
Qed.

Section Gridlines.

Variable savgol_filter : list float -> Z -> Z -> string -> list float.

(** C2, amended: a rendered curve whose grid is on (its own [show_grid] if
    it has one, else that of its track, else true) gets a major locator
    asked for [num_vertical_gridlines] positions, a linear one on a linear
    scale and a logarithmic one on a log scale, and its vertical grid is
    drawn; a rendered curve whose grid is off keeps the default locator and
    has no vertical grid. *)
Theorem gridlines_follow_show_grid data tracks depth_column top bottom
    height adjust major minor n formation w df fig w' :
  frames w !! data = Some df ->
  combo_plot savgol_filter data tracks depth_column top bottom height adjust
    major minor n formation w = (Ok fig, w') ->
  forall i t,
    tracks !! i = Some t ->
    exists ax,
      fig_axes fig !! i = Some ax /\
      Forall2
        (fun c tw =>
           tw_xscale tw
           = (if dict_get (log_scale c) false then LogScale else LinearScale)
           /\
           if dict_get (curve_show_grid c) (dict_get (show_grid t) true)
           then fixed_gridlines n tw
           else tw_grid tw = false /\ tw_major_locator tw = AutoLocator)
        (List.filter (drawn df) (dict_get (curves t) [])) (ax_twins ax).
Proof.
  intros Hdata Hrun i t Hi.
  destruct (combo_plot_shows _ _ _ _ _ _ _ _ _ _ _ _ _ _ _ _ Hdata Hrun)
    as (depths & logs' & _ & _ & _ & _ & _ & _ & Htracks).
  destruct (Htracks i t Hi) as (ax & Hax & Htw).
  exists ax. split; [done|].
  eapply Forall2_impl; [exact Htw|].
  intros c tw (col & xs & ys & _ & _ & _ & ->).
  split; [apply draw_curve_xscale|]. unfold fixed_gridlines.
  rewrite draw_curve_grid, draw_curve_locator, draw_curve_xscale.
  destruct (dict_get (curve_show_grid c) _); [|done].
  by destruct (dict_get (log_scale c) false).
Qed.

End Gridlines.

Lemma gridlines_follow_show_grid_witness :
  exists ax,
    fig_axes
      (Examples.figure_of Examples.logs_run)
      !! 0%nat = Some ax /\
    Forall2
      (fun c tw =>
         tw_xscale tw
         = (if dict_get (log_scale c) false then LogScale else LinearScale)
         /\
         if dict_get (curve_show_grid c) true
         then fixed_gridlines 5 tw
         else tw_grid tw = false /\ tw_major_locator tw = AutoLocator)
      [Examples.gamma_ray; Examples.gamma_ray_log] (ax_twins ax).
Proof.
  apply (gridlines_follow_show_grid SavgolRef.savgol_filter 0
           [Examples.logs_track] "DEPT" (Float.of_Z 3700) (Float.of_Z 4000)
           (Float.of_Z 10) (Float.of_Z 1) (Float.of_Z 100) (Float.of_Z 10) 5
           None (Examples.world_of Examples.well) Examples.well
           (Examples.figure_of Examples.logs_run)
           (snd Examples.logs_run))
    with (i := 0%nat) (t := Examples.logs_track).
  - reflexivity.
  - vm_compute. reflexivity.
  - reflexivity.
Defined.

Section NoMutation.

Variable savgol_filter : list float -> Z -> Z -> string -> list float.

(** C4: neither function changes a table that exists when it is called,
    the caller's table included: each call only adds new tables to the
    store (the renderer its filtered working copy, which is the table that
    smoothing writes to; the labeler the table it returns). *)
Theorem inputs_never_mutated data tracks depth_column top bottom height
    adjust major minor n formation zones w :
  let rendered :=
    snd (combo_plot savgol_filter data tracks depth_column top bottom height
           adjust major minor n formation w) in
  let labelled := snd (add_productive_zones data zones w) in
  (frames w `prefix_of` frames rendered /\
   frames rendered !! data = frames w !! data) /\
  (frames w `prefix_of` frames labelled /\
   frames labelled !! data = frames w !! data).
Proof.
  assert (Hlookup : forall l l' : list DataFrame,
            l `prefix_of` l' -> is_Some (l !! data) -> l' !! data = l !! data).
  { intros l l' Hpre [df Hdf]. rewrite Hdf.
    by eapply prefix_lookup_Some. }
  cbn zeta. split.
  - rewrite combo_plot_run. unfold combo_plot_on.
    destruct (frames w !! data) as [df|] eqn:Hdata; [|by split].
    assert (Hpre : forall l, frames w `prefix_of` frames w ++ l)
      by (intros; by apply prefix_app_r).
    assert (Hsame : forall l, (frames w ++ l) !! data = Some df).
    { intros l. rewrite (Hlookup _ _ (Hpre l)); by rewrite Hdata. }
    destruct (get_column df depth_column) as [depths|]; [|by split].
    destruct (subplots _) as [axes|e]; [|split; [apply Hpre | apply Hsame]].
    destruct (map _ axes !! 0%nat) as [ax0|];
      [|split; [apply Hpre | apply Hsame]].
    destruct (frame_loop _ _ _) as [[[]|e] logs'];
      rewrite update_second; split; first [apply Hpre | apply Hsame].
  - destruct (frames w !! data) as [df|] eqn:Hdata.
    + rewrite (add_productive_zones_run _ _ _ _ Hdata). cbn [snd frames].
      split; [by apply prefix_app_r|].
      rewrite (Hlookup (frames w)); [done | by apply prefix_app_r |].
      by rewrite Hdata.
    + unfold add_productive_zones, df_copy, bind, deref. rewrite Hdata.
      by split.
Qed.

End NoMutation.

(** C3, as the specification states it, fails on the code: with an empty
    tracks list the call raises when it asks for a grid of zero subplots, and
    the labelling of the leftmost track, [axes[0]], has no track to index. *)
Lemma empty_tracks_not_rendered :
  ~ (exists fig w',
       Examples.render [] (Examples.world_of Examples.well) = (Ok fig, w')) /\
  fst (Examples.render [] (Examples.world_of Examples.well))
  = Raise (ValueError no_columns) /\
  fst (list_item (@nil Axes) 0 (Examples.world_of Examples.well))
  = Raise IndexError.
Proof.
  split; [|split; by vm_compute].
  intros (fig & w' & Hrun). vm_compute in Hrun. discriminate.
Qed.

Section EmptyTracks.

Variable savgol_filter : list float -> Z -> Z -> string -> list float.

(** C3, amended: a call with an empty tracks list raises, whatever the
    table and the depth range, and returns no figure.  A figure without
    track regions is never returned: whenever a call returns a figure, its
    tracks list was not empty and the figure has exactly one track region
    for each track. *)
Theorem empty_tracks_raise data tracks depth_column top bottom height adjust
    major minor n formation w :
  (exists e w',
     combo_plot savgol_filter data [] depth_column top bottom height adjust
       major minor n formation w = (Raise e, w')) /\
  forall fig w',
    combo_plot savgol_filter data tracks depth_column top bottom height
      adjust major minor n formation w = (Ok fig, w') ->
    tracks <> [] /\
    fig_axes fig <> [] /\
    length (fig_axes fig) = length tracks.
Proof.
  split.
  - rewrite combo_plot_run. unfold combo_plot_on.
    destruct (frames w !! data) as [df|]; [|by eexists _, _].
    destruct (get_column df depth_column) as [depths|]; by eexists _, _.
  - intros fig w' Hrun.
    destruct (combo_plot_Ok _ _ _ _ _ _ _ _ _ _ _ _ _ _ _ Hrun)
      as (df & depths & logs' & _ & _ & Hne & _ & _ & _ & Hlen & _).
    split; [done|]. split; [|done].
    intros Hnil. rewrite Hnil in Hlen. by destruct tracks.
Qed.

End EmptyTracks.

Lemma empty_tracks_raise_witness :
  (exists e w',
     Examples.render [] (Examples.world_of Examples.well) = (Raise e, w')) /\
  [Examples.logs_track; Examples.lost_track] <> [] /\
  fig_axes (Examples.figure_of Examples.lost_run) <> [] /\
  length (fig_axes (Examples.figure_of Examples.lost_run)) = 2%nat.
Proof.
  destruct (empty_tracks_raise SavgolRef.savgol_filter 0
              [Examples.logs_track; Examples.lost_track] "DEPT"
              (Float.of_Z 3700) (Float.of_Z 4000) (Float.of_Z 10)
              (Float.of_Z 1) (Float.of_Z 100) (Float.of_Z 10) 5 None
              (Examples.world_of Examples.well)) as [Hempty Hsome].
  split; [exact Hempty|].
  apply (Hsome (Examples.figure_of Examples.lost_run)
           (snd Examples.lost_run)).
  vm_compute. reflexivity.
Defined.

Section MissingColumns.

Variable savgol_filter : list float -> Z -> Z -> string -> list float.


End MissingColumns.


(** In the example both calls return: the tracks with all their curves, and
    the tracks without the curves of the missing density log. *)
Example lost_run_completes :
  fst Examples.lost_run = Ok (Examples.figure_of Examples.lost_run) /\
  map (fun t => length (dict_get (curves t) []))
    (map (without_missing Examples.well)
       [Examples.logs_track; Examples.lost_track])
  = [2%nat; 0%nat].
Proof. by vm_compute. Qed.

Section WorkingRows.

Variable savgol_filter : list float -> Z -> Z -> string -> list float.


End WorkingRows.


Section Smoothing.

Variable savgol_filter : list float -> Z -> Z -> string -> list float.

(** C5: after a call that completes, every column of the working copy has
    gone through one smoothing visit for each curve that reads it in a track
    whose [smoothing] is "yes", and through none otherwise.  A visit passes
    the non-missing values of the column, as one run, to the Savitzky-Golay
    filter with window length 5, polynomial order 3 and mode "nearest" and
    puts the results back at the rows of those values, the missing values
    staying in place; a column with at most five non-missing values is left
    as it is.  The table is well formed; either its row labels are unique
    or the filter returns as many values as it is given, which is what the
    assignment at [valid_data.index] relies on. *)
Theorem smoothing_filters_valid_values data tracks depth_column top bottom
    height adjust major minor n formation w df fig w' :
  frames w !! data = Some df ->
  wf_frame df ->
  NoDup (df_index df) \/ length_preserving savgol_filter ->
  combo_plot savgol_filter data tracks depth_column top bottom height adjust
    major minor n formation w = (Ok fig, w') ->
  (exists depths logs,
     get_column df depth_column = Some depths /\
     frames w' !! S (length (frames w)) = Some logs /\
     forall name vals,
       get_column df name = Some vals ->
       get_column logs name
       = Some (Nat.iter (smoothing_passes tracks name)
                 (smoothed_values savgol_filter)
                 (select (range_mask depths (top, bottom)) vals))) /\
  (forall vals,
     (5 < length (valid_values vals))%nat ->
     smoothed_values savgol_filter vals
     = merge_valid vals
         (map CFloat
            (savgol_filter (map cell_float (valid_values vals)) 5 3
               "nearest"))) /\
  (forall vals,
     (length (valid_values vals) <= 5)%nat ->
     smoothed_values savgol_filter vals = vals).
Proof.
  intros Hdata [_ Hal] Hnd Hrun. split; [|split].
  - destruct (combo_plot_Ok _ _ _ _ _ _ _ _ _ _ _ _ _ _ _ Hrun)
      as (df' & depths & logs & Hdata' & Hdepth & _ & Hsmooth & Hframes & _).
    rewrite Hdata in Hdata'. injection Hdata' as <-.
    exists depths, logs. split; [done|]. split.
    { rewrite Hframes, lookup_app_r by lia.
      by replace (S (length (frames w)) - length (frames w))%nat
        with 1%nat by lia. }
    intros name vals Hname.
    apply smoothing_values in Hsmooth as (_ & _ & Hvals).
    + apply Hvals. unfold working_rows.
      by rewrite mask_rows_column, Hname.
    + destruct Hnd as [Hnd|Hsg]; [left; by apply NoDup_mask_rows | by right].
    + by apply aligned_mask_rows.
  - intros vals Hlen. unfold smoothed_values.
    by apply Nat.ltb_lt in Hlen as ->.
  - intros vals Hlen. unfold smoothed_values.
    by apply Nat.ltb_ge in Hlen as ->.
Qed.

End Smoothing.

Lemma smoothing_filters_valid_values_witness :
  (exists depths logs,
     get_column Examples.deep_well "DEPT" = Some depths /\
     frames
       (snd Examples.smooth_run) !! 2%nat = Some logs /\
     forall name vals,
       get_column Examples.deep_well name = Some vals ->
       get_column logs name
       = Some (Nat.iter (smoothing_passes [Examples.smooth_track] name)
                 (smoothed_values SavgolRef.savgol_filter)
                 (select
                    (range_mask depths (Float.of_Z 3700, Float.of_Z 4000))
                    vals))) /\
  (forall vals,
     (5 < length (valid_values vals))%nat ->
     smoothed_values SavgolRef.savgol_filter vals
     = merge_valid vals
         (map CFloat
            (SavgolRef.savgol_filter (map cell_float (valid_values vals)) 5 3
               "nearest"))) /\
  (forall vals,
     (length (valid_values vals) <= 5)%nat ->
     smoothed_values SavgolRef.savgol_filter vals = vals).
Proof.
  apply (smoothing_filters_valid_values SavgolRef.savgol_filter 0
           [Examples.smooth_track] "DEPT" (Float.of_Z 3700) (Float.of_Z 4000)
           (Float.of_Z 10) (Float.of_Z 1) (Float.of_Z 100) (Float.of_Z 10) 5
           None (Examples.world_of Examples.deep_well) Examples.deep_well
           (Examples.figure_of Examples.smooth_run)
           (snd Examples.smooth_run)).
  - reflexivity.
  - exact wf_deep_well.
  - right. exact savgol_ref_length.
  - vm_compute. reflexivity.
Defined.

(** The gamma-ray log of the example is read by two curves of the smoothed
    track, so it is smoothed twice; the depth column is not smoothed. *)
Example deep_well_passes :
  smoothing_passes [Examples.smooth_track] "GR" = 2%nat /\
  smoothing_passes [Examples.smooth_track] "DEPT" = 0%nat.
Proof. by vm_compute. Qed.

(** * Further properties of the labeler *)

(** ** Comparisons on doubles *)

Lemma float_le_trans a b c :
  Float.le a b = true -> Float.le b c = true -> Float.le a c = true.
Proof.
  unfold Float.le, SFleb.
  destruct a as [sa|sa| |sa ma ea], b as [sb|sb| |sb mb eb],
    c as [sc|sc| |sc mc ec]; cbn [SFcompare];
    try destruct sa; try destruct sb; try destruct sc; try done.
  all: rewrite ?Pos.compare_cont_spec; cbn [Pos.switch_Eq].
  all: destruct (Z.compare_spec ea eb), (Z.compare_spec eb ec),
         (Z.compare_spec ea ec); try lia; try done; subst.
  all: destruct (Pos.compare_spec ma mb), (Pos.compare_spec mb mc),
         (Pos.compare_spec ma mc); try lia; try done.
Qed.

(** No depth lies in a range whose lower end is not below its upper end. *)
Lemma in_zone_reversed d top base :
  Float.le top base = false -> in_zone d (top, base) = false.
Proof.
  intros Hrev. unfold in_zone, Float.ge. cbn [fst snd].
  destruct (SFleb top (cell_float d)) eqn:H1; [|done].
  destruct (Float.le (cell_float d) base) eqn:H2; [|done].
  by rewrite (float_le_trans _ _ _ H1 H2) in Hrev.
Qed.

Lemma range_mask_reversed depths top base :
  Float.le top base = false ->
  range_mask depths (top, base) = replicate (length depths) false.
Proof.
  intros Hrev. rewrite range_mask_in_zone.
  induction depths as [|d depths IH]; [done|].
  cbn [map length replicate]. by rewrite in_zone_reversed, IH.
Qed.

(** ** The loop over the zones *)

Lemma assign_where_none {A : Type} (v : A) (l : list A) : forall k,
  assign_where (replicate k false) v l = l.
Proof.
  induction l as [|x l IH]; intros [|k]; cbn [replicate assign_where];
    [done | done | done |]. by rewrite IH.
Qed.

Lemma assign_where_comm {A : Type} (v : A) (l : list A) : forall m1 m2,
  assign_where m1 v (assign_where m2 v l)
  = assign_where m2 v (assign_where m1 v l).
Proof.
  induction l as [|x l IH]; intros [|b1 m1] [|b2 m2];
    cbn [assign_where]; try done.
  rewrite IH. by destruct b1, b2.
Qed.

Lemma assign_where_length {A : Type} (v : A) (l : list A) : forall mask,
  length (assign_where mask v l) = length l.
Proof.
  induction l as [|x l IH]; intros [|b mask]; cbn [assign_where length];
    [done | done | done |]. by rewrite IH.
Qed.

(** One iteration on a table that has the depth column and the class
    column. *)
Lemma label_zone_step df depths old zone :
  get_column df DEPT = Some depths ->
  label_zone_on zone (set_column df hydrocarbon_formation_class old)
  = (Ok tt,
     set_column df hydrocarbon_formation_class
       (assign_where (range_mask depths zone) (CInt 1) old)).
Proof.
  intros Hd. unfold label_zone_on.
  rewrite get_set_column_ne by apply DEPT_ne_class. rewrite Hd.
  by rewrite get_set_column_eq, set_column_twice.
Qed.

(** Without the depth column the first iteration raises. *)
Lemma label_zones_no_depth df old zone zones :
  get_column df DEPT = None ->
  label_zones (zone :: zones) (set_column df hydrocarbon_formation_class old)
  = (Raise (AttributeError DEPT),
     set_column df hydrocarbon_formation_class old).
Proof.
  intros Hd. unfold label_zones. cbn [frame_loop]. unfold label_zone_on.
  rewrite get_set_column_ne by apply DEPT_ne_class. by rewrite Hd.
Qed.

(** The order of the zones does not matter to the loop. *)
Lemma label_zones_perm df zones zones' :
  zones ≡ₚ zones' ->
  forall old,
    label_zones zones (set_column df hydrocarbon_formation_class old)
    = label_zones zones' (set_column df hydrocarbon_formation_class old).
Proof.
  destruct (get_column df DEPT) as [depths|] eqn:Hd.
  - unfold label_zones.
    induction 1 as [|z l l' _ IH|z1 z2 l|l1 l2 l3 _ IH1 _ IH2]; intros old.
    + done.
    + cbn [frame_loop]. rewrite (label_zone_step _ _ _ _ Hd). apply IH.
    + cbn [frame_loop]. rewrite !(label_zone_step _ _ _ _ Hd).
      by rewrite assign_where_comm.
    + by rewrite IH1, IH2.
  - intros Hperm old. destruct zones as [|z l], zones' as [|z' l'].
    + done.
    + by apply Permutation_nil_cons in Hperm.
    + symmetry in Hperm. by apply Permutation_nil_cons in Hperm.
    + by rewrite !label_zones_no_depth.
Qed.

(** ** Well-formed tables *)

Lemma NoDup_set_assoc {A : Type} (k : string) (v : A) l :
  NoDup (map fst l) -> NoDup (map fst (set_assoc k v l)).
Proof.
  intros Hnd. rewrite map_fst_set_assoc.
  destruct (assoc k l) eqn:Hk; [done|].
  apply NoDup_app. split; [done|]. split; [|apply NoDup_singleton].
  intros x Hx Hx'. apply list_elem_of_singleton in Hx' as ->.
  by apply assoc_None_notin in Hk.
Qed.

Lemma wf_set_column df name vals :
  wf_frame df -> length vals = length (df_index df) ->
  wf_frame (set_column df name vals).
Proof.
  intros [Hnd Hal] Hlen. split.
  - by apply NoDup_set_assoc.
  - by apply aligned_set_column.
Qed.

Lemma wf_label_zone zone df :
  wf_frame df -> wf_frame (snd (label_zone_on zone df)).
Proof.
  intros Hwf. unfold label_zone_on.
  destruct (get_column df DEPT) as [depths|]; [|done].
  cbn [snd]. apply wf_set_column; [done|].
  rewrite assign_where_length.
  destruct (get_column df hydrocarbon_formation_class) as [vals|] eqn:Hc.
  - by eapply wf_column_length.
  - apply length_replicate.
Qed.

Lemma wf_well_depth : wf_frame Examples.well_depth.
Proof.
  split; [by apply (bool_decide_unpack _) | by repeat constructor].
Qed.

(** ** Error and edge behaviour *)

(** X1: The labeler reads the depth log as the attribute [DEPT], inside its
    loop over the zones.  On a table without a column of that name, and with
    at least one zone, it raises [AttributeError]; the copy it was working
    on, with its class column of zeros, is what it leaves in the store. *)
Theorem add_productive_zones_without_depth w data zones df :
  frames w !! data = Some df ->
  get_column df DEPT = None ->
  zones <> [] ->
  add_productive_zones data zones w
  = (Raise (AttributeError DEPT),
     {| frames :=
          frames w ++ [set_column df hydrocarbon_formation_class (zeros df)];
        stdout := stdout w |}).
Proof.
  intros Hr Hd Hne. rewrite (add_productive_zones_run _ _ _ _ Hr).
  destruct zones as [|zone zones]; [done|].
  by rewrite (label_zones_no_depth _ _ _ _ Hd).
Qed.

Lemma add_productive_zones_without_depth_witness :
  add_productive_zones 0 Examples.zones
    (Examples.world_of Examples.well_depth)
  = (Raise (AttributeError "DEPT"),
     {| frames :=
          [Examples.well_depth;
           set_column Examples.well_depth hydrocarbon_formation_class
             [CInt 0; CInt 0; CInt 0]];
        stdout := [] |}).
Proof.
  apply (add_productive_zones_without_depth
           (Examples.world_of Examples.well_depth) 0 Examples.zones
           Examples.well_depth).
  - reflexivity.
  - reflexivity.
  - discriminate.
Defined.

Lemma label_zones_with_depth df depths zones : forall old,
  get_column df DEPT = Some depths ->
  fst (label_zones zones (set_column df hydrocarbon_formation_class old))
  = Ok tt.
Proof.
  unfold label_zones. induction zones as [|zone zones IH]; intros old Hd;
    [done|].
  cbn [frame_loop]. rewrite (label_zone_step _ _ _ _ Hd). by apply IH.
Qed.

(** X2: On a well-formed table (distinct column names, columns as long as
    the index) the missing depth log is the only reason for the labeler to
    raise: a call that raises was given at least one zone and a table
    without a [DEPT] column, and the exception is the [AttributeError] of
    that name.  Zones with swapped or missing bounds, missing depths and a
    class column that is already there never make it raise. *)
Theorem add_productive_zones_raises_only w data zones df e w' :
  frames w !! data = Some df ->
  wf_frame df ->
  add_productive_zones data zones w = (Raise e, w') ->
  e = AttributeError DEPT /\ get_column df DEPT = None /\ zones <> [].
Proof.
  intros Hr _ Hrun. rewrite (add_productive_zones_run _ _ _ _ Hr) in Hrun.
  cbn zeta in Hrun.
  destruct (get_column df DEPT) as [depths|] eqn:Hd.
  - rewrite (label_zones_with_depth _ _ _ _ Hd) in Hrun. discriminate.
  - destruct zones as [|zone zones]; [discriminate|].
    rewrite (label_zones_no_depth _ _ _ _ Hd) in Hrun.
    by injection Hrun as <- _.
Qed.

Lemma add_productive_zones_raises_only_witness :
  AttributeError "DEPT" = AttributeError DEPT /\
  get_column Examples.well_depth DEPT = None /\
  Examples.zones <> [].
Proof.
  apply (add_productive_zones_raises_only
           (Examples.world_of Examples.well_depth) 0 Examples.zones
           Examples.well_depth (AttributeError "DEPT")
           (snd (add_productive_zones 0 Examples.zones
                   (Examples.world_of Examples.well_depth)))).
  - reflexivity.
  - exact wf_well_depth.
  - vm_compute. reflexivity.
Defined.

(** X3: With no zone at all the depth log is never read: on every table,
    with or without a [DEPT] column, the labeler returns a copy whose class
    column is 0 on every row, the other columns being those of the input. *)
Theorem add_productive_zones_no_zones w data df :
  frames w !! data = Some df ->
  exists df',
    add_productive_zones data [] w
    = (Ok (length (frames w)),
       {| frames := frames w ++ [df']; stdout := stdout w |}) /\
    df_index df' = df_index df /\
    (forall c,
       c <> hydrocarbon_formation_class ->
       get_column df' c = get_column df c) /\
    get_column df' hydrocarbon_formation_class
    = Some (replicate (length (df_index df)) (CInt 0)).
Proof.
  intros Hr.
  exists (set_column df hydrocarbon_formation_class (zeros df)).
  split; [|split; [done|split]].
  - by rewrite (add_productive_zones_run _ _ _ _ Hr).
  - intros c Hc. by apply get_set_column_ne.
  - apply get_set_column_eq.
Qed.

Lemma add_productive_zones_no_zones_witness :
  exists df',
    add_productive_zones 0 [] (Examples.world_of Examples.well_depth)
    = (Ok 1%nat, {| frames := [Examples.well_depth; df']; stdout := [] |}) /\
    df_index df' = [0; 1; 2] /\
    (forall c,
       c <> hydrocarbon_formation_class ->
       get_column df' c = get_column Examples.well_depth c) /\
    get_column df' hydrocarbon_formation_class
    = Some [CInt 0; CInt 0; CInt 0].
Proof.
  apply (add_productive_zones_no_zones
           (Examples.world_of Examples.well_depth) 0 Examples.well_depth).
  reflexivity.
Defined.

(** ** The zones as a set *)

(** X4: The outcome of the labeler does not depend on the order in which the
    zones are listed: two zone lists that are permutations of each other
    give the same result and the same store, on every table. *)
Theorem add_productive_zones_zone_order w data zones zones' :
  zones ≡ₚ zones' ->
  add_productive_zones data zones w = add_productive_zones data zones' w.
Proof.
  intros Hperm. destruct (frames w !! data) as [df|] eqn:Hr.
  - rewrite !(add_productive_zones_run _ _ _ _ Hr).
    by rewrite (label_zones_perm _ _ _ Hperm).
  - unfold add_productive_zones, df_copy, bind, deref. by rewrite Hr.
Qed.

Lemma add_productive_zones_zone_order_witness :
  add_productive_zones 0
    [(Float.of_Z 3700, Float.of_Z 3720); (Float.of_Z 3990, Float.of_Z 4000)]
    (Examples.world_of Examples.well)
  = add_productive_zones 0
      [(Float.of_Z 3990, Float.of_Z 4000); (Float.of_Z 3700, Float.of_Z 3720)]
      (Examples.world_of Examples.well).
Proof.
  apply (add_productive_zones_zone_order (Examples.world_of Examples.well) 0).
  apply perm_swap.
Defined.

(** X5: A zone whose top is not below or equal to its base (the bounds are
    swapped, or one of them is missing) marks no row: on a well-formed table
    with the depth log, dropping such a zone from the list, wherever it
    stands, changes nothing. *)
Theorem add_productive_zones_reversed_zone w data zones zones' top base df
    depths :
  frames w !! data = Some df ->
  wf_frame df ->
  get_column df DEPT = Some depths ->
  Float.le top base = false ->
  add_productive_zones data (zones ++ (top, base) :: zones') w
  = add_productive_zones data (zones ++ zones') w.
Proof.
  intros Hr _ Hd Hrev. rewrite !(add_productive_zones_run _ _ _ _ Hr).
  rewrite (label_zones_perm _ (zones ++ (top, base) :: zones')
             ((top, base) :: zones ++ zones'))
    by (symmetry; apply Permutation_middle).
  unfold label_zones at 1. cbn [frame_loop].
  rewrite (label_zone_step _ _ _ _ Hd), (range_mask_reversed _ _ _ Hrev).
  by rewrite assign_where_none.
Qed.

Lemma add_productive_zones_reversed_zone_witness :
  add_productive_zones 0
    [(Float.of_Z 3700, Float.of_Z 3720); (Float.of_Z 4000, Float.of_Z 3700)]
    (Examples.world_of Examples.well)
  = add_productive_zones 0 [(Float.of_Z 3700, Float.of_Z 3720)]
      (Examples.world_of Examples.well).
Proof.
  apply (add_productive_zones_reversed_zone (Examples.world_of Examples.well)
           0 [(Float.of_Z 3700, Float.of_Z 3720)] [] (Float.of_Z 4000)
           (Float.of_Z 3700) Examples.well
           [Examples.num 3690; Examples.num 3700; Examples.num 3750;
            Examples.num 3999; Examples.num 4010]).
  - reflexivity.
  - exact wf_well.
  - reflexivity.
  - reflexivity.
Defined.

(** ** The table that the labeler builds *)

(** X6: The labeler keeps tables well formed: when the input has distinct
    column names and columns of the length of its index, so has the table
    that the labeler builds, whether the call returns it or raises half way. *)
Theorem add_productive_zones_well_formed w data zones df :
  frames w !! data = Some df ->
  wf_frame df ->
  exists df',
    frames (snd (add_productive_zones data zones w)) = frames w ++ [df'] /\
    wf_frame df'.
Proof.
  intros Hr Hwf. rewrite (add_productive_zones_run _ _ _ _ Hr).
  eexists. split; [reflexivity|]. unfold label_zones.
  apply (frame_loop_invariant wf_frame).
  - intros zone df0. apply wf_label_zone.
  - apply wf_set_column; [done|]. apply length_replicate.
Qed.

Lemma add_productive_zones_well_formed_witness :
  exists df',
    frames
      (snd (add_productive_zones 0 Examples.zones
              (Examples.world_of Examples.well)))
    = [Examples.well; df'] /\
    wf_frame df'.
Proof.
  apply (add_productive_zones_well_formed (Examples.world_of Examples.well) 0
           Examples.zones Examples.well).
  - reflexivity.
  - exact wf_well.
Defined.

(** ** Several zone lists *)

Lemma labels_zone_class w data zones df depths :
  frames w !! data = Some df ->
  wf_frame df ->
  get_column df DEPT = Some depths ->
  labels w data zones (map (zone_class zones) depths).
Proof.
  intros Hr Hwf Hd. eexists _, _, _. split; [|split].
  - apply add_productive_zones_spec; [done | done |].
    by eapply wf_column_length.
  - cbn [frames]. apply lookup_snoc.
  - apply get_set_column_eq.
Qed.

Lemma zone_class_one zones d :
  zone_class zones d = CInt 1 <-> existsb (in_zone d) zones = true.
Proof. unfold zone_class. by destruct (existsb _ _). Qed.

(** X7: Zones act as a union: on a well-formed table with the depth log, a
    row is marked 1 by the labeler run with two zone lists put together
    exactly when it is marked 1 by the run with the first list or by the run
    with the second. *)
Theorem add_productive_zones_union w data zones zones' df depths :
  frames w !! data = Some df ->
  wf_frame df ->
  get_column df DEPT = Some depths ->
  exists both first second,
    labels w data (zones ++ zones') both /\
    labels w data zones first /\
    labels w data zones' second /\
    length both = length (df_index df) /\
    forall i,
      both !! i = Some (CInt 1) <->
      first !! i = Some (CInt 1) \/ second !! i = Some (CInt 1).
Proof.
  intros Hr Hwf Hd. eexists _, _, _.
  split; [by apply (labels_zone_class _ _ _ df)|].
  split; [by apply (labels_zone_class _ _ _ df)|].
  split; [by apply (labels_zone_class _ _ _ df)|].
  split; [rewrite length_map; by eapply wf_column_length|].
  intros i. rewrite !list_lookup_fmap.
  destruct (depths !! i) as [d|]; cbn [fmap option_fmap option_map].
  - assert (Hone : forall zs,
              Some (zone_class zs d) = Some (CInt 1)
              <-> existsb (in_zone d) zs = true).
    { intros zs. rewrite <- zone_class_one. split; congruence. }
    rewrite !Hone, existsb_app. apply orb_true_iff.
  - split; [done | by intros [|]].
Qed.

Lemma add_productive_zones_union_witness :
  exists both first second,
    labels (Examples.world_of Examples.well) 0
      ([(Float.of_Z 3690, Float.of_Z 3700)] ++
       [(Float.of_Z 3999, Float.of_Z 4010)]) both /\
    labels (Examples.world_of Examples.well) 0
      [(Float.of_Z 3690, Float.of_Z 3700)] first /\
    labels (Examples.world_of Examples.well) 0
      [(Float.of_Z 3999, Float.of_Z 4010)] second /\
    length both = 5%nat /\
    forall i,
      both !! i = Some (CInt 1) <->
      first !! i = Some (CInt 1) \/ second !! i = Some (CInt 1).
Proof.
  apply (add_productive_zones_union (Examples.world_of Examples.well) 0
           [(Float.of_Z 3690, Float.of_Z 3700)]
           [(Float.of_Z 3999, Float.of_Z 4010)] Examples.well
           [Examples.num 3690; Examples.num 3700; Examples.num 3750;
            Examples.num 3999; Examples.num 4010]).
  - reflexivity.
  - exact wf_well.
  - reflexivity.
Defined.

(** ** Labelling a labelled table *)

(** X8: The labeler starts from a class column of zeros, also on a table
    that already has the column: labels do not add up over calls.  Labelling
    the output of an earlier call, made with any zones, with the zones
    [zones'] returns the very table that labelling the original with
    [zones'] returns. *)
Theorem add_productive_zones_relabel w data zones zones' r1 w1 r2 w2 :
  add_productive_zones data zones w = (Ok r1, w1) ->
  add_productive_zones data zones' w = (Ok r2, w2) ->
  exists r3 w3 df',
    add_productive_zones r1 zones' w1 = (Ok r3, w3) /\
    frames w2 !! r2 = Some df' /\
    frames w3 !! r3 = Some df'.
Proof.
  intros Hrun1 Hrun2.
  destruct (frames w !! data) as [df|] eqn:Hdf.
  2: { unfold add_productive_zones, df_copy, bind, deref in Hrun1.
       rewrite Hdf in Hrun1. discriminate. }
  rewrite (add_productive_zones_run _ _ _ _ Hdf) in Hrun1.
  rewrite (add_productive_zones_run _ _ _ _ Hdf) in Hrun2.
  destruct (label_zones zones
              (set_column df hydrocarbon_formation_class (zeros df)))
    as [out1 df1] eqn:Hout1.
  destruct (label_zones zones'
              (set_column df hydrocarbon_formation_class (zeros df)))
    as [out2 df2] eqn:Hout2.
  cbn [fst snd] in Hrun1, Hrun2.
  destruct out1 as [[]|e]; [|discriminate]. injection Hrun1 as <- <-.
  destruct out2 as [[]|e]; [|discriminate]. injection Hrun2 as <- <-.
  destruct (label_zones_shape df zones (zeros df)) as [col Hshape].
  rewrite Hout1 in Hshape. cbn [snd] in Hshape.
  assert (Hagain :
    set_column df1 hydrocarbon_formation_class (zeros df1)
    = set_column df hydrocarbon_formation_class (zeros df)).
  { rewrite Hshape, set_column_twice. done. }
  eexists _, _, df2. split; [|split].
  - rewrite (add_productive_zones_run _ _ df1) by apply lookup_snoc.
    cbn [frames stdout]. rewrite Hagain, Hout2. reflexivity.
  - cbn [frames]. apply lookup_snoc.
  - cbn [frames]. apply lookup_snoc.
Qed.

Lemma add_productive_zones_relabel_witness :
  exists r3 w3 df',
    add_productive_zones 1 [(Float.of_Z 3690, Float.of_Z 3700)]
      {| frames := [Examples.well; Examples.labelled_well]; stdout := [] |}
    = (Ok r3, w3) /\
    frames
      (snd (add_productive_zones 0 [(Float.of_Z 3690, Float.of_Z 3700)]
              (Examples.world_of Examples.well)))
      !! 1%nat = Some df' /\
    frames w3 !! r3 = Some df'.
Proof.
  apply (add_productive_zones_relabel (Examples.world_of Examples.well) 0
           Examples.zones [(Float.of_Z 3690, Float.of_Z 3700)] 1
           {| frames := [Examples.well; Examples.labelled_well];
              stdout := [] |}
           1
           (snd (add_productive_zones 0 [(Float.of_Z 3690, Float.of_Z 3700)]
                   (Examples.world_of Examples.well)))).
  - vm_compute. reflexivity.
  - vm_compute. reflexivity.
Defined.

(** * Further properties of the renderer *)

(** ** The tracks of a finished figure *)

Lemma with_formations_formations_on formation top bottom axes i :
  with_formations formation top bottom axes !! i
  = formations_on formation top bottom <$> axes !! i.
Proof.
  unfold with_formations, formations_on. destruct formation as [items|].
  - apply list_lookup_fmap.
  - by destruct (axes !! i).
Qed.

(** A finished figure, track by track: the axes of track [i] is the ruled
    axes with the title of the track, one twin axes for each curve whose
    column exists, and the formation overlay. *)
Lemma combo_plot_figure sg data tracks depth_column top bottom height adjust
    major minor n formation w df fig w' :
  frames w !! data = Some df ->
  combo_plot sg data tracks depth_column top bottom height adjust major minor
    n formation w = (Ok fig, w') ->
  exists depths logs',
    get_column df depth_column = Some depths /\
    frame_loop (smooth_track_on sg) tracks
      (working_rows df depths top bottom) = (Ok tt, logs') /\
    fig_size fig = (4 * Z.of_nat (length tracks), height) /\
    fig_top fig = adjust /\
    length (fig_axes fig) = length tracks /\
    forall i t,
      tracks !! i = Some t ->
      exists tws,
        fig_axes fig !! i
        = Some (formations_on formation top bottom
                  (fold_left add_twin tws
                     (titled (ruled top bottom major minor i) i t))) /\
        Forall2
          (is_twin_of logs' depth_column (dict_get (show_grid t) true) n)
          (List.filter (drawn df) (dict_get (curves t) [])) tws.
Proof.
  intros Hdata. rewrite combo_plot_run. unfold combo_plot_on. intros Hrun.
  rewrite Hdata in Hrun.
  destruct (get_column df depth_column) as [depths|] eqn:Hdepth;
    [|discriminate].
  destruct tracks as [|t0 tracks']; [discriminate|].
  set (tracks := t0 :: tracks') in *.
  change (subplots (length tracks))
    with (Ok (A := list Axes) (replicate (length tracks) new_axes)) in Hrun.
  cbn iota in Hrun.
  set (sel := working_rows df depths top bottom) in *.
  destruct (map _ (replicate (length tracks) new_axes) !! 0%nat) as [ax0|]
    eqn:Hax0; [|discriminate].
  destruct (frame_loop (smooth_track_on sg) tracks sel) as [[[]|e] logs']
    eqn:Hsmooth; [|discriminate].
  unfold render_on in Hrun.
  destruct (fold_on _ (enumerate tracks) _) as [[axes'|e] out] eqn:Hplot;
    [|discriminate].
  cbn [fst snd] in Hrun. injection Hrun as <- <-.
  apply (plot_tracks_Ok _ _ _ _ 0%nat) in Hplot
    as (-> & Hlen & _ & Htracks).
  rewrite length_insert, length_map, length_replicate in Hlen.
  exists depths, logs'. cbn [fig_size fig_top fig_axes].
  split; [done|]. split; [done|]. split; [done|]. split; [done|].
  rewrite with_formations_length. split; [done|].
  intros i t Hi. destruct (Htracks i t Hi) as (ax & ax' & Hax & Hax' & Htrack).
  cbn [Nat.add] in Hax, Hax', Htrack.
  rewrite (ruled_lookup _ _ _ _ _ _ _ Hax0) in Hax
    by (by eapply lookup_lt_Some).
  injection Hax as <-.
  destruct Htrack as (tws & -> & Htws).
  exists tws. split.
  - by rewrite with_formations_formations_on, Hax'.
  - rewrite (List.filter_ext (drawn logs') (drawn df)) in Htws; [done|].
    intros c. replace logs' with (snd (frame_loop (smooth_track_on sg) tracks
                                       sel)) by (by rewrite Hsmooth).
    apply drawn_logs.
Qed.

(** ** What the later calls leave of the earlier ones *)

Lemma ruler_of_add_twins tws : forall ax,
  ruler_of (fold_left add_twin tws ax) = ruler_of ax.
Proof.
  induction tws as [|tw tws IH]; intros ax; [done|].
  cbn [fold_left]. by rewrite IH.
Qed.

Lemma ruler_of_draw_formations top bottom items : forall ax,
  ruler_of (fold_left (draw_formation top bottom) items ax) = ruler_of ax.
Proof.
  induction items as [|[name depth] items IH]; intros ax; [done|].
  cbn [fold_left]. rewrite IH. unfold draw_formation.
  by destruct (_ && _).
Qed.

Lemma ruler_of_formations_on formation top bottom ax :
  ruler_of (formations_on formation top bottom ax) = ruler_of ax.
Proof.
  destruct formation; [apply ruler_of_draw_formations | done].
Qed.

Lemma ax_title_add_twins tws : forall ax,
  ax_title (fold_left add_twin tws ax) = ax_title ax.
Proof.
  induction tws as [|tw tws IH]; intros ax; [done|].
  cbn [fold_left]. by rewrite IH.
Qed.

Lemma ax_title_draw_formations top bottom items : forall ax,
  ax_title (fold_left (draw_formation top bottom) items ax) = ax_title ax.
Proof.
  induction items as [|[name depth] items IH]; intros ax; [done|].
  cbn [fold_left]. rewrite IH. unfold draw_formation.
  by destruct (_ && _).
Qed.

Lemma ax_title_formations_on formation top bottom ax :
  ax_title (formations_on formation top bottom ax) = ax_title ax.
Proof.
  destruct formation; [apply ax_title_draw_formations | done].
Qed.

Lemma ax_twins_formations_on formation top bottom ax :
  ax_twins (formations_on formation top bottom ax) = ax_twins ax.
Proof.
  destruct formation; [apply ax_twins_draw_formation | done].
Qed.

Lemma ax_lines_add_twins tws : forall ax,
  ax_hlines (fold_left add_twin tws ax) = ax_hlines ax /\
  ax_texts (fold_left add_twin tws ax) = ax_texts ax.
Proof.
  induction tws as [|tw tws IH]; intros ax; [done|].
  cbn [fold_left]. by destruct (IH (add_twin ax tw)) as [-> ->].
Qed.

(** The formation loop appends, for each formation in the depth range, a
    line at its depth and a text with its name. *)
Lemma ax_lines_draw_formations top bottom items : forall ax,
  ax_hlines (fold_left (draw_formation top bottom) items ax)
  = ax_hlines ax ++ map snd (formations_shown (Some items) top bottom) /\
  ax_texts (fold_left (draw_formation top bottom) items ax)
  = ax_texts ax ++
    map (fun item => (snd item, fst item))
      (formations_shown (Some items) top bottom).
Proof.
  cbn [formations_shown].
  induction items as [|[name depth] items IH]; intros ax.
  - cbn. by rewrite !app_nil_r.
  - cbn [fold_left List.filter snd fst]. unfold draw_formation at 2 4.
    destruct (Float.ge depth top && Float.le depth bottom).
    + destruct (IH (add_formation_line ax depth name)) as [-> ->].
      cbn [ax_hlines ax_texts add_formation_line map fst snd].
      by rewrite <- !app_assoc.
    + apply IH.
Qed.

Lemma ax_lines_formations_on formation top bottom ax :
  ax_hlines (formations_on formation top bottom ax)
  = ax_hlines ax ++ map snd (formations_shown formation top bottom) /\
  ax_texts (formations_on formation top bottom ax)
  = ax_texts ax ++
    map (fun item => (snd item, fst item))
      (formations_shown formation top bottom).
Proof.
  destruct formation as [items|]; [apply ax_lines_draw_formations|].
  cbn. by rewrite !app_nil_r.
Qed.

(** ** The greatest spine offset *)

Lemma fold_max_ge l : forall x,
  x <= fold_left Z.max l x /\ Forall (fun y => y <= fold_left Z.max l x) l.
Proof.
  induction l as [|y l IH]; intros x; cbn [fold_left]; [by split; [lia|]|].
  destruct (IH (Z.max x y)) as [Hx Hl]. split; [lia|].
  constructor; [lia | done].
Qed.

Lemma fold_max_in l : forall x,
  fold_left Z.max l x = x \/ fold_left Z.max l x ∈ l.
Proof.
  induction l as [|y l IH]; intros x; cbn [fold_left]; [by left|].
  destruct (IH (Z.max x y)) as [->|Hin].
  - destruct (Z.max_spec x y) as [[_ ->]|[_ ->]];
      [right; apply list_elem_of_here | by left].
  - right. by apply list_elem_of_further.
Qed.

Lemma max_or_zero_greatest l :
  Forall (fun y => y <= max_or_zero l) l /\
  (l <> [] -> max_or_zero l ∈ l).
Proof.
  destruct l as [|x l]; [done|]. cbn [max_or_zero].
  destruct (fold_max_ge l x) as [Hx Hl]. split.
  - by constructor.
  - intros _. destruct (fold_max_in l x) as [->|Hin];
      [apply list_elem_of_here | by apply list_elem_of_further].
Qed.

(** ** Errors before the figure *)

Section RendererErrors.

Variable savgol_filter : list float -> Z -> Z -> string -> list float.

(** X9: The renderer reads the depth column first, line 65: on a table
    without a column of that name it raises [KeyError] with the name,
    whatever the tracks (an empty list included), before any table is copied
    and before anything is printed. *)
Theorem combo_plot_missing_depth_column data tracks depth_column top bottom
    height adjust major minor n formation w df :
  frames w !! data = Some df ->
  get_column df depth_column = None ->
  combo_plot savgol_filter data tracks depth_column top bottom height adjust
    major minor n formation w
  = (Raise (KeyError depth_column), w).
Proof.
  intros Hdata Hdepth. rewrite combo_plot_run. unfold combo_plot_on.
  by rewrite Hdata, Hdepth.
Qed.

End RendererErrors.

Lemma combo_plot_missing_depth_column_witness :
  combo_plot SavgolRef.savgol_filter 0 [] "DEPT" (Float.of_Z 3700)
    (Float.of_Z 4000) (Float.of_Z 10) (Float.of_Z 1) (Float.of_Z 100)
    (Float.of_Z 10) 5 None (Examples.world_of Examples.well_depth)
  = (Raise (KeyError "DEPT"), Examples.world_of Examples.well_depth).
Proof.
  apply (combo_plot_missing_depth_column SavgolRef.savgol_filter 0 [] "DEPT"
           (Float.of_Z 3700) (Float.of_Z 4000) (Float.of_Z 10) (Float.of_Z 1)
           (Float.of_Z 100) (Float.of_Z 10) 5 None
           (Examples.world_of Examples.well_depth) Examples.well_depth).
  - reflexivity.
  - reflexivity.
Defined.

(** ** The frame of the figure *)

Section FigureFrame.

Variable savgol_filter : list float -> Z -> Z -> string -> list float.

(** X10: A figure that is returned is four inches wide for each track and as
    high as asked, and every track of it carries the depth ruler: the limits
    given to [set_ylim] are [top_depth] and [bottom_depth], the major and
    minor horizontal grids are on, the tick locators are at the multiples of
    the two intervals and the horizontal axis is hidden.  The call of
    [invert_yaxis] reverses the direction that these limits give: the depth
    axis ends up inverted, depth growing downwards, unless
    [bottom_depth < top_depth], in which case it ends up not inverted.  The
    label "Depth" is on the leftmost track and on no other.  Neither the
    curves nor the formation overlay change any of this. *)
Theorem depth_ruler_on_every_track data tracks depth_column top bottom height
    adjust major minor n formation w df fig w' :
  frames w !! data = Some df ->
  combo_plot savgol_filter data tracks depth_column top bottom height adjust
    major minor n formation w = (Ok fig, w') ->
  fig_size fig = (4 * Z.of_nat (length tracks), height) /\
  fig_top fig = adjust /\
  length (fig_axes fig) = length tracks /\
  forall i t,
    tracks !! i = Some t ->
    exists ax,
      fig_axes fig !! i = Some ax /\
      ax_ylim ax = Some (top, bottom) /\
      ax_yinverted ax = negb (Float.lt bottom top) /\
      ax_ygrid_minor ax = true /\
      ax_ygrid_major ax = true /\
      ax_ymajor ax = MultipleLocator major /\
      ax_yminor ax = MultipleLocator minor /\
      ax_xaxis_visible ax = false /\
      ax_ylabel ax = match i with O => Some "Depth" | S _ => None end.
Proof.
  intros Hdata Hrun.
  destruct (combo_plot_figure _ _ _ _ _ _ _ _ _ _ _ _ _ _ _ _ Hdata Hrun)
    as (depths & logs' & _ & _ & Hsize & Htop & Hlen & Htracks).
  split; [done|]. split; [done|]. split; [done|]. intros i t Ht.
  destruct (Htracks i t Ht) as (tws & Hax & _).
  eexists. split; [exact Hax|].
  match goal with
  | |- context [ax_ylim ?a] =>
      assert (Hruler : ruler_of a = ruler_of (ruled top bottom major minor i))
        by (by rewrite ruler_of_formations_on, ruler_of_add_twins);
      set (ax := a) in *
  end.
  unfold ruler_of in Hruler.
  injection Hruler as -> -> -> -> -> -> -> ->. by destruct i.
Qed.

End FigureFrame.

Lemma depth_ruler_on_every_track_witness :
  (fig_size (Examples.figure_of Examples.lost_run) = (8, Float.of_Z 10) /\
   fig_top (Examples.figure_of Examples.lost_run) = Float.of_Z 1 /\
   length (fig_axes (Examples.figure_of Examples.lost_run)) = 2%nat /\
   exists ax,
     fig_axes (Examples.figure_of Examples.lost_run) !! 1%nat = Some ax /\
     ax_ylim ax = Some (Float.of_Z 3700, Float.of_Z 4000) /\
     ax_yinverted ax = true /\
     ax_ygrid_minor ax = true /\
     ax_ygrid_major ax = true /\
     ax_ymajor ax = MultipleLocator (Float.of_Z 100) /\
     ax_yminor ax = MultipleLocator (Float.of_Z 10) /\
     ax_xaxis_visible ax = false /\
     ax_ylabel ax = None) /\
  (exists ax,
     fig_axes (Examples.figure_of Examples.reversed_run) !! 0%nat = Some ax /\
     ax_ylim ax = Some (Float.of_Z 4000, Float.of_Z 3700) /\
     ax_yinverted ax = false /\
     ax_ygrid_minor ax = true /\
     ax_ygrid_major ax = true /\
     ax_ymajor ax = MultipleLocator (Float.of_Z 100) /\
     ax_yminor ax = MultipleLocator (Float.of_Z 10) /\
     ax_xaxis_visible ax = false /\
     ax_ylabel ax = Some "Depth").
Proof.
  split.
  - destruct (depth_ruler_on_every_track SavgolRef.savgol_filter 0
                [Examples.logs_track; Examples.lost_track] "DEPT"
                (Float.of_Z 3700) (Float.of_Z 4000) (Float.of_Z 10)
                (Float.of_Z 1) (Float.of_Z 100) (Float.of_Z 10) 5 None
                (Examples.world_of Examples.well) Examples.well
                (Examples.figure_of Examples.lost_run)
                (snd Examples.lost_run))
      as (Hsize & Htop & Hlen & Htracks).
    + reflexivity.
    + vm_compute. reflexivity.
    + split; [exact Hsize|]. split; [exact Htop|]. split; [exact Hlen|].
      apply (Htracks 1%nat Examples.lost_track). reflexivity.
  - destruct (depth_ruler_on_every_track SavgolRef.savgol_filter 0
                [Examples.smooth_track; Examples.logs_track] "DEPT"
                (Float.of_Z 4000) (Float.of_Z 3700) (Float.of_Z 10)
                (Float.of_Z 1) (Float.of_Z 100) (Float.of_Z 10) 5
                (Some Examples.tops) (Examples.world_of Examples.deep_well)
                Examples.deep_well
                (Examples.figure_of Examples.reversed_run)
                (snd Examples.reversed_run))
      as (_ & _ & _ & Htracks).
    + reflexivity.
    + vm_compute. reflexivity.
    + apply (Htracks 0%nat Examples.smooth_track). reflexivity.
Defined.

(** ** Titles *)

Section Titles.

Variable savgol_filter : list float -> Z -> Z -> string -> list float.

(** X11: The title of track [i] is its [title] entry, or "Track" followed by
    [i + 1] when it has none.  Its pad is 60 plus the greatest
    [position_offset] among all the curves of the track, a missing offset
    counting as 0 and the curves that are skipped for want of their column
    counting as well; for a track without curves the pad is 60. *)
Theorem track_titles data tracks depth_column top bottom height adjust major
    minor n formation w df fig w' :
  frames w !! data = Some df ->
  combo_plot savgol_filter data tracks depth_column top bottom height adjust
    major minor n formation w = (Ok fig, w') ->
  forall i t,
    tracks !! i = Some t ->
    exists ax pad,
      fig_axes fig !! i = Some ax /\
      ax_title ax
      = Some (dict_get (title t) ("Track " +:+ pretty (i + 1)%nat), pad + 60)
      /\
      (offsets t = [] /\ pad = 0 \/
       pad ∈ offsets t /\ Forall (fun offset => offset <= pad) (offsets t)).
Proof.
  intros Hdata Hrun i t Hi.
  destruct (combo_plot_figure _ _ _ _ _ _ _ _ _ _ _ _ _ _ _ _ Hdata Hrun)
    as (depths & logs' & _ & _ & _ & _ & _ & Htracks).
  destruct (Htracks i t Hi) as (tws & Hax & _).
  eexists _, (max_or_zero (offsets t)). split; [exact Hax|].
  split; [by rewrite ax_title_formations_on, ax_title_add_twins|].
  destruct (max_or_zero_greatest (offsets t)) as [Hge Hin].
  destruct (offsets t) as [|o os] eqn:Ho; [by left|].
  right. split; [by apply Hin | done].
Qed.

End Titles.

Lemma track_titles_witness :
  (exists ax pad,
     fig_axes (Examples.figure_of Examples.tops_run) !! 0%nat = Some ax /\
     ax_title ax = Some ("Logs", pad + 60) /\
     (([0; 0; 40] : list Z) = [] /\ pad = 0 \/
      pad ∈ [0; 0; 40] /\ Forall (fun offset => offset <= pad) [0; 0; 40])) /\
  (exists ax pad,
     fig_axes (Examples.figure_of Examples.tops_run) !! 1%nat = Some ax /\
     ax_title ax = Some ("Track 2", pad + 60) /\
     ((@nil Z) = [] /\ pad = 0 \/
      pad ∈ @nil Z /\ Forall (fun offset => offset <= pad) [])).
Proof.
  pose proof (track_titles SavgolRef.savgol_filter 0
                [Examples.logs_track; Examples.bare_track] "DEPT"
                (Float.of_Z 3700) (Float.of_Z 4000) (Float.of_Z 10)
                (Float.of_Z 1) (Float.of_Z 100) (Float.of_Z 10) 5
                (Some Examples.tops) (Examples.world_of Examples.well)
                Examples.well (Examples.figure_of Examples.tops_run)
                (snd Examples.tops_run) eq_refl
                ltac:(vm_compute; reflexivity)) as Htitles.
  split.
  - apply (Htitles 0%nat Examples.logs_track). reflexivity.
  - apply (Htitles 1%nat Examples.bare_track). reflexivity.
Defined.

(** ** The formation overlay *)

Section Formations.

Variable savgol_filter : list float -> Z -> Z -> string -> list float.

(** X12: Every track of a figure that is returned carries the same formation
    overlay: one horizontal line and one name, both at the depth of the
    formation, for each formation whose depth [d] satisfies [top_depth <= d
    <= bottom_depth], in the order of the dictionary, and nothing for the
    other formations.  Without a [formation] argument the list of the
    formations shown is empty, and no track has a line or a name. *)
Theorem formations_in_range data tracks depth_column top bottom height adjust
    major minor n formation w df fig w' :
  frames w !! data = Some df ->
  combo_plot savgol_filter data tracks depth_column top bottom height adjust
    major minor n formation w = (Ok fig, w') ->
  forall i t,
    tracks !! i = Some t ->
    exists ax,
      fig_axes fig !! i = Some ax /\
      ax_hlines ax = map snd (formations_shown formation top bottom) /\
      ax_texts ax
      = map (fun item => (snd item, fst item))
          (formations_shown formation top bottom) /\
      Forall
        (fun item =>
           Float.le top (snd item) = true /\
           Float.le (snd item) bottom = true)
        (formations_shown formation top bottom).
Proof.
  intros Hdata Hrun i t Ht.
  destruct (combo_plot_figure _ _ _ _ _ _ _ _ _ _ _ _ _ _ _ _ Hdata Hrun)
    as (depths & logs' & _ & _ & _ & _ & Hlen & Htracks).
  destruct (Htracks i t Ht) as (tws & Hax & _).
  eexists. split; [exact Hax|].
  destruct (ax_lines_formations_on formation top bottom
              (fold_left add_twin tws
                 (titled (ruled top bottom major minor i) i t)))
    as [Hh Ht'].
  destruct (ax_lines_add_twins tws
              (titled (ruled top bottom major minor i) i t)) as [Hh0 Ht0].
  rewrite Hh, Ht', Hh0, Ht0.
  assert (Hnone : ax_hlines (titled (ruled top bottom major minor i) i t) = []
                  /\ ax_texts (titled (ruled top bottom major minor i) i t)
                     = []) by (by destruct i).
  destruct Hnone as [-> ->]. cbn [app].
  split; [done|]. split; [done|].
  unfold formations_shown. destruct formation as [items|]; [|done].
  apply List.Forall_forall. intros item Hin.
  apply List.filter_In in Hin as [_ Hin].
  by apply andb_true_iff in Hin.
Qed.

End Formations.

Lemma formations_in_range_witness :
  exists ax,
    fig_axes (Examples.figure_of Examples.tops_run) !! 1%nat = Some ax /\
    ax_hlines ax = [Float.of_Z 3700; Float.of_Z 4000] /\
    ax_texts ax
    = [(Float.of_Z 3700, "LL-35-TOP"); (Float.of_Z 4000, "LL-35-BOTTOM")] /\
    Forall
      (fun item =>
         Float.le (Float.of_Z 3700) (snd item) = true /\
         Float.le (snd item) (Float.of_Z 4000) = true)
      [("LL-35-TOP", Float.of_Z 3700); ("LL-35-BOTTOM", Float.of_Z 4000)].
Proof.
  apply (formations_in_range SavgolRef.savgol_filter 0
           [Examples.logs_track; Examples.bare_track] "DEPT"
           (Float.of_Z 3700) (Float.of_Z 4000) (Float.of_Z 10) (Float.of_Z 1)
           (Float.of_Z 100) (Float.of_Z 10) 5 (Some Examples.tops)
           (Examples.world_of Examples.well) Examples.well
           (Examples.figure_of Examples.tops_run) (snd Examples.tops_run)
           ltac:(reflexivity) ltac:(vm_compute; reflexivity) 1%nat
           Examples.bare_track).
  reflexivity.
Defined.

(** ** The style of a curve *)


Section CurveStyle.

Variable savgol_filter : list float -> Z -> Z -> string -> list float.


End CurveStyle.


(** The three curves of the example: an axis without bounds in its usual
    direction, an axis inverted by its descending bounds, and an axis that
    [invert_axis] turns back to the usual direction. *)
Example scales_run_directions :
  map (fun ax => map tw_xinverted (ax_twins ax))
    (fig_axes (Examples.figure_of Examples.scales_run))
  = [[false; true; false]].
Proof. by vm_compute. Qed.

(** ** The keys that a call indexes *)

Section Keys.

Variable savgol_filter : list float -> Z -> Z -> string -> list float.

(** X14: A call returns a figure only if it was given at least one track, a
    table that has the depth column, a [column] entry in every curve of
    every track, and a [curves] entry in every track whose [smoothing] is
    "yes": the code indexes these keys, and a missing one raises.  A track
    that is not smoothed may lack its [curves] entry. *)
Theorem completed_call_had_its_keys data tracks depth_column top bottom height
    adjust major minor n formation w fig w' :
  combo_plot savgol_filter data tracks depth_column top bottom height adjust
    major minor n formation w = (Ok fig, w') ->
  tracks <> [] /\
  (exists df,
     frames w !! data = Some df /\ has_column df depth_column = true) /\
  Forall
    (fun t => dict_get (smoothing t) "no" = "yes" -> curves t <> None)
    tracks /\
  Forall
    (fun t => Forall (fun c => column c <> None) (dict_get (curves t) []))
    tracks.
Proof.
  rewrite combo_plot_run. unfold combo_plot_on. intros Hrun.
  destruct (frames w !! data) as [df|] eqn:Hdata; [|discriminate].
  destruct (get_column df depth_column) as [depths|] eqn:Hdepth;
    [|discriminate].
  destruct (subplots (length tracks)) as [axes|e] eqn:Hsub; [|discriminate].
  destruct (map _ axes !! 0%nat) as [ax0|]; [|discriminate].
  destruct (frame_loop _ _ _) as [[[]|e] logs'] eqn:Hsmooth; [|discriminate].
  unfold render_on in Hrun.
  destruct (fold_on _ (enumerate tracks) _) as [[axes'|e] out] eqn:Hplot;
    [|discriminate].
  split; [by intros ->|]. split.
  { exists df. split; [done|]. unfold has_column. by rewrite Hdepth. }
  split; [by eapply smoothing_keyed|].
  by eapply (plot_tracks_keyed _ _ _ _ 0%nat).
Qed.

End Keys.

Lemma completed_call_had_its_keys_witness :
  [Examples.logs_track; Examples.bare_track] <> [] /\
  (exists df,
     frames (Examples.world_of Examples.well) !! 0%nat = Some df /\
     has_column df "DEPT" = true) /\
  Forall
    (fun t => dict_get (smoothing t) "no" = "yes" -> curves t <> None)
    [Examples.logs_track; Examples.bare_track] /\
  Forall
    (fun t => Forall (fun c => column c <> None) (dict_get (curves t) []))
    [Examples.logs_track; Examples.bare_track].
Proof.
  apply (completed_call_had_its_keys SavgolRef.savgol_filter 0
           [Examples.logs_track; Examples.bare_track] "DEPT"
           (Float.of_Z 3700) (Float.of_Z 4000) (Float.of_Z 10) (Float.of_Z 1)
           (Float.of_Z 100) (Float.of_Z 10) 5 (Some Examples.tops)
           (Examples.world_of Examples.well)
           (Examples.figure_of Examples.tops_run) (snd Examples.tops_run)).
  vm_compute. reflexivity.
Defined.

(** ** The smoothing pass, seen from the call *)














Section FilterUnused.

Variables savgol_filter savgol_filter' :
  list float -> Z -> Z -> string -> list float.



End FilterUnused.



(** ** An empty depth range *)






Section EmptyRange.

Variable savgol_filter : list float -> Z -> Z -> string -> list float.


End EmptyRange.


(** ** A smoothed track without curves *)

Lemma smoothing_needs_curves sg t post df : forall pre,
  Forall unsmoothed pre ->
  dict_get (smoothing t) "no" = "yes" ->
  curves t = None ->
  frame_loop (smooth_track_on sg) (pre ++ t :: post) df
  = (Raise (KeyError "curves"), df).
Proof.
  intros pre Hpre Hyes Hnone.
  induction Hpre as [|t0 pre Ht0 _ IH]; cbn [app frame_loop].
  - unfold smooth_track_on. by rewrite Hyes, Hnone.
  - unfold smooth_track_on at 1. apply String.eqb_neq in Ht0.
    by rewrite Ht0.
Qed.

Section SmoothedWithoutCurves.

Variable savgol_filter : list float -> Z -> Z -> string -> list float.

Lemma smoothing_pass_needs_curves logs t after w : forall before,
  Forall unsmoothed before ->
  dict_get (smoothing t) "no" = "yes" ->
  curves t = None ->
  for_each (before ++ t :: after) (smooth_track savgol_filter logs) w
  = (Raise (KeyError "curves"), w).
Proof.
  intros before Hpre Hyes Hnone.
  induction Hpre as [|t0 before Ht0 _ IH]; cbn [app for_each]; unfold bind.
  - unfold smooth_track. by rewrite Hyes, Hnone.
  - unfold smooth_track at 1. apply String.eqb_neq in Ht0.
    rewrite Ht0. exact IH.
Qed.

(** X18: The smoothing pass indexes the [curves] entry of a track whose
    [smoothing] is "yes", where the plotting pass falls back on an empty
    list.  When the first smoothed track of the list has no [curves] entry,
    the smoothing pass (lines 92 to 103) raises [KeyError] for "curves" and
    leaves the working table as it was; a call with such a track list
    therefore returns no figure, whatever its other arguments, and prints
    nothing. *)
Theorem smoothed_track_needs_curves logs data before t after depth_column
    top bottom height adjust major minor n formation w :
  Forall unsmoothed before ->
  dict_get (smoothing t) "no" = "yes" ->
  curves t = None ->
  let run :=
    combo_plot savgol_filter data (before ++ t :: after) depth_column top
      bottom height adjust major minor n formation w in
  for_each (before ++ t :: after) (smooth_track savgol_filter logs) w
  = (Raise (KeyError "curves"), w) /\
  (exists e, fst run = Raise e) /\
  stdout (snd run) = stdout w.
Proof.
  intros Hpre Hyes Hnone run.
  split; [by apply smoothing_pass_needs_curves|]. subst run.
  destruct (frames w !! data) as [df|] eqn:Hdata.
  2: { rewrite combo_plot_run. unfold combo_plot_on. rewrite Hdata.
       split; [by eexists | done]. }
  destruct (get_column df depth_column) as [depths|] eqn:Hdepth.
  2: { rewrite combo_plot_run. unfold combo_plot_on. rewrite Hdata, Hdepth.
       split; [by eexists | done]. }
  rewrite (combo_plot_tracks _ _ _ _ _ _ _ _ _ _ _ _ _ _ _ Hdata Hdepth)
    by (by destruct before).
  cbn zeta. rewrite smoothing_needs_curves by done.
  split; [by eexists | done].
Qed.

End SmoothedWithoutCurves.

Lemma smoothed_track_needs_curves_witness :
  let run :=
    combo_plot SavgolRef.savgol_filter 0
      ([Examples.logs_track] ++ Examples.keyless_track :: []) "DEPT"
      (Float.of_Z 3700) (Float.of_Z 4000) (Float.of_Z 10) (Float.of_Z 1)
      (Float.of_Z 100) (Float.of_Z 10) 5 None
      (Examples.world_of Examples.well) in
  for_each ([Examples.logs_track] ++ Examples.keyless_track :: [])
    (smooth_track SavgolRef.savgol_filter 0)
    (Examples.world_of Examples.well)
  = (Raise (KeyError "curves"), Examples.world_of Examples.well) /\
  (exists e, fst run = Raise e) /\
  stdout (snd run) = [].
Proof.
  apply (smoothed_track_needs_curves SavgolRef.savgol_filter 0 0
           [Examples.logs_track] Examples.keyless_track [] "DEPT"
           (Float.of_Z 3700) (Float.of_Z 4000) (Float.of_Z 10) (Float.of_Z 1)
           (Float.of_Z 100) (Float.of_Z 10) 5 None
           (Examples.world_of Examples.well)).
  - repeat constructor. discriminate.
  - reflexivity.
  - reflexivity.
Defined.

(** ** The subscripts of a call *)

Section Subscripts.

Variable savgol_filter : list float -> Z -> Z -> string -> list float.

Lemma smooth_curves_subscripts cs : forall df e df',
  frame_loop (smooth_curve_on savgol_filter) cs df = (Raise e, df') ->
  e <> IndexError.
Proof.
  induction cs as [|c cs IH]; intros df e df' Hrun; [discriminate|].
  cbn [frame_loop] in Hrun.
  destruct (smooth_curve_on savgol_filter c df) as [[[]|e0] df1] eqn:Hstep;
    [by eapply IH|].
  injection Hrun as <- _. unfold smooth_curve_on in Hstep.
  destruct (column c) as [col|]; [|by injection Hstep as <- _].
  destruct (get_column df col) as [vals|]; [|discriminate].
  unfold smooth_column in Hstep.
  destruct (Nat.ltb 5 _); [|discriminate].
  destruct (Nat.eqb _ _); [discriminate | by injection Hstep as <- _].
Qed.

Lemma smoothing_subscripts tracks : forall df e df',
  frame_loop (smooth_track_on savgol_filter) tracks df = (Raise e, df') ->
  e <> IndexError.
Proof.
  induction tracks as [|t tracks IH]; intros df e df' Hrun; [discriminate|].
  cbn [frame_loop] in Hrun.
  destruct (smooth_track_on savgol_filter t df) as [[[]|e0] df1] eqn:Hstep;
    [by eapply IH|].
  injection Hrun as <- _. unfold smooth_track_on in Hstep.
  destruct (String.eqb _ _); [|discriminate].
  destruct (curves t) as [cs|]; [|by injection Hstep as <- _].
  by eapply smooth_curves_subscripts.
Qed.

(** X19: The two subscripts that the renderer applies to its list of axes,
    [axes[0]] at line 89 and [axes[track_idx]] at line 107, are always in
    range, so that neither ever raises [IndexError]: the list has one axes
    for each track, an empty track list is refused before line 89 is
    reached, and the track loop counts the tracks of the same list.  This
    holds whatever the table, the tracks and the other arguments. *)
Theorem axes_subscripts_in_range data tracks depth_column top bottom height
    adjust major minor n formation w :
  is_index_error
    (fst (combo_plot savgol_filter data tracks depth_column top bottom height
            adjust major minor n formation w)) = false.
Proof.
  assert (Hno : forall r : result Figure,
            r <> Raise IndexError -> is_index_error r = false).
  { intros [fig|[]] Hr; done. }
  apply Hno.
  destruct (frames w !! data) as [df|] eqn:Hdata.
  2: { rewrite combo_plot_run. unfold combo_plot_on. by rewrite Hdata. }
  destruct (get_column df depth_column) as [depths|] eqn:Hdepth.
  2: { rewrite combo_plot_run. unfold combo_plot_on.
       by rewrite Hdata, Hdepth. }
  destruct tracks as [|t0 tracks'].
  { rewrite combo_plot_run. unfold combo_plot_on. by rewrite Hdata, Hdepth. }
  set (tracks := t0 :: tracks') in *.
  rewrite (combo_plot_tracks _ _ _ _ _ _ _ _ _ _ _ _ _ _ _ Hdata Hdepth)
    by done.
  cbn zeta.
  destruct (frame_loop (smooth_track_on savgol_filter) tracks _)
    as [[[]|e0] logs'] eqn:Hsmooth; cbn [fst].
  - unfold render_on.
    assert (Hhas : has_column logs' depth_column = true).
    { replace logs' with
        (snd (frame_loop (smooth_track_on savgol_filter) tracks
                (working_rows df depths top bottom))) by (by rewrite Hsmooth).
      rewrite has_column_logs. unfold has_column. by rewrite Hdepth. }
    unfold has_column in Hhas.
    destruct (get_column logs' depth_column) as [ys|] eqn:Hys; [|done].
    destruct (fold_on _ (enumerate tracks) _) as [[axes'|e1] out] eqn:Hplot;
      [done|].
    apply (plot_tracks_errors _ _ ys _ _ 0%nat) in Hplot as [-> _];
      [done | done |].
    rewrite length_imap. cbn. lia.
  - intros [= ->]. by eapply smoothing_subscripts.
Qed.

End Subscripts.

(** * The labeler and the renderer together *)

Section DrawingTheLabels.

Variable savgol_filter : list float -> Z -> Z -> string -> list float.

(** X20: The table that the labeler returns can be given to the renderer as
    it is, with [DEPT] as the depth column.  The class column exists in it,
    so a curve that reads it is drawn, not skipped.  In a call none of whose
    smoothed tracks reads the class column or the depth column, the line of
    such a curve joins, for the rows whose depth [d] satisfies
    [top_depth <= d <= bottom_depth] and in their order, the class of the
    row (1 inside a zone, 0 outside) and its depth.  (The smoothing pass
    works on the one working copy of the call, so a smoothed track that
    reads one of these columns changes what every track draws of it.) *)
Theorem labelled_table_is_drawn w data zones df depths r w1 tracks top bottom
    height adjust major minor n formation fig w2 i t :
  frames w !! data = Some df ->
  wf_frame df ->
  NoDup (df_index df) \/ length_preserving savgol_filter ->
  get_column df DEPT = Some depths ->
  add_productive_zones data zones w = (Ok r, w1) ->
  smoothing_passes tracks hydrocarbon_formation_class = 0%nat ->
  smoothing_passes tracks DEPT = 0%nat ->
  combo_plot savgol_filter r tracks DEPT top bottom height adjust major minor
    n formation w1 = (Ok fig, w2) ->
  tracks !! i = Some t ->
  exists labelled ax,
    frames w1 !! r = Some labelled /\
    has_column labelled hydrocarbon_formation_class = true /\
    fig_axes fig !! i = Some ax /\
    Forall2
      (fun c tw =>
         column c = Some hydrocarbon_formation_class ->
         let mask := map (fun d => in_zone d (top, bottom)) depths in
         tw_lines tw
         = [mkLine (select mask (map (zone_class zones) depths))
              (select mask depths) (dict_get (linestyle c) "-")
              (dict_get (color c) "black")])
      (List.filter (drawn labelled) (dict_get (curves t) [])) (ax_twins ax).
Proof.
  intros Hr Hwf Hnd Hd Hlabel Hclass0 Hdepth0 Hrun Hi.
  pose proof (wf_column_length _ _ _ Hwf Hd) as Hlen.
  set (labelled := set_column df hydrocarbon_formation_class
                     (map (zone_class zones) depths)).
  assert (Hclass : get_column labelled hydrocarbon_formation_class
                   = Some (map (zone_class zones) depths))
    by apply get_set_column_eq.
  assert (Hdepth : get_column labelled DEPT = Some depths).
  { unfold labelled. rewrite get_set_column_ne by apply DEPT_ne_class. done. }
  assert (Hal : aligned labelled).
  { destruct Hwf as [_ Hal]. apply aligned_set_column; [done|].
    by rewrite length_map. }
  rewrite (add_productive_zones_spec _ _ _ depths _ Hr Hd Hlen) in Hlabel.
  injection Hlabel as <- <-.
  assert (Hnew :
    frames {| frames := frames w ++ [labelled]; stdout := stdout w |}
      !! length (frames w) = Some labelled) by apply lookup_snoc.
  destruct (combo_plot_figure _ _ _ _ _ _ _ _ _ _ _ _ _ _ _ _ Hnew Hrun)
    as (depths' & logs' & Hdepth' & Hsmooth & _ & _ & _ & Htracks).
  rewrite Hdepth in Hdepth'. injection Hdepth' as <-.
  apply smoothing_values in Hsmooth as (_ & _ & Hvals).
  2: { destruct Hnd as [Hnd|Hsg]; [left; by apply NoDup_mask_rows | by right]. }
  2: { by apply aligned_mask_rows. }
  destruct (Htracks i t Hi) as (tws & Hax & Htws).
  eexists labelled, _. split; [exact Hnew|].
  split; [unfold has_column; by rewrite Hclass|].
  split; [exact Hax|].
  rewrite ax_twins_formations_on, ax_twins_fold_add_twin.
  replace (ax_twins (titled (ruled top bottom major minor i) i t))
    with (@nil TwinAxes) by (by destruct i).
  cbn [app]. eapply Forall2_impl; [exact Htws|].
  intros c tw (col & xs & ys & Hcol & Hxs & Hys & ->) Hc. cbn zeta.
  rewrite Hcol in Hc. injection Hc as ->.
  rewrite draw_curve_lines. cbn [s_values].
  erewrite Hvals in Hxs
    by (unfold working_rows; by rewrite mask_rows_column, Hclass).
  erewrite Hvals in Hys
    by (unfold working_rows; by rewrite mask_rows_column, Hdepth).
  rewrite Hclass0 in Hxs. rewrite Hdepth0 in Hys.
  cbn [Nat.iter nat_rect] in Hxs, Hys.
  rewrite range_mask_in_zone in Hxs, Hys.
  by injection Hxs as <-; injection Hys as <-.
Qed.

End DrawingTheLabels.

Lemma labelled_table_is_drawn_witness :
  exists labelled ax,
    frames (snd Examples.labelled_run) !! 1%nat = Some labelled /\
    has_column labelled hydrocarbon_formation_class = true /\
    fig_axes (Examples.figure_of Examples.pay_run) !! 1%nat = Some ax /\
    Forall2
      (fun c tw =>
         column c = Some hydrocarbon_formation_class ->
         let mask := [false; true; true; true; false] in
         tw_lines tw
         = [mkLine (select mask [CInt 0; CInt 1; CInt 1; CInt 1; CInt 0])
              (select mask
                 [Examples.num 3690; Examples.num 3700; Examples.num 3750;
                  Examples.num 3999; Examples.num 4010])
              (dict_get (linestyle c) "-") (dict_get (color c) "black")])
      (List.filter (drawn labelled)
         [Examples.gamma_ray; Examples.class_curve])
      (ax_twins ax).
Proof.
  apply (labelled_table_is_drawn SavgolRef.savgol_filter
           (Examples.world_of Examples.well) 0 Examples.zones Examples.well
           [Examples.num 3690; Examples.num 3700; Examples.num 3750;
            Examples.num 3999; Examples.num 4010]
           1 (snd Examples.labelled_run)
           [Examples.smooth_track; Examples.pay_track]
           (Float.of_Z 3700) (Float.of_Z 4005) (Float.of_Z 10) (Float.of_Z 1)
           (Float.of_Z 100) (Float.of_Z 10) 5 None
           (Examples.figure_of Examples.pay_run) (snd Examples.pay_run)
           1%nat Examples.pay_track).
  - reflexivity.
  - exact wf_well.
  - right. exact savgol_ref_length.
  - reflexivity.
  - vm_compute. reflexivity.
  - reflexivity.
  - reflexivity.
  - vm_compute. reflexivity.
  - reflexivity.
Defined.
